(** * The research agent of craefto-automation: trend aggregation and idea ranking

    A shallow embedding of [src/app/agents/research_agent.py] (class
    [ResearchAgent]): the deduplicator [_deduplicate_topics], the relevance
    scorer [_calculate_relevance_scores], the coordinator
    [find_trending_topics] and the idea synthesizer [generate_content_ideas]
    with [_create_content_idea] and its helpers.

    Modelling choices, fixed here once:
    - a Python [float] is a rational ([Q]) that stands for the binary64
      number nearest to it, as a decimal literal does in Python; the sum and
      the product of the relevance scorer are rounded to binary64
      ([PyNum.fadd], [PyNum.fmul]; overflow is not modelled), and
      [round(x, 2)] rounds the exact value to the nearest hundredth, ties
      to even. The other arithmetic is written exactly: its results
      stand for the binary64 results (a quotient of two integers), are
      binary64 numbers themselves, round to the same hundredth
      ([Binary64Facts]), or are only compared; the draws of [random] are
      idealised;
    - a [str] is a [string]; [lower()] and [split()] are the ASCII ones
      (bytes above 127 are neither case-mapped nor whitespace);
    - a topic [dict] is a record whose optional fields are the keys the
      adapters write; [d.get(k, default)] is [default] on [None];
    - a dict object that is updated in place lives in a store
      ([gmap loc topic_data]) and lists hold references to it: the scorer
      is written on references ([ResearchAgent._calculate_relevance_scores])
      and the module [Objects] has the deduplicator, the ranking and the
      idea synthesizer on references, while [Dedup], [Coordinator] and
      [Synthesizer] have them on the records themselves;
    - [random.choice] draws from an explicit list of future draws;
    - an exception is a value of [exn]; a call returns an [outcome]. *)

From Stdlib Require Import Ascii String QArith Qround Qminmax Qpower Qabs Lia.
From stdpp Require Import gmap strings list fin_maps pretty sorting.

Local Open Scope string_scope.

(** ** Python strings *)

Module PyStr.

(** [c.isspace()] on ASCII: tab, line feed, vertical tab, form feed,
    carriage return, the four separators 0x1c-0x1f, and space. *)
Definition isspace (c : ascii) : bool :=
  let n := nat_of_ascii c in
  (((9 <=? n) && (n <=? 13)) || ((28 <=? n) && (n <=? 32)))%nat.

Definition lower_char (c : ascii) : ascii :=
  let n := nat_of_ascii c in
  if ((65 <=? n) && (n <=? 90))%nat then ascii_of_nat (n + 32) else c.

(** [s.lower()] *)
Fixpoint lower (s : string) : string :=
  match s with
  | EmptyString => EmptyString
  | String c s' => String (lower_char c) (lower s')
  end.

(** [s.split()] with no separator: maximal runs of non-whitespace.
    [cur] is the word being read, in reverse. *)
Definition flush (cur : list ascii) (acc : list string) : list string :=
  match cur with
  | [] => acc
  | _ => string_of_list_ascii (rev cur) :: acc
  end.

Fixpoint split_go (s : string) (cur : list ascii) : list string :=
  match s with
  | EmptyString => flush cur []
  | String c s' =>
      if isspace c then flush cur (split_go s' [])
      else split_go s' (c :: cur)
  end.

Definition split (s : string) : list string := split_go s [].

(** [s.startswith(p)] *)
Fixpoint startswith (p s : string) : bool :=
  match p, s with
  | EmptyString, _ => true
  | String a p', String b s' => if Ascii.eqb a b then startswith p' s' else false
  | String _ _, EmptyString => false
  end.

(** [needle in haystack] *)
Fixpoint contains (needle haystack : string) : bool :=
  startswith needle haystack ||
  match haystack with
  | EmptyString => false
  | String _ h' => contains needle h'
  end.

(** [any(word in text for word in words)] *)
Definition any_in (words : list string) (text : string) : bool :=
  existsb (fun w => contains w text) words.

(** [s[:n]] *)
Fixpoint slice_to (n : nat) (s : string) : string :=
  match n, s with
  | S n', String c s' => String c (slice_to n' s')
  | _, _ => EmptyString
  end.

(** [c.isupper()], [c.islower()], [c.isdigit()] on ASCII *)
Definition isupper (c : ascii) : bool :=
  let n := nat_of_ascii c in ((65 <=? n) && (n <=? 90))%nat.

Definition islower (c : ascii) : bool :=
  let n := nat_of_ascii c in ((97 <=? n) && (n <=? 122))%nat.

Definition isdigit (c : ascii) : bool :=
  let n := nat_of_ascii c in ((48 <=? n) && (n <=? 57))%nat.

Definition upper_char (c : ascii) : ascii :=
  if islower c then ascii_of_nat (nat_of_ascii c - 32) else c.

(** The class [\w] of [re] on ASCII: letters, digits and the underscore. *)
Definition is_word_char (c : ascii) : bool :=
  isupper c || islower c || isdigit c || (nat_of_ascii c =? 95)%nat.

(** [re.sub(r'[^\w\s]', ' ', s)] *)
Fixpoint sub_non_word (s : string) : string :=
  match s with
  | EmptyString => EmptyString
  | String c s' =>
      String (if is_word_char c || isspace c then c else " "%char) (sub_non_word s')
  end.

(** [s.title()]: a cased character is put in upper case after an uncased
    one and in lower case after a cased one. *)
Fixpoint title_go (previous_is_cased : bool) (s : string) : string :=
  match s with
  | EmptyString => EmptyString
  | String c s' =>
      String (if previous_is_cased then lower_char c else upper_char c)
             (title_go (isupper c || islower c) s')
  end.

Definition title (s : string) : string := title_go false s.

(** [s.lstrip()], [s.rstrip()], [s.strip()] *)
Fixpoint lstrip (s : string) : string :=
  match s with
  | EmptyString => EmptyString
  | String c s' => if isspace c then lstrip s' else s
  end.

Definition reverse (s : string) : string :=
  string_of_list_ascii (rev (list_ascii_of_string s)).

Definition rstrip (s : string) : string := reverse (lstrip (reverse s)).

Definition strip (s : string) : string := rstrip (lstrip s).

(** [sep.join(words)] *)
Fixpoint join (sep : string) (words : list string) : string :=
  match words with
  | [] => EmptyString
  | [w] => w
  | w :: rest => w +:+ sep +:+ join sep rest
  end.

End PyStr.

(** ** Python numbers *)

Module PyNum.

Local Open Scope Q_scope.

(** [x > y] on floats *)
Definition gtb (x y : Q) : bool :=
  match Qcompare x y with Gt => true | _ => false end.

(** [a / b] on two ints (true division) *)
Definition truediv (a b : nat) : Q :=
  inject_Z (Z.of_nat a) / inject_Z (Z.of_nat b).

(** Nearest integer, ties to even. *)
Definition round_half_even (x : Q) : Z :=
  let f := Qfloor x in
  match Qcompare (x - inject_Z f) (1 # 2) with
  | Lt => f
  | Gt => (f + 1)%Z
  | Eq => if Z.even f then f else (f + 1)%Z
  end.

(** [round(x, 2)]: the exact value of [x] rounded to the nearest
    hundredth, ties to even, which is how CPython rounds a float (through
    its shortest correctly rounded decimal). *)
Definition round2 (x : Q) : Q :=
  Qred (inject_Z (round_half_even (x * 100)) / 100).

(** *** Binary64 arithmetic

    A rational stands for the binary64 number nearest to it, as a decimal
    literal or the result of [round] does in Python. *)

(** [floor(log2(x))] of a positive [x]. *)
Definition ilog2 (x : Q) : Z :=
  let k := (Z.log2 (Qnum x) - Z.log2 (Zpos (Qden x)))%Z in
  if Qle_bool (2 ^ k) x then k else (k - 1)%Z.

(** The exponent of the last bit of the 53-bit significand of [x]; it is
    not below -1074, where the subnormal numbers lie. *)
Definition ulp_exp (x : Q) : Z := Z.max (ilog2 x - 52) (-1074).

(** The binary64 number nearest to a positive [x], ties to the even
    significand. *)
Definition fl_pos (x : Q) : Q :=
  inject_Z (round_half_even (x / 2 ^ ulp_exp x)) * 2 ^ ulp_exp x.

(** The binary64 number nearest to [x]. The exponent is not bounded
    above: a result beyond the largest binary64 number is kept where
    Python has an infinity. *)
Definition fl (x : Q) : Q :=
  match Qcompare x 0 with
  | Eq => 0
  | Gt => fl_pos x
  | Lt => - fl_pos (- x)
  end.

(** [a + b] and [a * b] on floats: the exact result of the operation on
    the two binary64 numbers, rounded to the nearest one. *)
Definition fadd (a b : Q) : Q := fl (fl a + fl b).

Definition fmul (a b : Q) : Q := fl (fl a * fl b).

End PyNum.

(** ** Data model *)

(** A topic dict as the source adapters build it. Every key is optional:
    [relevance_score], [topic], [source] and [context] are read with
    [.get(key, default)]. [raw_score] and [post_age_hours] are written by
    the forum adapter only, [product_name], [trend_type] and [category] by
    one adapter each, [craefto_boost] by the scorer. *)
Record topic_data := {
  topic : option string;
  relevance_score : option Q;
  source : option string;
  context : option string;
  content_angle : option string;
  raw_score : option Q;
  post_age_hours : option Q;
  product_name : option string;
  trend_type : option string;
  category : option string;
  craefto_boost : option Q
}.

(** [d.get(key, default)] *)
Definition get {A} (field : option A) (dflt : A) : A := default dflt field.

(** The two assignments [d['relevance_score'] = s; d['craefto_boost'] = b]. *)
Definition set_scores (d : topic_data) (s b : Q) : topic_data :=
  {| topic := topic d;
     relevance_score := Some s;
     source := source d;
     context := context d;
     content_angle := content_angle d;
     raw_score := raw_score d;
     post_age_hours := post_age_hours d;
     product_name := product_name d;
     trend_type := trend_type d;
     category := category d;
     craefto_boost := Some b |}.

(** The dict appended by [_scrape_reddit_saas] for a post with the given
    vote count (lines 160-168): the incoming [relevance_score] is the
    vote count divided by ten and capped, [raw_score] the vote count. *)
Definition reddit_topic (t ctx angle : string) (score age : Q) : topic_data :=
  {| topic := Some t;
     relevance_score := Some (Qmin (score / 10) 100);
     source := Some "reddit";
     context := Some ctx;
     content_angle := Some angle;
     raw_score := Some score;
     post_age_hours := Some age;
     product_name := None;
     trend_type := None;
     category := None;
     craefto_boost := None |}.

(** The dict appended by [_scrape_twitter_trends] (lines 246-253). *)
Definition twitter_topic (t angle : string) (score : Q) : topic_data :=
  {| topic := Some t;
     relevance_score := Some score;
     source := Some "twitter";
     context := Some ("Trending SaaS topic: " +:+ t);
     content_angle := Some angle;
     raw_score := None;
     post_age_hours := None;
     product_name := None;
     trend_type := Some "hashtag";
     category := None;
     craefto_boost := None |}.

(** ** The research agent *)

Module ResearchAgent.

(** [self.craefto_keywords] *)
Definition craefto_keywords : list string :=
  [ "framer"; "design"; "templates"; "saas"; "conversion"; "landing page";
    "ui/ux"; "web design"; "no-code"; "startup"; "marketing"; "growth";
    "optimization"; "user experience"; "interface"; "prototype" ].

(** [sum(1 for keyword in self.craefto_keywords if keyword in text_lower)] *)
Definition keyword_matches (text : string) : nat :=
  let text_lower := PyStr.lower text in
  length (filter (fun keyword => PyStr.contains keyword text_lower = true) craefto_keywords).

Definition _calculate_craefto_relevance (text : string) : Q :=
  Qmin (PyNum.truediv (keyword_matches text) (length craefto_keywords)) 1.

Definition source_multipliers : gmap string Q :=
  list_to_map
    [ ("reddit", 12 # 10); ("producthunt", 11 # 10);
      ("google_trends", 13 # 10); ("twitter", 1 # 1) ]%Q.

(** [source_multipliers.get(source, 1.0)] *)
Definition multiplier_of (src : string) : Q :=
  default 1%Q (source_multipliers !! src).

(** The keyword boost of a topic text (line 510). *)
Definition boost_of (t : string) : Q :=
  (_calculate_craefto_relevance t * 30)%Q.

(** The unrounded score (line 521) from the score the record carries on
    entry, its topic and its source, in float arithmetic. *)
Definition final_score (base_score : Q) (t src : string) : Q :=
  Qmin (PyNum.fmul (PyNum.fadd base_score (boost_of t)) (multiplier_of src)) 100.

(** The body of the loop of [_calculate_relevance_scores] (lines 505-524),
    as the new contents of the dict it updates. *)
Definition score_topic (d : topic_data) : topic_data :=
  let base_score := get (relevance_score d) 0%Q in
  let t := get (topic d) "" in
  let src := get (source d) "" in
  set_scores d
    (PyNum.round2 (final_score base_score t src))
    (PyNum.round2 (boost_of t)).

(** References to dict objects, and the store they point into. *)
Definition loc := nat.

(** [_calculate_relevance_scores]: every record in [topics] is updated in
    place, in list order, and the list passed in is the list returned. *)
Definition _calculate_relevance_scores
    (h : gmap loc topic_data) (topics : list loc) : gmap loc topic_data * list loc :=
  (foldl (fun h l => alter score_topic l h) h topics, topics).

(** The records a list of references denotes. *)
Definition deref (h : gmap loc topic_data) (ls : list loc) : list topic_data :=
  omap (fun l => h !! l) ls.

End ResearchAgent.

(** ** The deduplicator *)

Module Dedup.

(** [set(topic.split())] *)
Definition word_set (t : string) : gset string := list_to_set (PyStr.split t).

(** The test of line 492 on two word sets. Python evaluates the two
    quotients only when [overlap >= 2], and then neither set is empty;
    here they are evaluated always and a quotient by zero is zero. A
    quotient of two small integers is above the float [0.6] exactly when
    the rational is above 6/10: the float quotient is the correctly
    rounded one, and it is the float [0.6] itself when the rational is
    6/10. *)
Definition significant_overlap (topic_words seen_words : gset string) : bool :=
  let overlap := size (topic_words ∩ seen_words) in
  (2 <=? overlap)%nat &&
  (PyNum.gtb (PyNum.truediv overlap (size topic_words)) (6 # 10)
   || PyNum.gtb (PyNum.truediv overlap (size seen_words)) (6 # 10)).

(** The inner loop (lines 487-494): is some seen topic a near-duplicate? *)
Definition is_duplicate (seen_topics : gset string) (t : string) : bool :=
  existsb (fun seen_topic => significant_overlap (word_set t) (word_set seen_topic))
          (elements seen_topics).

(** [topic_data.get('topic', '').lower()] *)
Definition topic_key (d : topic_data) : string := PyStr.lower (get (topic d) "").

(** One turn of the outer loop on the pair [(unique_topics, seen_topics)]. *)
Definition dedup_step (st : list topic_data * gset string) (d : topic_data)
    : list topic_data * gset string :=
  let t := topic_key d in
  if is_duplicate st.2 t then st else ((st.1 ++ [d])%list, {[ t ]} ∪ st.2).

Definition dedup_state (topics : list topic_data) : list topic_data * gset string :=
  foldl dedup_step ([], ∅) topics.

Definition _deduplicate_topics (topics : list topic_data) : list topic_data :=
  (dedup_state topics).1.

End Dedup.

(** ** [sorted(l, key=key, reverse=True)] *)

(** Python's sort is stable, also under [reverse=True]: records with equal
    keys keep their order. There is one such rearrangement of a list; it is
    computed here by insertion from the right, each record going in front
    of the first one whose key is not greater than its own. *)
Section SortedDesc.
Context {A : Type} (key : A → Q).

Fixpoint insert_desc (x : A) (l : list A) : list A :=
  match l with
  | [] => [x]
  | y :: l' =>
      if PyNum.gtb (key y) (key x) then y :: insert_desc x l' else x :: y :: l'
  end.

Definition sorted_desc (l : list A) : list A := foldr insert_desc [] l.

End SortedDesc.

(** ** The coordinator *)

Inductive exn :=
  | AttributeError (type_name attr : string)
  | UnboundLocalError (var : string)
  | RuntimeError (msg : string).

Inductive outcome (A : Type) :=
  | Return (a : A)
  | Raise (e : exn).
Arguments Return {A} a.
Arguments Raise {A} e.

Module Coordinator.

(** What one entry of the result of [asyncio.gather] called with
    [return_exceptions=True] holds: the exception a task raised, the list it returned, or a value
    that is neither. *)
Inductive gathered :=
  | GException (e : exn)
  | GList (l : list topic_data)
  | GOther.

(** What awaiting one adapter gives: it returns its list or raises. *)
Definition gather_one (task : outcome (list topic_data)) : gathered :=
  match task with
  | Return l => GList l
  | Raise e => GException e
  end.

(** The loop of lines 101-109 over the gathered results. *)
Definition collect (results : list gathered) : list topic_data :=
  foldl (fun all_topics result =>
           match result with
           | GException _ => all_topics
           | GList l => (all_topics ++ l)%list
           | GOther => all_topics
           end) [] results.

(** [x['relevance_score']] of a scored record. *)
Definition relevance_key (d : topic_data) : Q := get (relevance_score d) 0%Q.

(** The scorer on records held by distinct objects (the adapters build a
    fresh dict for every candidate): see [scores_of_distinct_objects]. *)
Definition scored_values (unique_topics : list topic_data) : list topic_data :=
  ResearchAgent.score_topic <$> unique_topics.

(** Line 118. *)
Definition final_topics (scored_topics : list topic_data) : list topic_data :=
  take 20 (sorted_desc relevance_key scored_topics).

Definition find_trending_topics (tasks : list (outcome (list topic_data)))
    : outcome (list topic_data) :=
  let results := gather_one <$> tasks in
  let all_topics := collect results in
  let unique_topics := Dedup._deduplicate_topics all_topics in
  let scored_topics := scored_values unique_topics in
  Return (final_topics scored_topics).

End Coordinator.

(** ** The idea synthesizer *)

(** [random.choice]: the generator is the list of its future draws; a draw
    [n] picks position [n mod len(l)]. The lists drawn from here are never
    empty. *)
Definition Rand (A : Type) : Type := list nat → A * list nat.

#[global] Instance Rand_ret : MRet Rand := fun A a draws => (a, draws).
#[global] Instance Rand_bind : MBind Rand :=
  fun A B f m draws => let '(a, draws') := m draws in f a draws'.

Definition choice (l : list string) : Rand string :=
  fun draws =>
    match draws with
    | [] => (default "" (l !! 0), [])
    | n :: draws' => (default "" (l !! (n mod length l)), draws')
    end.

Inductive format_type := blog | social | email.

Record idea := {
  idea_title : string;
  idea_topic : string;
  idea_format : format_type;
  idea_content_angle : string;
  idea_source_trend : string;
  idea_priority_score : Q;
  idea_context : string;
  idea_estimated_engagement : string;
  idea_target_audience : list string;
  idea_content_pillars : list string;
  idea_seo_keywords : list string;
  idea_call_to_action : string;
  idea_id : option string;
  idea_generated_at : option string
}.

(** [idea['id'] = i; idea['generated_at'] = g] *)
Definition set_id (x : idea) (i g : string) : idea :=
  {| idea_title := idea_title x;
     idea_topic := idea_topic x;
     idea_format := idea_format x;
     idea_content_angle := idea_content_angle x;
     idea_source_trend := idea_source_trend x;
     idea_priority_score := idea_priority_score x;
     idea_context := idea_context x;
     idea_estimated_engagement := idea_estimated_engagement x;
     idea_target_audience := idea_target_audience x;
     idea_content_pillars := idea_content_pillars x;
     idea_seo_keywords := idea_seo_keywords x;
     idea_call_to_action := idea_call_to_action x;
     idea_id := Some i;
     idea_generated_at := Some g |}.

(** An element of [trending_data]: a topic dict, or a value with no
    [get] method. *)
Inductive pyobj :=
  | PyDict (d : topic_data)
  | PyNone
  | PyStr (s : string)
  | PyFloat (q : Q).

Inductive log_record :=
  | LogInfo (msg : string)
  | LogError (msg : string).

(** [str(e)] *)
Definition exn_str (e : exn) : string :=
  match e with
  | AttributeError ty attr =>
      "'" +:+ ty +:+ "' object has no attribute '" +:+ attr +:+ "'"
  | UnboundLocalError var =>
      "cannot access local variable '" +:+ var +:+ "' where it is not associated with a value"
  | RuntimeError msg => msg
  end.

Module Synthesizer.

Import ResearchAgent.

(** [self.content_angles] *)
Definition content_angles : list string :=
  [ "Framer template showcase"; "SaaS design breakdown"; "CRO optimization tips";
    "Design trend analysis"; "Template customization guide";
    "User experience insights"; "Conversion optimization case study";
    "Design system breakdown"; "No-code solution comparison";
    "Startup design mistakes" ].

Definition _generate_craefto_angle (t : string) : Rand string :=
  let topic_lower := PyStr.lower t in
  if PyStr.any_in ["design"; "ui"; "ux"; "interface"] topic_lower then
    choice ["SaaS design breakdown"; "Design system analysis"; "User experience insights"]
  else if PyStr.any_in ["framer"; "template"; "prototype"] topic_lower then
    choice ["Framer template showcase"; "Template customization guide";
            "Prototype to production workflow"]
  else if PyStr.any_in ["conversion"; "cro"; "optimization"] topic_lower then
    choice ["CRO optimization tips"; "Conversion optimization case study";
            "Landing page optimization"]
  else if PyStr.any_in ["startup"; "saas"; "business"] topic_lower then
    choice ["SaaS growth strategy"; "Startup design mistakes"; "Business model analysis"]
  else choice content_angles.

Definition _estimate_engagement (format : format_type) (relevance : Q) : Rand string :=
  if PyNum.gtb relevance (7 # 10) then choice ["High"; "Very High"]
  else if PyNum.gtb relevance (4 # 10) then choice ["Medium"; "High"]
  else mret "Medium".

Definition _determine_target_audience (t : string) : list string :=
  let topic_lower := PyStr.lower t in
  if PyStr.any_in ["founder"; "startup"; "business"] topic_lower then
    ["SaaS founders"; "Startup founders"]
  else if PyStr.any_in ["design"; "ui"; "ux"] topic_lower then
    ["Product designers"; "UI/UX designers"]
  else if PyStr.any_in ["marketing"; "growth"; "conversion"] topic_lower then
    ["Product marketers"; "Growth teams"]
  else ["SaaS founders"; "Product designers"].

Definition _map_to_content_pillars (t : string) : list string :=
  let topic_lower := PyStr.lower t in
  let pillars :=
    ((if PyStr.any_in ["framer"; "template"] topic_lower
      then ["Framer tutorials"] else []) ++
     (if PyStr.any_in ["design"; "ui"; "ux"] topic_lower
      then ["SaaS design patterns"; "Web Design trends"] else []) ++
     (if PyStr.any_in ["conversion"; "optimization"; "cro"] topic_lower
      then ["CRO tips"] else []) ++
     (if PyStr.any_in ["template"; "component"] topic_lower
      then ["Template showcases"] else []))%list in
  match pillars with
  | [] => ["SaaS design patterns"]
  | _ => pillars
  end.

Definition _generate_seo_keywords (t : string) : list string :=
  let base_keywords := [PyStr.lower t] in
  let craefto_additions :=
    ["saas design"; "framer templates"; "ui design"; "conversion optimization"] in
  let combined_keywords :=
    (fun keyword => PyStr.lower t +:+ " " +:+ keyword) <$> take 2 craefto_additions in
  (base_keywords ++ combined_keywords)%list.

Definition _generate_cta (format : format_type) : Rand string :=
  match format with
  | blog => choice ["Download our free Framer template collection";
                    "Get started with our SaaS design system";
                    "Book a free design consultation"]
  | social => choice ["Follow for more SaaS design tips";
                      "Check out our latest templates";
                      "DM for custom design work"]
  | email => choice ["Explore our template library";
                     "Schedule a design review";
                     "Join our design community"]
  end.

Definition title_templates (t : string) (format : format_type) : list string :=
  match format with
  | blog =>
      [ "How " +:+ t +:+ " is Transforming SaaS Design in 2024";
        "The Complete Guide to " +:+ t +:+ " for SaaS Founders";
        t +:+ ": What Every Designer Needs to Know";
        "Building Better SaaS Products with " +:+ t;
        "Why " +:+ t +:+ " Matters for Your SaaS Growth Strategy" ]
  | social =>
      [ "🔥 " +:+ t +:+ " is trending! Here's why it matters for SaaS:";
        "💡 Quick tip: How to leverage " +:+ t +:+ " in your design process";
        "🚀 " +:+ t +:+ " breakdown - what you need to know";
        "⚡ " +:+ t +:+ " insights that will boost your conversion rates" ]
  | email =>
      [ "Weekly Insight: " +:+ t +:+ " Impact on SaaS";
        "Trend Alert: " +:+ t +:+ " Opportunities";
        "Designer's Brief: " +:+ t +:+ " Essentials" ]
  end.

Definition format_priority (format : format_type) : Q :=
  match format with
  | blog => 1
  | social => 8 # 10
  | email => 9 # 10
  end.

Definition _create_content_idea (t ctx src : string) (format : format_type) : Rand idea :=
  title ← choice (title_templates t format);
  let topic_relevance := _calculate_craefto_relevance t in
  let priority_score := ((topic_relevance * 100) * format_priority format)%Q in
  angle ← _generate_craefto_angle t;
  engagement ← _estimate_engagement format topic_relevance;
  cta ← _generate_cta format;
  mret {| idea_title := title;
          idea_topic := t;
          idea_format := format;
          idea_content_angle := angle;
          idea_source_trend := src;
          idea_priority_score := PyNum.round2 priority_score;
          idea_context := PyStr.slice_to 200 ctx;
          idea_estimated_engagement := engagement;
          idea_target_audience := _determine_target_audience t;
          idea_content_pillars := _map_to_content_pillars t;
          idea_seo_keywords := _generate_seo_keywords t;
          idea_call_to_action := cta;
          idea_id := None;
          idea_generated_at := None |}.

(** Lines 374-377. *)
Definition formats_for (trend : topic_data) : list format_type :=
  if PyNum.gtb (get (relevance_score trend) 0%Q) 70 then [blog; social; email]
  else [blog].

(** The inner loop (lines 379-382). The dict that [_create_content_idea]
    returns is never empty, so the test [if idea:] always passes. *)
Fixpoint ideas_for_formats (t ctx src : string) (formats : list format_type)
    : Rand (list idea) :=
  match formats with
  | [] => mret []
  | format :: rest =>
      x ← _create_content_idea t ctx src format;
      xs ← ideas_for_formats t ctx src rest;
      mret (x :: xs)
  end.

(** [trend.get] on an element of [trending_data]. *)
Definition as_dict (trend : pyobj) : outcome topic_data :=
  match trend with
  | PyDict d => Return d
  | PyNone => Raise (AttributeError "NoneType" "get")
  | PyStr _ => Raise (AttributeError "str" "get")
  | PyFloat _ => Raise (AttributeError "float" "get")
  end.

(** The outer loop (lines 368-382) from the value [content_ideas] has on
    entry: the ideas collected, or the exception that ended the loop. *)
Fixpoint collect_ideas (trends : list pyobj) (content_ideas : list idea)
    : Rand (outcome (list idea)) :=
  match trends with
  | [] => mret (Return content_ideas)
  | trend :: rest =>
      match as_dict trend with
      | Raise e => mret (Raise e)
      | Return d =>
          new ← ideas_for_formats (get (topic d) "") (get (context d) "")
                                  (get (source d) "") (formats_for d);
          collect_ideas rest (content_ideas ++ new)%list
      end
  end.

Definition priority_key (x : idea) : Q := idea_priority_score x.

(** Lines 385-390: the five best ideas, each then given its id and time.
    [stamp i] and [iso i] are what the clock reads for idea [i]. *)
Definition prioritize (stamp iso : nat → string) (content_ideas : list idea) : list idea :=
  imap (fun i x => set_id x ("idea_" +:+ stamp i +:+ "_" +:+ pretty i) (iso i))
       (take 5 (sorted_desc priority_key content_ideas)).

(** [return prioritized_ideas], the local being bound or not. *)
Definition return_local {A} (var : string) (value : option A) : outcome A :=
  match value with
  | Some a => Return a
  | None => Raise (UnboundLocalError var)
  end.

(** [generate_content_ideas]: the [try] block either binds
    [prioritized_ideas] or is left by an exception, which the handler
    logs; the [return] after it reads the local. *)
Definition generate_content_ideas (stamp iso : nat → string) (trending_data : list pyobj)
    : Rand (outcome (list idea) * list log_record) :=
  let start := LogInfo "💡 Generating Craefto content ideas from trending data" in
  body ← collect_ideas (take 10 trending_data) [];
  match body with
  | Return content_ideas =>
      let prioritized_ideas := prioritize stamp iso content_ideas in
      mret (return_local "prioritized_ideas" (Some prioritized_ideas),
            [ start;
              LogInfo ("✅ Generated " +:+ pretty (length prioritized_ideas)
                       +:+ " prioritized content ideas") ])
  | Raise e =>
      mret (return_local "prioritized_ideas" None,
            [ start; LogError ("❌ Content idea generation failed: " +:+ exn_str e) ])
  end.

End Synthesizer.

(** ** The topic normalizer and the source adapters *)

Module Normalizer.

Definition stop_words : list string :=
  [ "the"; "a"; "an"; "and"; "or"; "but"; "in"; "on"; "at"; "to"; "for"; "of";
    "with"; "by"; "is"; "are"; "was"; "were"; "be"; "been"; "being"; "have";
    "has"; "had"; "do"; "does"; "did"; "will"; "would"; "could"; "should" ].

Definition tech_keywords : list string :=
  [ "saas"; "api"; "ai"; "ml"; "automation"; "platform"; "tool"; "app";
    "software"; "system"; "service"; "solution" ].

(** Lines 402-407: the words left of the cleaned, lowercased text. *)
Definition meaningful_words (text : string) : list string :=
  let clean_text := PyStr.sub_non_word (PyStr.lower text) in
  filter (λ w, (w ∉ stop_words) ∧ (2 < String.length w)%nat) (PyStr.split clean_text).

(** The loop of lines 415-418 over the windows [words[i:i+3]], [i] from 0
    to [len(words) - 2]: the first window whose phrase contains a tech
    keyword. *)
Fixpoint first_tech_phrase (words : list string) : option string :=
  match words with
  | _ :: (_ :: _) as rest =>
      let phrase := PyStr.join " " (take 3 words) in
      if PyStr.any_in tech_keywords phrase then Some phrase
      else first_tech_phrase rest
  | _ => None
  end.

Definition _extract_topic_from_text (text : string) : string :=
  let words := meaningful_words text in
  if (2 <=? length words)%nat then
    match first_tech_phrase words with
    | Some phrase => PyStr.title phrase
    | None => PyStr.title (PyStr.join " " (take 3 words))
    end
  else
    match words with
    | [] => PyStr.slice_to 50 text
    | _ => PyStr.title (PyStr.join " " words)
    end.

End Normalizer.

Module Adapters.

Import ResearchAgent.

Definition saas_keywords : list string :=
  [ "saas"; "software"; "platform"; "tool"; "api"; "automation"; "business";
    "startup"; "enterprise"; "subscription"; "cloud"; "analytics"; "dashboard";
    "integration"; "workflow"; "productivity" ].

Definition saas_matches (text : string) : nat :=
  let text_lower := PyStr.lower text in
  length (filter (fun keyword => PyStr.contains keyword text_lower = true) saas_keywords).

Definition _calculate_saas_relevance (text : string) : Q :=
  Qmin (PyNum.truediv (saas_matches text) (length saas_keywords)) 1.

(** [random.random()]: the next draw, read as 53 random bits, over 2^53. *)
Definition random : Rand Q :=
  fun draws =>
    match draws with
    | [] => (0%Q, [])
    | n :: draws' => (Qmake (Z.of_nat n mod 2 ^ 53)%Z (2 ^ 53)%positive, draws')
    end.

(** [random.uniform(a, b)] is [a + (b - a) * random()]. *)
Definition uniform (a b : Q) : Rand Q :=
  u ← random; mret (a + (b - a) * u)%Q.

(** *** The social-trend adapter *)

Definition trending_saas_topics : list string :=
  [ "AI SaaS tools"; "No-code platforms"; "SaaS analytics";
    "Customer success tools"; "SaaS pricing models"; "API-first SaaS";
    "SaaS onboarding"; "PLG strategies"; "SaaS metrics"; "B2B automation" ].

(** The loop of lines 243-253 from index [i] on. *)
Fixpoint twitter_loop (i : nat) (topics : list string) : Rand (list topic_data) :=
  match topics with
  | [] => mret []
  | t :: rest =>
      u ← uniform 60 95;
      let score := (u - inject_Z (Z.of_nat i) * 3)%Q in
      angle ← Synthesizer._generate_craefto_angle t;
      tl ← twitter_loop (S i) rest;
      mret (twitter_topic t angle score :: tl)
  end.

(** Nothing in the [try] block can raise; the first six are returned. *)
Definition _scrape_twitter_trends : Rand (list topic_data) :=
  topics ← twitter_loop 0 trending_saas_topics;
  mret (take 6 topics).

(** *** The search-trend adapter *)

Definition web_dev_trends : list string :=
  [ "React 18 features"; "Next.js 14"; "TypeScript best practices";
    "Tailwind CSS components"; "Serverless architecture"; "JAMstack";
    "Headless CMS"; "Progressive Web Apps"; "Web performance optimization";
    "Design systems"; "Component libraries"; "CSS-in-JS" ].

(** The dict appended by [_scrape_google_trends] (lines 283-290). *)
Definition google_topic (trend angle : string) (score : Q) : topic_data :=
  {| topic := Some trend;
     relevance_score := Some score;
     source := Some "google_trends";
     context := Some ("Trending in web development: " +:+ trend);
     content_angle := Some angle;
     raw_score := None;
     post_age_hours := None;
     product_name := None;
     trend_type := None;
     category := Some "web_development";
     craefto_boost := None |}.

(** The loop of lines 277-290. *)
Fixpoint google_loop (trends : list string) : Rand (list topic_data) :=
  match trends with
  | [] => mret []
  | trend :: rest =>
      let score := (_calculate_craefto_relevance trend * 100)%Q in
      if PyNum.gtb score 30 then
        angle ← Synthesizer._generate_craefto_angle trend;
        tl ← google_loop rest;
        mret (google_topic trend angle score :: tl)
      else google_loop rest
  end.

Definition _scrape_google_trends : Rand (list topic_data) :=
  topics ← google_loop web_dev_trends;
  mret (take 8 (sorted_desc Coordinator.relevance_key topics)).

(** *** The forum adapter *)

(** What [session.get(url)] gives once awaited: a status and the decoded
    body; a request that fails (no session, no network, a body that is not
    JSON) raises instead. *)
Record response (A : Type) := { status : nat; body : A }.
Arguments status {A} r.
Arguments body {A} r.

(** The [data] dict of one child of the listing; every key is read with
    a default. *)
Record reddit_post := {
  post_stickied : option bool;
  post_title : option string;
  post_selftext : option string;
  post_score : option Q;
  post_created_utc : option Q
}.

(** The loop of lines 138-168; [now] is [datetime.utcnow().timestamp()]. *)
Fixpoint reddit_loop (now : Q) (posts : list reddit_post) : Rand (list topic_data) :=
  match posts with
  | [] => mret []
  | post :: rest =>
      if get (post_stickied post) false then reddit_loop now rest
      else
        let title := get (post_title post) "" in
        let selftext := get (post_selftext post) "" in
        let score := get (post_score post) 0%Q in
        let created_utc := get (post_created_utc post) 0%Q in
        let post_age_hours := ((now - created_utc) / 3600)%Q in
        if PyNum.gtb post_age_hours 48 then reddit_loop now rest
        else
          let ctx := title +:+ ". " +:+ PyStr.slice_to 200 selftext in
          let t := Normalizer._extract_topic_from_text title in
          (* [if topic and len(topic) > 3]: a topic longer than 3 is not empty *)
          if (3 <? String.length t)%nat then
            angle ← Synthesizer._generate_craefto_angle t;
            tl ← reddit_loop now rest;
            mret (reddit_topic t (PyStr.strip ctx) angle score post_age_hours :: tl)
          else reddit_loop now rest
  end.

(** [_scrape_reddit_saas]: an exception of the request is caught and
    logged, and the topics collected so far (none) are returned. *)
Definition _scrape_reddit_saas (now : Q) (fetched : outcome (response (list reddit_post)))
    : Rand (list topic_data) :=
  match fetched with
  | Raise _ => mret []
  | Return r =>
      if (status r =? 200)%nat then
        topics ← reddit_loop now (body r);
        mret (take 10 topics)
      else mret []
  end.

(** *** The product-launch adapter *)

(** One element that [soup.find_all] returned: the text of the name and
    of the description element found in it, [None] where [find] found
    none. *)
Record product_card := {
  name_elem : option string;
  desc_elem : option string
}.

(** The dict appended by [_scrape_producthunt] (lines 209-216). *)
Definition producthunt_topic (t name description angle : string) (saas_score : Q)
    : topic_data :=
  {| topic := Some t;
     relevance_score := Some (saas_score * 100)%Q;
     source := Some "producthunt";
     context := Some (name +:+ ": " +:+ description);
     content_angle := Some angle;
     raw_score := None;
     post_age_hours := None;
     product_name := Some name;
     trend_type := None;
     category := None;
     craefto_boost := None |}.

(** The loop of lines 192-219. *)
Fixpoint producthunt_loop (products : list product_card) : Rand (list topic_data) :=
  match products with
  | [] => mret []
  | product :: rest =>
      match name_elem product, desc_elem product with
      | Some name_text, Some desc_text =>
          let name := PyStr.strip name_text in
          let description := PyStr.strip desc_text in
          let combined_text := PyStr.lower (name +:+ " " +:+ description) in
          let saas_score := _calculate_saas_relevance combined_text in
          if PyNum.gtb saas_score (3 # 10) then
            let t := Normalizer._extract_topic_from_text (name +:+ ": " +:+ description) in
            angle ← Synthesizer._generate_craefto_angle name;
            tl ← producthunt_loop rest;
            mret (producthunt_topic (match t with EmptyString => name | _ => t end)
                                    name description angle saas_score :: tl)
          else producthunt_loop rest
      | _, _ => producthunt_loop rest
      end
  end.

(** [_scrape_producthunt]: the response body is given as the product
    elements found in the parsed page. *)
Definition _scrape_producthunt (fetched : outcome (response (list product_card)))
    : Rand (list topic_data) :=
  match fetched with
  | Raise _ => mret []
  | Return r =>
      if (status r =? 200)%nat then
        topics ← producthunt_loop (take 15 (body r));
        mret (take 8 topics)
      else mret []
  end.

End Adapters.

(** ** The competitor analysis *)

Module Competitor.

(** The dict returned by [analyze_competitor]; [error] is the key the
    handler adds. *)
Record analysis := {
  url : string;
  content_topics : list string;
  content_gaps : list string;
  posting_frequency : string;
  content_types : list string;
  success : bool;
  error : option string
}.

Definition craefto_topics : list string :=
  [ "framer templates"; "saas design"; "conversion optimization"; "ui/ux" ].

(** The loop of lines 328-334 over the title elements found in the
    articles ([None] for an article without one). *)
Fixpoint article_topics (articles : list (option string)) : list string :=
  match articles with
  | [] => []
  | title_elem :: rest =>
      match title_elem with
      | Some text =>
          let title := PyStr.strip text in
          let topic := Normalizer._extract_topic_from_text title in
          match topic with
          | EmptyString => article_topics rest
          | _ => topic :: article_topics rest
          end
      | None => article_topics rest
      end
  end.

(** Line 341: the focus areas none of whose words occurs in the joined,
    lowercased topics. *)
Definition gaps (topics : list string) : list string :=
  filter (λ topic, PyStr.any_in (PyStr.split topic)
                                (PyStr.lower (PyStr.join " " topics)) = false)
         craefto_topics.

(** [analyze_competitor]: the response body is given as the title
    elements of the articles found in the parsed page. *)
Definition analyze_competitor (competitor_url : string)
    (fetched : outcome (Adapters.response (list (option string)))) : analysis :=
  match fetched with
  | Return r =>
      if (Adapters.status r =? 200)%nat then
        let topics := article_topics (take 10 (Adapters.body r)) in
        {| url := competitor_url;
           content_topics := topics;
           content_gaps := gaps topics;
           posting_frequency := "unknown";
           content_types := [];
           success := true;
           error := None |}
      else
        {| url := competitor_url;
           content_topics := [];
           content_gaps := [];
           posting_frequency := "unknown";
           content_types := [];
           success := false;
           error := None |}
  | Raise e =>
      {| url := competitor_url;
         content_topics := [];
         content_gaps := [];
         posting_frequency := "unknown";
         content_types := [];
         success := false;
         error := Some (exn_str e) |}
  end.

End Competitor.

(** ** The callers *)

Module Callers.


(** [save_research] of [utils/database.py], line 900: the score it
    stores. *)
Definition stored_relevance (relevance : Q) : Q :=
  Qmin (Qmax relevance 0) 1.

(** [run_manual_content_sprint] of [orchestrator.py], lines 252-265: the
    insights handed to the idea synthesizer. *)
Definition matches_hint (topic_hint : string) (insight : topic_data) : bool :=
  PyStr.contains (PyStr.lower topic_hint) (PyStr.lower (get (topic insight) ""))
  || PyStr.contains (PyStr.lower topic_hint) (PyStr.lower (get (context insight) "")).

Definition picks (topic_hint : option string) (insights : list topic_data)
    : list topic_data :=
  match topic_hint with
  | Some hint =>
      if (0 <? String.length hint)%nat then
        let filtered_insights := filter (λ i, matches_hint hint i = true) insights in
        match filtered_insights with
        | [] => take 3 insights
        | _ => take 3 filtered_insights
        end
      else take 5 insights
  | None => take 5 insights
  end.

End Callers.

(** ** The stages on dict objects

    The stages of the pipeline as they act on objects: a dict lives in a
    store, a list holds references to dicts, [d.get(k)] reads the store
    at a reference and [d[k] = v] updates it there. Every stage takes
    the store and returns it with its result. Topic dicts and idea dicts
    are kept in two stores. A reference that a list holds always points
    to a dict; the functions skip one that does not, to be total. *)

Module Objects.

Definition loc := ResearchAgent.loc.

(** The records a list of references denotes. *)
Definition deref {A} (h : gmap loc A) (ls : list loc) : list A :=
  omap (fun l => h !! l) ls.

(** A dict display [{...}] evaluates to a new object. *)
Definition new_object {A} (h : gmap loc A) (a : A) : gmap loc A * loc :=
  let l := fresh (dom h) in (<[ l := a ]> h, l).

(** *** The deduplicator *)

(** One turn of the loop of [_deduplicate_topics] (lines 480-498) on the
    pair [(unique_topics, seen_topics)]: the record is read, and its
    reference is appended. *)
Definition dedup_step (h : gmap loc topic_data) (st : list loc * gset string) (l : loc)
    : list loc * gset string :=
  match h !! l with
  | Some topic_data =>
      let t := Dedup.topic_key topic_data in
      if Dedup.is_duplicate st.2 t then st else ((st.1 ++ [l])%list, {[ t ]} ∪ st.2)
  | None => st
  end.

Definition _deduplicate_topics (h : gmap loc topic_data) (topics : list loc)
    : gmap loc topic_data * list loc :=
  (h, (foldl (dedup_step h) ([], ∅) topics).1).

(** *** The ranking *)

(** [x['relevance_score']] of the dict at [l]. *)
Definition relevance_at (h : gmap loc topic_data) (l : loc) : Q :=
  from_option Coordinator.relevance_key 0%Q (h !! l).

(** Line 118: [sorted] builds a new list of the same references. *)
Definition final_topics (h : gmap loc topic_data) (scored_topics : list loc)
    : gmap loc topic_data * list loc :=
  (h, take 20 (sorted_desc (relevance_at h) scored_topics)).

(** *** The idea synthesizer *)

(** The inner loop (lines 379-382): each dict that
    [_create_content_idea] returns is a new object, whose reference is
    appended to [content_ideas] (the dict is never empty, so the test
    [if idea:] always passes). *)
Fixpoint ideas_for_formats (t ctx src : string) (formats : list format_type)
    (hi : gmap loc idea) (content_ideas : list loc) : Rand (gmap loc idea * list loc) :=
  match formats with
  | [] => mret (hi, content_ideas)
  | format :: rest =>
      x ← Synthesizer._create_content_idea t ctx src format;
      let '(hi', l) := new_object hi x in
      ideas_for_formats t ctx src rest hi' (content_ideas ++ [l])%list
  end.

(** The outer loop (lines 368-382) over references to topic dicts. *)
Fixpoint collect_ideas (ht : gmap loc topic_data) (trends : list loc)
    (hi : gmap loc idea) (content_ideas : list loc) : Rand (gmap loc idea * list loc) :=
  match trends with
  | [] => mret (hi, content_ideas)
  | trend :: rest =>
      match ht !! trend with
      | Some d =>
          r ← ideas_for_formats (get (topic d) "") (get (context d) "")
                                (get (source d) "") (Synthesizer.formats_for d)
                                hi content_ideas;
          collect_ideas ht rest r.1 r.2
      | None => collect_ideas ht rest hi content_ideas
      end
  end.

(** [x['priority_score']] of the idea dict at [l]. *)
Definition priority_at (hi : gmap loc idea) (l : loc) : Q :=
  from_option Synthesizer.priority_key 0%Q (hi !! l).

(** The loop of lines 388-390 from index [i] on: two keys are written
    into each idea dict of the list. *)
Fixpoint stamp_ideas (stamp iso : nat → string) (i : nat)
    (hi : gmap loc idea) (prioritized_ideas : list loc) : gmap loc idea :=
  match prioritized_ideas with
  | [] => hi
  | l :: rest =>
      let hi' := alter (fun x => set_id x ("idea_" +:+ stamp i +:+ "_" +:+ pretty i) (iso i))
                       l hi in
      stamp_ideas stamp iso (S i) hi' rest
  end.

(** Lines 368-385: the ideas created, sorted and cut to five, in the store
    they were created in. *)
Definition create_and_rank (ht : gmap loc topic_data) (trending_data : list loc)
    (hi : gmap loc idea) : Rand (gmap loc idea * list loc) :=
  r ← collect_ideas ht (take 10 trending_data) hi [];
  mret (r.1, take 5 (sorted_desc (priority_at r.1) r.2)).

(** [generate_content_ideas] on a list of references to topic dicts:
    every element has [get], so the [try] block is not left by an
    exception; the log is left out. *)
Definition generate_content_ideas (stamp iso : nat → string)
    (ht : gmap loc topic_data) (trending_data : list loc) (hi : gmap loc idea)
    : Rand (gmap loc topic_data * gmap loc idea * list loc) :=
  r ← create_and_rank ht trending_data hi;
  mret (ht, stamp_ideas stamp iso 0 r.1 r.2, r.2).

End Objects.

(** ** The specification's wording, where it differs from the code *)

Module Spec.

(** The score as the specification writes it, from the candidate's
    [raw_score]: [min((raw_score + keyword_boost) * source_multiplier, 100)]
    rounded to two decimals. *)
Definition spec_relevance_score (d : topic_data) : Q :=
  let t := get (topic d) "" in
  let keyword_boost :=
    (PyNum.truediv (ResearchAgent.keyword_matches t)
                   (length ResearchAgent.craefto_keywords) * 30)%Q in
  PyNum.round2
    (Qmin ((get (raw_score d) 0%Q + keyword_boost)
           * ResearchAgent.multiplier_of (get (source d) "")) 100).

(** The duplicate test as the specification writes it: at least two
    shared words, and a shared fraction of at least 0.6 of either set. *)
Definition spec_significant_overlap (topic_words seen_words : gset string) : bool :=
  let overlap := size (topic_words ∩ seen_words) in
  (2 <=? overlap)%nat &&
  (negb (PyNum.gtb (6 # 10) (PyNum.truediv overlap (size topic_words)))
   || negb (PyNum.gtb (6 # 10) (PyNum.truediv overlap (size seen_words)))).

End Spec.

(** ** Vocabulary of the statements *)

(** What the scorer leaves alone in a record. *)
Definition same_payload (d d' : topic_data) : Prop :=
  topic d' = topic d ∧ source d' = source d ∧ context d' = context d ∧
  content_angle d' = content_angle d ∧ raw_score d' = raw_score d ∧
  post_age_hours d' = post_age_hours d ∧ product_name d' = product_name d ∧
  trend_type d' = trend_type d ∧ category d' = category d.

(** How often a reference occurs in the list handed to the scorer. *)
Definition occurrences (l : ResearchAgent.loc) (topics : list ResearchAgent.loc) : nat :=
  length (filter (λ l', l' = l) topics).

(** The score a record has in the store after the scorer ran. *)
Definition scored_at (h : gmap ResearchAgent.loc topic_data)
    (topics : list ResearchAgent.loc) (l : ResearchAgent.loc) : option Q :=
  (ResearchAgent._calculate_relevance_scores h topics).1 !! l ≫= relevance_score.

(** [ys] is a run of records each kept by the deduplicator's loop started
    in state [st]. *)
Fixpoint kept_from (st : list topic_data * gset string) (ys : list topic_data) : Prop :=
  match ys with
  | [] => True
  | y :: ys' =>
      Dedup.is_duplicate st.2 (Dedup.topic_key y) = false
      ∧ kept_from (Dedup.dedup_step st y) ys'
  end.

(** The duplicate test of the code on two lowercased topics, as a
    proposition: at least two shared words, and a shared fraction
    strictly above 0.6 of either word set. *)
Definition near_duplicate (t seen_topic : string) : Prop :=
  let overlap := size (Dedup.word_set t ∩ Dedup.word_set seen_topic) in
  (2 ≤ overlap)%nat ∧
  ((6 # 10 < PyNum.truediv overlap (size (Dedup.word_set t)))%Q
   ∨ (6 # 10 < PyNum.truediv overlap (size (Dedup.word_set seen_topic)))%Q).

#[global] Instance Qeq_decision (x y : Q) : Decision (x == y)%Q := Qeq_dec x y.

#[global] Instance Q_eq_decision : EqDecision Q.
Proof. solve_decision. Defined.

Section SortedDescVocabulary.
Context {A : Type} (key : A → Q).

(** The record's key is [k]. *)
Definition has_key (k : Q) (x : A) : Prop := (key x == k)%Q.

#[global] Instance has_key_decision k x : Decision (has_key k x) := Qeq_dec (key x) k.

(** [l'] holds the records of [l], those with equal keys in the order they
    have in [l]. *)
Definition stable_rearrangement (l l' : list A) : Prop :=
  l' ≡ₚ l ∧ ∀ k, filter (has_key k) l' = filter (has_key k) l.

(** Keys never increase along the list. *)
Definition descending (l : list A) : Prop :=
  StronglySorted (λ x y, (key y <= key x)%Q) l.

(** No two records of [l] have the same key. *)
Definition distinct_keys (l : list A) : Prop :=
  NoDup ((λ x, Qred (key x)) <$> l).

End SortedDescVocabulary.

(** The candidates of the tasks that returned, in task order. *)
Definition returned_topics (tasks : list (outcome (list topic_data))) : list topic_data :=
  concat ((λ task, match task with Return l => l | Raise _ => [] end) <$> tasks).

(** An idea made from the trend [d], before it is given an id. *)
Definition from_trend (d : topic_data) (x : idea) : Prop :=
  idea_topic x = get (topic d) "" ∧
  idea_source_trend x = get (source d) "" ∧
  idea_context x = PyStr.slice_to 200 (get (context d) "") ∧
  idea_id x = None.

(** The forum candidate [d] was built from [post], read at time [now]. *)
Definition built_from_post (now : Q) (post : Adapters.reddit_post) (d : topic_data) : Prop :=
  let title := get (Adapters.post_title post) "" in
  let score := get (Adapters.post_score post) 0%Q in
  get (Adapters.post_stickied post) false = false ∧
  ((now - get (Adapters.post_created_utc post) 0) / 3600 <= 48)%Q ∧
  topic d = Some (Normalizer._extract_topic_from_text title) ∧
  (3 < String.length (Normalizer._extract_topic_from_text title))%nat ∧
  source d = Some "reddit" ∧
  raw_score d = Some score ∧
  relevance_score d = Some (Qmin (score / 10) 100).

(** A word as [split()] returns it: not empty, without whitespace. *)
Definition is_word (w : string) : Prop :=
  w ≠ "" ∧ Forall (λ c, PyStr.isspace c = false) (list_ascii_of_string w).

(** Two strings with whitespace at the same positions. *)
Fixpoint same_shape (s s' : string) : Prop :=
  match s, s' with
  | EmptyString, EmptyString => True
  | String c r, String c' r' => PyStr.isspace c = PyStr.isspace c' ∧ same_shape r r'
  | _, _ => False
  end.

(** The string has no character [c]. *)
Definition without_char (c : ascii) (s : string) : Prop :=
  Forall (λ x, x ≠ c) (list_ascii_of_string s).

(** The window [words[i:i+3]] of the normalizer contains a tech keyword. *)
Definition tech_window (words : list string) (i : nat) : Prop :=
  PyStr.any_in Normalizer.tech_keywords (PyStr.join " " (take 3 (drop i words))) = true.

(** The product-launch adapter takes the product element [card]: it has a
    name and a description, and more than 0.3 of the SaaS keywords occur
    in them. *)
Definition product_taken (card : Adapters.product_card) : bool :=
  match Adapters.name_elem card, Adapters.desc_elem card with
  | Some name_text, Some desc_text =>
      PyNum.gtb (Adapters._calculate_saas_relevance
                   (PyStr.lower (PyStr.strip name_text +:+ " " +:+ PyStr.strip desc_text)))
                (3 # 10)
  | _, _ => false
  end.

(** The product-launch candidate [d] was built from the product element
    [card]. *)
Definition built_from_product (card : Adapters.product_card) (d : topic_data) : Prop :=
  ∃ name_text desc_text,
    Adapters.name_elem card = Some name_text ∧
    Adapters.desc_elem card = Some desc_text ∧
    let name := PyStr.strip name_text in
    let description := PyStr.strip desc_text in
    let combined_text := PyStr.lower (name +:+ " " +:+ description) in
    let extracted := Normalizer._extract_topic_from_text (name +:+ ": " +:+ description) in
    topic d = Some (if decide (extracted = "") then name else extracted) ∧
    relevance_score d = Some (Adapters._calculate_saas_relevance combined_text * 100)%Q ∧
    source d = Some "producthunt" ∧
    context d = Some (name +:+ ": " +:+ description) ∧
    product_name d = Some name ∧
    raw_score d = None.

(** [ls] are references to the records [xs] of the store [h]. *)
Definition points_to {A} (h : gmap Objects.loc A) (ls : list Objects.loc) (xs : list A) : Prop :=
  Forall2 (λ l x, h !! l = Some x) ls xs.

(** The ideas [xs] were created as new objects at [refs], on top of the
    store [hi0], and have not been written to since. *)
Definition created (hi0 hi : gmap Objects.loc idea) (refs : list Objects.loc) (xs : list idea) : Prop :=
  hi0 ⊆ hi ∧ points_to hi refs xs ∧ NoDup refs ∧ Forall (λ l, l ∉ dom hi0) refs ∧
  Forall (λ x, idea_id x = None ∧ idea_generated_at x = None) xs.

(** Every key of the list is kept by the deduplicator's loop started with
    the seen set [seen]. *)
Fixpoint keys_all_kept (seen : gset string) (keys : list string) : bool :=
  match keys with
  | [] => true
  | k :: keys' => negb (Dedup.is_duplicate seen k) && keys_all_kept ({[ k ]} ∪ seen) keys'
  end.

(** * Facts *)

Local Open Scope list_scope.

(** ** Rounding *)

Module PyNumFacts.
Import PyNum.
Local Open Scope Q_scope.

Lemma gtb_lt x y : gtb x y = true ↔ y < x.
Proof.
  unfold gtb. rewrite Qgt_alt. destruct (Qcompare x y); split; congruence.
Qed.

Lemma gtb_le x y : gtb x y = false ↔ x <= y.
Proof.
  unfold gtb. rewrite Qle_alt. destruct (Qcompare x y); split; congruence.
Qed.

Lemma round_half_even_floor x :
  (Qfloor x <= round_half_even x <= Qfloor x + 1)%Z.
Proof.
  unfold round_half_even.
  destruct (Qcompare _ _); [destruct (Z.even _) | |]; lia.
Qed.

Lemma round_half_even_mono x y : x <= y → (round_half_even x <= round_half_even y)%Z.
Proof.
  intros Hxy.
  pose proof (Qfloor_resp_le _ _ Hxy) as Hf.
  destruct (Z.eq_dec (Qfloor x) (Qfloor y)) as [Heq | Hne].
  - unfold round_half_even. rewrite <- Heq.
    assert (Hr : x - inject_Z (Qfloor x) <= y - inject_Z (Qfloor x)).
    { apply Qplus_le_l with (z := inject_Z (Qfloor x)). ring_simplify. exact Hxy. }
    set (a := x - inject_Z (Qfloor x)) in *. set (b := y - inject_Z (Qfloor x)) in *.
    destruct (Qcompare_spec a (1 # 2)) as [Hx | Hx | Hx];
    destruct (Qcompare_spec b (1 # 2)) as [Hy | Hy | Hy];
      try (destruct (Z.even (Qfloor x))); try lia; exfalso;
      clearbody a b; destruct a as [an ad], b as [bn bd];
      unfold Qle, Qlt, Qeq in *; simpl in *; nia.
  - pose proof (round_half_even_floor x). pose proof (round_half_even_floor y). lia.
Qed.

Lemma round_half_even_Z z : round_half_even (inject_Z z) = z.
Proof.
  unfold round_half_even. rewrite Qfloor_Z.
  assert (E : inject_Z z - inject_Z z == 0) by ring.
  destruct (Qcompare_spec (inject_Z z - inject_Z z) (1 # 2)) as [H | H | H];
    [exfalso | done | exfalso]; revert H; rewrite E; compute; discriminate.
Qed.

Lemma round_half_even_comp x y : x == y → round_half_even x = round_half_even y.
Proof.
  intros H. unfold round_half_even. rewrite (Qfloor_comp _ _ H).
  by rewrite H.
Qed.

Lemma round2_comp x y : x == y → round2 x = round2 y.
Proof.
  intros H. unfold round2. apply Qred_complete.
  rewrite (round_half_even_comp (x * 100) (y * 100)); [reflexivity |].
  by rewrite H.
Qed.

Lemma round2_mono x y : x <= y → round2 x <= round2 y.
Proof.
  intros H. unfold round2. rewrite !Qred_correct.
  apply Qmult_le_compat_r; [| done].
  rewrite <- Zle_Qle. apply round_half_even_mono.
  apply Qmult_le_compat_r; [exact H | done].
Qed.

Lemma round2_hundredths z : round2 (inject_Z z / 100) == inject_Z z / 100.
Proof.
  unfold round2. rewrite Qred_correct.
  rewrite (round_half_even_comp _ (inject_Z z)).
  - by rewrite round_half_even_Z.
  - field.
Qed.

Lemma round2_bounds x a b :
  inject_Z a / 100 <= x → x <= inject_Z b / 100 →
  inject_Z a / 100 <= round2 x <= inject_Z b / 100.
Proof.
  intros Ha Hb. split.
  - rewrite <- (round2_hundredths a). by apply round2_mono.
  - rewrite <- (round2_hundredths b). by apply round2_mono.
Qed.

Lemma round2_range x : 0 <= x → x <= 100 → 0 <= round2 x <= 100.
Proof.
  intros H0 H1.
  assert (E0 : inject_Z 0 / 100 == 0) by reflexivity.
  assert (E1 : inject_Z 10000 / 100 == 100) by reflexivity.
  destruct (round2_bounds x 0 10000) as [Ha Hb].
  - by rewrite E0.
  - by rewrite E1.
  - rewrite E0 in Ha. rewrite E1 in Hb. by split.
Qed.

Lemma pow2_pos e : 0 < 2 ^ e.
Proof. by apply Qpower_0_lt. Qed.

Lemma pow2_le a b : (a <= b)%Z → 2 ^ a <= 2 ^ b.
Proof. intros H. by apply Qpower_le_compat_l. Qed.

Lemma pow2_Z n : (0 <= n)%Z → inject_Z (2 ^ n) == 2 ^ n.
Proof. intros H. by rewrite Zpower_Qpower. Qed.

Lemma ilog2_spec x : 0 < x → 2 ^ ilog2 x <= x ∧ x < 2 ^ (ilog2 x + 1).
Proof.
  intros Hx. unfold ilog2.
  destruct x as [n d]. simpl Qnum. simpl Qden.
  assert (Hn : (0 < n)%Z) by (unfold Qlt in Hx; simpl in Hx; lia).
  set (ln := Z.log2 n). set (ld := Z.log2 (Z.pos d)).
  pose proof (Z.log2_spec n Hn) as [Hn1 Hn2]. fold ln in Hn1, Hn2.
  pose proof (Z.log2_spec (Z.pos d) ltac:(lia)) as [Hd1 Hd2]. fold ld in Hd1, Hd2.
  pose proof (Z.log2_nonneg n) as Hln. fold ln in Hln.
  pose proof (Z.log2_nonneg (Z.pos d)) as Hld. fold ld in Hld.
  assert (En : n # d == inject_Z n / inject_Z (Z.pos d)) by apply Qmake_Qdiv.
  assert (Hdpos : 0 < inject_Z (Z.pos d)) by (rewrite <- (Zlt_Qlt 0); lia).
  assert (Qn1 : 2 ^ ln <= inject_Z n) by (rewrite <- pow2_Z, <- Zle_Qle by done; exact Hn1).
  assert (Qn2 : inject_Z n < 2 ^ (ln + 1)).
  { rewrite <- pow2_Z, <- Zlt_Qlt by lia. replace (ln + 1)%Z with (Z.succ ln) by lia. exact Hn2. }
  assert (Qd1 : 2 ^ ld <= inject_Z (Z.pos d)) by (rewrite <- pow2_Z, <- Zle_Qle by done; exact Hd1).
  assert (Qd2 : inject_Z (Z.pos d) < 2 ^ (ld + 1)).
  { rewrite <- pow2_Z, <- Zlt_Qlt by lia. replace (ld + 1)%Z with (Z.succ ld) by lia. exact Hd2. }
  destruct (Qle_bool (2 ^ (ln - ld)) (n # d)) eqn:E.
  - apply Qle_bool_iff in E. split; [exact E |].
    rewrite En. apply Qlt_shift_div_r; [exact Hdpos |].
    replace (ln - ld + 1)%Z with ((ln + 1) - ld)%Z by lia.
    rewrite Qpower_minus by discriminate.
    eapply Qlt_le_trans; [exact Qn2 |].
    assert (E2 : 2 ^ (ln + 1) == 2 ^ (ln + 1) / 2 ^ ld * 2 ^ ld).
    { field. apply Qpower_not_0. discriminate. }
    rewrite E2 at 1. apply Qmult_le_l; [| exact Qd1].
    apply Qlt_shift_div_l; [apply pow2_pos |]. rewrite Qmult_0_l. apply pow2_pos.
  - assert (Hlt : n # d < 2 ^ (ln - ld)).
    { apply Qnot_le_lt. intros H. apply Qle_bool_iff in H. congruence. }
    split.
    + rewrite En. apply Qle_shift_div_l; [exact Hdpos |].
      replace (ln - ld - 1)%Z with (ln - (ld + 1))%Z by lia.
      rewrite Qpower_minus by discriminate.
      eapply Qle_trans; [| exact Qn1].
      assert (E2 : 2 ^ ln == 2 ^ ln / 2 ^ (ld + 1) * 2 ^ (ld + 1)).
      { field. apply Qpower_not_0. discriminate. }
      rewrite E2 at 2. apply Qmult_le_l; [| by apply Qlt_le_weak].
      apply Qlt_shift_div_l; [apply pow2_pos |]. rewrite Qmult_0_l. apply pow2_pos.
    + replace (ln - ld - 1 + 1)%Z with (ln - ld)%Z by lia. exact Hlt.
Qed.

Lemma ilog2_mono x y : 0 < x → x <= y → (ilog2 x <= ilog2 y)%Z.
Proof.
  intros Hx Hxy.
  assert (Hy : 0 < y) by (eapply Qlt_le_trans; eauto).
  destruct (ilog2_spec x Hx) as [Hx1 _]. destruct (ilog2_spec y Hy) as [_ Hy2].
  destruct (Z.le_gt_cases (ilog2 x) (ilog2 y)) as [H | H]; [exact H | exfalso].
  assert (Hp : 2 ^ (ilog2 y + 1) <= 2 ^ ilog2 x) by (apply pow2_le; lia).
  apply (Qlt_irrefl y).
  eapply Qlt_le_trans; [exact Hy2 |]. eapply Qle_trans; [exact Hp |].
  eapply Qle_trans; [exact Hx1 | exact Hxy].
Qed.

Lemma fl_pos_unfold x : fl_pos x = inject_Z (round_half_even (x / 2 ^ ulp_exp x)) * 2 ^ ulp_exp x.
Proof. reflexivity. Qed.

Lemma div_pow2_le x y e : x <= y → x / 2 ^ e <= y / 2 ^ e.
Proof.
  intros H. unfold Qdiv. apply Qmult_le_compat_r; [exact H |].
  apply Qinv_le_0_compat, Qlt_le_weak, pow2_pos.
Qed.

Lemma fl_pos_nonneg x : 0 <= x → 0 <= fl_pos x.
Proof.
  intros Hx. rewrite fl_pos_unfold.
  apply Qmult_le_0_compat; [| apply Qlt_le_weak, pow2_pos].
  change 0 with (inject_Z 0). rewrite <- Zle_Qle.
  rewrite <- (round_half_even_Z 0). apply round_half_even_mono.
  apply Qle_shift_div_l; [apply pow2_pos |].
  change (inject_Z 0) with 0. by rewrite Qmult_0_l.
Qed.

Lemma round_le_pow2 z n : (0 <= n)%Z → z <= 2 ^ n → inject_Z (round_half_even z) <= 2 ^ n.
Proof.
  intros Hn Hz.
  assert (E : 2 ^ n == inject_Z (2 ^ n)) by (symmetry; by apply pow2_Z).
  rewrite E in *. rewrite <- Zle_Qle.
  rewrite <- (round_half_even_Z (2 ^ n)). by apply round_half_even_mono.
Qed.

Lemma round_ge_pow2 z n : (0 <= n)%Z → 2 ^ n <= z → 2 ^ n <= inject_Z (round_half_even z).
Proof.
  intros Hn Hz.
  assert (E : 2 ^ n == inject_Z (2 ^ n)) by (symmetry; by apply pow2_Z).
  rewrite E in *. rewrite <- Zle_Qle.
  rewrite <- (round_half_even_Z (2 ^ n)). by apply round_half_even_mono.
Qed.

(** Below the top of its binade. *)
Lemma fl_pos_upper x : 0 < x → fl_pos x <= 2 ^ (ulp_exp x + 53).
Proof.
  intros Hx. rewrite fl_pos_unfold.
  rewrite Qpower_plus by discriminate. rewrite (Qmult_comm (2 ^ ulp_exp x)).
  apply Qmult_le_compat_r; [| apply Qlt_le_weak, pow2_pos].
  apply round_le_pow2; [lia |].
  apply Qle_shift_div_r; [apply pow2_pos |].
  rewrite <- Qpower_plus by discriminate.
  destruct (ilog2_spec x Hx) as [_ H2]. apply Qlt_le_weak.
  eapply Qlt_le_trans; [exact H2 |]. apply pow2_le. unfold ulp_exp. lia.
Qed.

(** At least the bottom of its binade, for a normal number. *)
Lemma fl_pos_lower x : 0 < x → (-1074 < ulp_exp x)%Z → 2 ^ (ulp_exp x + 52) <= fl_pos x.
Proof.
  intros Hx He. rewrite fl_pos_unfold.
  rewrite Qpower_plus by discriminate. rewrite (Qmult_comm (2 ^ ulp_exp x)).
  apply Qmult_le_compat_r; [| apply Qlt_le_weak, pow2_pos].
  apply round_ge_pow2; [lia |].
  apply Qle_shift_div_l; [apply pow2_pos |].
  rewrite <- Qpower_plus by discriminate.
  destruct (ilog2_spec x Hx) as [H1 _].
  eapply Qle_trans; [| exact H1]. apply pow2_le. unfold ulp_exp in *. lia.
Qed.

Lemma fl_pos_mono x y : 0 < x → x <= y → fl_pos x <= fl_pos y.
Proof.
  intros Hx Hxy.
  assert (Hy : 0 < y) by (eapply Qlt_le_trans; eauto).
  pose proof (ilog2_mono x y Hx Hxy) as Hl.
  destruct (Z.eq_dec (ulp_exp x) (ulp_exp y)) as [E | Hne].
  - rewrite !fl_pos_unfold, E.
    apply Qmult_le_compat_r; [| apply Qlt_le_weak, pow2_pos].
    rewrite <- Zle_Qle. apply round_half_even_mono. by apply div_pow2_le.
  - assert (Hlt : (ulp_exp x < ulp_exp y)%Z) by (unfold ulp_exp in *; lia).
    eapply Qle_trans; [apply fl_pos_upper; exact Hx |].
    eapply Qle_trans; [| apply fl_pos_lower; [exact Hy | unfold ulp_exp in *; lia]].
    apply pow2_le. lia.
Qed.

Lemma fl_nonneg x : 0 <= x → 0 <= fl x.
Proof.
  intros Hx. unfold fl. destruct (Qcompare_spec x 0) as [H | H | H].
  - apply Qle_refl.
  - exfalso. apply (Qlt_irrefl 0). eapply Qle_lt_trans; eauto.
  - by apply fl_pos_nonneg.
Qed.

Lemma fl_nonpos x : x <= 0 → fl x <= 0.
Proof.
  intros Hx. unfold fl. destruct (Qcompare_spec x 0) as [H | H | H].
  - apply Qle_refl.
  - assert (H0 : 0 <= fl_pos (- x)).
    { apply fl_pos_nonneg. apply (Qopp_le_compat x 0) in Hx. exact Hx. }
    apply (Qopp_le_compat 0 (fl_pos (- x))) in H0. exact H0.
  - exfalso. apply (Qlt_irrefl 0). eapply Qlt_le_trans; eauto.
Qed.

Lemma fl_mono x y : x <= y → fl x <= fl y.
Proof.
  intros Hxy.
  destruct (Qlt_le_dec 0 x) as [Hx | Hx].
  - assert (Hy : 0 < y) by exact (Qlt_le_trans _ _ _ Hx Hxy).
    unfold fl.
    destruct (Qcompare_spec x 0) as [E | E | _];
      [rewrite E in Hx; by apply Qlt_irrefl in Hx
      | by apply (Qlt_trans _ _ _ Hx), Qlt_irrefl in E |].
    destruct (Qcompare_spec y 0) as [E | E | _];
      [rewrite E in Hy; by apply Qlt_irrefl in Hy
      | by apply (Qlt_trans _ _ _ Hy), Qlt_irrefl in E |].
    by apply fl_pos_mono.
  - destruct (Qlt_le_dec y 0) as [Hy | Hy].
    + assert (Hx' : x < 0) by exact (Qle_lt_trans _ _ _ Hxy Hy).
      unfold fl.
      destruct (Qcompare_spec x 0) as [E | _ | E];
        [rewrite E in Hx'; by apply Qlt_irrefl in Hx' |
        | by apply (Qlt_trans _ _ _ Hx'), Qlt_irrefl in E].
      destruct (Qcompare_spec y 0) as [E | _ | E];
        [rewrite E in Hy; by apply Qlt_irrefl in Hy |
        | by apply (Qlt_trans _ _ _ Hy), Qlt_irrefl in E].
      apply Qopp_le_compat. apply fl_pos_mono.
      * apply (Qopp_lt_compat y 0) in Hy. exact Hy.
      * by apply Qopp_le_compat.
    + eapply Qle_trans; [apply fl_nonpos; exact Hx | apply fl_nonneg; exact Hy].
Qed.

Lemma fl_comp x y : x == y → fl x == fl y.
Proof.
  intros H. apply Qle_antisym; apply fl_mono; rewrite H; apply Qle_refl.
Qed.

Lemma fadd_mono a1 a2 b1 b2 : a1 <= a2 → b1 <= b2 → fadd a1 b1 <= fadd a2 b2.
Proof.
  intros Ha Hb. unfold fadd. apply fl_mono.
  apply Qplus_le_compat; by apply fl_mono.
Qed.

Lemma fadd_nonneg a b : 0 <= a → 0 <= b → 0 <= fadd a b.
Proof.
  intros Ha Hb. unfold fadd. apply fl_nonneg.
  change 0 with (0 + 0). apply Qplus_le_compat; by apply fl_nonneg.
Qed.

Lemma fadd_comp a1 a2 b1 b2 : a1 == a2 → b1 == b2 → fadd a1 b1 == fadd a2 b2.
Proof.
  intros Ha Hb. unfold fadd. apply fl_comp.
  by rewrite (fl_comp a1 a2 Ha), (fl_comp b1 b2 Hb).
Qed.

Lemma fmul_mono_l a1 a2 b : 0 <= b → a1 <= a2 → fmul a1 b <= fmul a2 b.
Proof.
  intros Hb Ha. unfold fmul. apply fl_mono.
  apply Qmult_le_compat_r; [by apply fl_mono | by apply fl_nonneg].
Qed.

Lemma fmul_nonneg a b : 0 <= a → 0 <= b → 0 <= fmul a b.
Proof.
  intros Ha Hb. unfold fmul. apply fl_nonneg.
  apply Qmult_le_0_compat; by apply fl_nonneg.
Qed.

Lemma fmul_comp a1 a2 b1 b2 : a1 == a2 → b1 == b2 → fmul a1 b1 == fmul a2 b2.
Proof.
  intros Ha Hb. unfold fmul. apply fl_comp.
  by rewrite (fl_comp a1 a2 Ha), (fl_comp b1 b2 Hb).
Qed.

Lemma round2_le_100 x : x <= 100 → round2 x <= 100.
Proof.
  intros H. eapply Qle_trans; [apply round2_mono, H |].
  vm_compute. discriminate.
Qed.

End PyNumFacts.

(** ** Exact arithmetic that agrees with binary64 *)

Module Binary64Facts.
Import PyNum.
Local Open Scope Q_scope.

(** The keyword boost (line 510) is exact: a number of sixteenths and
    its product with 30 are binary64 numbers. *)
Lemma boost_binary64 (k : nat) :
  (k ≤ 16)%nat → fmul (truediv k 16) 30 == truediv k 16 * 30.
Proof.
  intros H. do 17 (destruct k as [| k]; [vm_compute; reflexivity |]). lia.
Qed.

(** The priority score of an idea (lines 561-563): the products in
    binary64 round to the same hundredth as the exact products. *)
Lemma priority_score_binary64 (k : nat) (format : format_type) :
  (k ≤ 16)%nat →
  round2 (fmul (fmul (truediv k 16) 100) (Synthesizer.format_priority format))
  = round2 (truediv k 16 * 100 * Synthesizer.format_priority format).
Proof.
  intros H.
  do 17 (destruct k as [| k]; [destruct format; vm_compute; reflexivity |]). lia.
Qed.

(** The score the product-launch adapter stores (line 211) is exact. *)
Lemma saas_score_binary64 (k : nat) :
  (k ≤ 16)%nat → fmul (truediv k 16) 100 == truediv k 16 * 100.
Proof.
  intros H. do 17 (destruct k as [| k]; [vm_compute; reflexivity |]). lia.
Qed.

End Binary64Facts.

(** ** The relevance scorer *)

Module ScorerFacts.
Import ResearchAgent PyNum PyNumFacts.
Local Open Scope Q_scope.

Lemma keyword_matches_le t : (keyword_matches t ≤ length craefto_keywords)%nat.
Proof. unfold keyword_matches. apply length_filter. Qed.

Lemma truediv_le_1 a b : (a ≤ b)%nat → (0 < b)%nat → truediv a b <= 1.
Proof.
  intros Hab Hb. unfold truediv.
  apply Qle_shift_div_r.
  - change 0 with (inject_Z 0). rewrite <- Zlt_Qlt. lia.
  - rewrite Qmult_1_l. rewrite <- Zle_Qle. lia.
Qed.

Lemma truediv_nonneg a b : 0 <= truediv a b.
Proof.
  unfold truediv, Qdiv. apply Qmult_le_0_compat.
  - change 0 with (inject_Z 0). rewrite <- Zle_Qle. lia.
  - apply Qinv_le_0_compat. change 0 with (inject_Z 0). rewrite <- Zle_Qle. lia.
Qed.

(** The cap at [1.0] never applies: there are at most as many matches as
    keywords. *)
Lemma craefto_relevance_fraction t :
  _calculate_craefto_relevance t == truediv (keyword_matches t) (length craefto_keywords).
Proof.
  unfold _calculate_craefto_relevance. apply Q.min_l.
  apply truediv_le_1; [apply keyword_matches_le | simpl; lia].
Qed.

Lemma boost_of_fraction t :
  boost_of t == truediv (keyword_matches t) (length craefto_keywords) * 30.
Proof. unfold boost_of. by rewrite craefto_relevance_fraction. Qed.

Lemma boost_of_nonneg t : 0 <= boost_of t.
Proof.
  rewrite boost_of_fraction. apply Qmult_le_0_compat; [apply truediv_nonneg | done].
Qed.

Lemma multiplier_of_cases src :
  multiplier_of src =
    if decide (src = "reddit") then 12 # 10
    else if decide (src = "producthunt") then 11 # 10
    else if decide (src = "google_trends") then 13 # 10
    else if decide (src = "twitter") then 1 # 1
    else 1.
Proof.
  unfold multiplier_of, source_multipliers. simpl.
  rewrite !lookup_insert, lookup_empty.
  repeat case_decide; simplify_eq; done.
Qed.

Lemma multiplier_of_pos src : 0 < multiplier_of src.
Proof. rewrite multiplier_of_cases. repeat case_decide; reflexivity. Qed.

Lemma final_score_le_100 b t src : final_score b t src <= 100.
Proof. unfold final_score. apply Q.le_min_r. Qed.

Lemma final_score_nonneg b t src : 0 <= b → 0 <= final_score b t src.
Proof.
  intros Hb. unfold final_score. apply Q.min_glb; [| done].
  apply fmul_nonneg.
  - apply fadd_nonneg; [done | apply boost_of_nonneg].
  - apply Qlt_le_weak, multiplier_of_pos.
Qed.

Lemma final_score_mono b1 b2 t1 t2 src :
  b1 <= b2 → boost_of t1 <= boost_of t2 →
  final_score b1 t1 src <= final_score b2 t2 src.
Proof.
  intros Hb Hk. unfold final_score.
  apply Q.min_le_compat_r.
  apply fmul_mono_l; [apply Qlt_le_weak, multiplier_of_pos |].
  by apply fadd_mono.
Qed.

Lemma same_payload_score d : same_payload d (score_topic d).
Proof. repeat split. Qed.

Lemma same_payload_iter n d : same_payload d (Nat.iter n score_topic d).
Proof.
  induction n as [| n IH]; [repeat split |].
  simpl. destruct IH as (? & ? & ? & ? & ? & ? & ? & ? & ?).
  repeat split; simpl; done.
Qed.

Lemma occurrences_notin l topics : l ∉ topics → occurrences l topics = 0%nat.
Proof.
  unfold occurrences. induction topics as [| a topics IH]; intros Hin; [done |].
  apply not_elem_of_cons in Hin as [Hne Hin].
  rewrite filter_cons, decide_False by congruence. by apply IH.
Qed.

Lemma occurrences_pos l topics : l ∈ topics → (0 < occurrences l topics)%nat.
Proof.
  unfold occurrences. induction topics as [| a topics IH]; intros Hin.
  - by apply elem_of_nil in Hin.
  - rewrite filter_cons. case_decide as Ha; simpl; [lia |].
    apply elem_of_cons in Hin as [-> | Hin]; [done | by apply IH].
Qed.

Lemma occurrences_NoDup l topics :
  NoDup topics → l ∈ topics → occurrences l topics = 1%nat.
Proof.
  induction 1 as [| a topics Ha Hnd IH]; intros Hin.
  - by apply elem_of_nil in Hin.
  - unfold occurrences. rewrite filter_cons. case_decide as Hal; subst; simpl.
    + f_equal. by apply occurrences_notin.
    + apply elem_of_cons in Hin as [-> | Hin]; [done | by apply IH].
Qed.

(** The store after the loop: a record referenced [n] times has been
    scored [n] times. *)
Lemma scores_lookup (topics : list loc) (h : gmap loc topic_data) (l : loc) :
  (_calculate_relevance_scores h topics).1 !! l
  = Nat.iter (occurrences l topics) score_topic <$> h !! l.
Proof.
  unfold _calculate_relevance_scores, occurrences. simpl.
  revert h. induction topics as [| a topics IH]; intros h; simpl.
  - by destruct (h !! l).
  - rewrite IH. rewrite filter_cons. rewrite lookup_alter.
    case_decide as Ha; subst; simpl.
    + destruct (h !! l) as [d |]; simpl; [| done].
      f_equal. symmetry. apply (Nat.iter_succ_r _ score_topic d).
    + done.
Qed.

Lemma scores_lookup_once (topics : list loc) (h : gmap loc topic_data) (l : loc) :
  NoDup topics → l ∈ topics →
  (_calculate_relevance_scores h topics).1 !! l = score_topic <$> h !! l.
Proof.
  intros Hnd Hin. rewrite scores_lookup, occurrences_NoDup by done.
  by destruct (h !! l).
Qed.

(** On records held by distinct objects the loop is a map. *)
Lemma scores_of_distinct_objects (topics : list loc) (h : gmap loc topic_data) :
  NoDup topics →
  let '(h', out) := _calculate_relevance_scores h topics in
  deref h' out = Coordinator.scored_values (deref h topics).
Proof.
  intros Hnd.
  pose proof (scores_lookup_once topics h) as Hl.
  destruct (_calculate_relevance_scores h topics) as [h' out] eqn:E.
  assert (out = topics) as -> by (by inversion E).
  simpl in Hl. specialize (fun l => Hl l Hnd).
  unfold deref, Coordinator.scored_values.
  clear E Hnd. induction topics as [| a topics IH]; [done |].
  simpl. rewrite Hl by (apply elem_of_cons; by left).
  destruct (h !! a) as [d |]; simpl.
  - f_equal. apply IH. intros l Hin. apply Hl. by (apply elem_of_cons; right).
  - apply IH. intros l Hin. apply Hl. by (apply elem_of_cons; right).
Qed.

End ScorerFacts.

(** ** The deduplicator *)

Module DedupFacts.
Import Dedup PyNumFacts.

Lemma significant_overlap_spec t s :
  significant_overlap (word_set t) (word_set s) = true ↔ near_duplicate t s.
Proof.
  unfold significant_overlap, near_duplicate. cbv zeta.
  rewrite andb_true_iff, orb_true_iff, !gtb_lt, Nat.leb_le. done.
Qed.

Lemma is_duplicate_spec seen t :
  is_duplicate seen t = true ↔ ∃ s, s ∈ seen ∧ near_duplicate t s.
Proof.
  unfold is_duplicate. rewrite existsb_exists. split.
  - intros (s & Hin & Hs). exists s. split.
    + apply elem_of_elements. by apply list_elem_of_In.
    + by apply significant_overlap_spec.
  - intros (s & Hin & Hs). exists s. split.
    + apply list_elem_of_In. by apply elem_of_elements.
    + by apply significant_overlap_spec.
Qed.

Lemma dedup_step_drop st d :
  is_duplicate st.2 (topic_key d) = true → dedup_step st d = st.
Proof. intros H. unfold dedup_step. fold (topic_key d). by rewrite H. Qed.

Lemma dedup_step_keep st d :
  is_duplicate st.2 (topic_key d) = false →
  dedup_step st d = (st.1 ++ [d], {[ topic_key d ]} ∪ st.2).
Proof. intros H. unfold dedup_step. fold (topic_key d). by rewrite H. Qed.

Lemma dedup_state_snoc pre x :
  dedup_state (pre ++ [x]) = dedup_step (dedup_state pre) x.
Proof. unfold dedup_state. by rewrite foldl_app. Qed.

(** The seen set is the set of the kept topics. *)
Lemma seen_invariant xs st :
  st.2 = list_to_set (topic_key <$> st.1) →
  (foldl dedup_step st xs).2 = list_to_set (topic_key <$> (foldl dedup_step st xs).1).
Proof.
  revert st. induction xs as [| x xs IH]; intros st Hst; [done |].
  simpl. apply IH.
  destruct (is_duplicate st.2 (topic_key x)) eqn:E.
  - by rewrite dedup_step_drop.
  - rewrite dedup_step_keep by done. simpl.
    rewrite fmap_app, list_to_set_app_L, Hst. simpl.
    rewrite (right_id_L ∅ (∪)). apply (comm_L (∪)).
Qed.

Lemma foldl_kept xs st :
  ∃ ys, (foldl dedup_step st xs).1 = st.1 ++ ys ∧ kept_from st ys.
Proof.
  revert st. induction xs as [| x xs IH]; intros st; simpl.
  - exists []. by rewrite app_nil_r.
  - destruct (is_duplicate st.2 (topic_key x)) eqn:E.
    + rewrite dedup_step_drop by done. apply IH.
    + destruct (IH (dedup_step st x)) as (ys & Hys & Hk).
      exists (x :: ys). split; [| done].
      rewrite Hys, dedup_step_keep by done. simpl. by rewrite <- app_assoc.
Qed.

Lemma kept_from_foldl ys st :
  kept_from st ys → (foldl dedup_step st ys).1 = st.1 ++ ys.
Proof.
  revert st. induction ys as [| y ys IH]; intros st Hk; simpl.
  - by rewrite app_nil_r.
  - destruct Hk as [Hy Hk]. rewrite (IH _ Hk).
    rewrite dedup_step_keep by done. simpl. by rewrite <- app_assoc.
Qed.

Lemma dedup_sublist xs st :
  ∃ ys, (foldl dedup_step st xs).1 = st.1 ++ ys ∧ ys `sublist_of` xs.
Proof.
  revert st. induction xs as [| x xs IH]; intros st; simpl.
  - exists []. by rewrite app_nil_r.
  - destruct (IH (dedup_step st x)) as (ys & Hys & Hsub).
    destruct (is_duplicate st.2 (topic_key x)) eqn:E.
    + rewrite dedup_step_drop in Hys |- * by done.
      exists ys. split; [done | by apply sublist_cons].
    + rewrite dedup_step_keep in Hys |- * by done. simpl in Hys.
      exists (x :: ys). split; [by rewrite Hys, <- app_assoc | by apply sublist_skip].
Qed.

Lemma deduplicate_sublist xs : _deduplicate_topics xs `sublist_of` xs.
Proof.
  destruct (dedup_sublist xs ([], ∅)) as (ys & Hys & Hsub).
  unfold _deduplicate_topics, dedup_state. by rewrite Hys.
Qed.

End DedupFacts.

(** ** Stable descending sort *)

Section SortedDescFacts.
Context {A : Type} (key : A → Q).
Import PyNumFacts.

Lemma insert_desc_perm x l : insert_desc key x l ≡ₚ x :: l.
Proof.
  induction l as [| y l IH]; simpl; [done |].
  destruct (PyNum.gtb (key y) (key x)); [| done].
  rewrite IH. apply Permutation_swap.
Qed.

Lemma sorted_desc_perm l : sorted_desc key l ≡ₚ l.
Proof.
  induction l as [| x l IH]; simpl; [done |].
  by rewrite insert_desc_perm, IH.
Qed.

Lemma insert_desc_descending x l :
  descending key l → descending key (insert_desc key x l).
Proof.
  unfold descending. induction 1 as [| y l Hs IH Hy]; simpl.
  - repeat constructor.
  - destruct (PyNum.gtb (key y) (key x)) eqn:E.
    + apply gtb_lt in E. constructor; [done |].
      rewrite insert_desc_perm. constructor; [by apply Qlt_le_weak | done].
    + apply gtb_le in E. constructor; [by constructor |].
      constructor; [done |].
      eapply Forall_impl; [exact Hy |]. intros z Hz. simpl in Hz.
      by apply Qle_trans with (key y).
Qed.

Lemma sorted_desc_descending l : descending key (sorted_desc key l).
Proof.
  induction l as [| x l IH]; simpl; [constructor |].
  by apply insert_desc_descending.
Qed.

Lemma insert_desc_filter k x l :
  filter (has_key key k) (insert_desc key x l) = filter (has_key key k) (x :: l).
Proof.
  induction l as [| y l IH]; simpl; [done |].
  destruct (PyNum.gtb (key y) (key x)) eqn:E; [| done].
  apply gtb_lt in E.
  rewrite (filter_cons _ y), IH, !filter_cons.
  destruct (decide (has_key key k y)) as [Hy | Hy];
    destruct (decide (has_key key k x)) as [Hx | Hx]; try done.
  exfalso. unfold has_key in *. rewrite Hy, Hx in E. by apply Qlt_irrefl in E.
Qed.

Lemma sorted_desc_filter k l :
  filter (has_key key k) (sorted_desc key l) = filter (has_key key k) l.
Proof.
  induction l as [| x l IH]; simpl; [done |].
  by rewrite insert_desc_filter, !filter_cons, IH.
Qed.

Lemma sorted_desc_stable l : stable_rearrangement key l (sorted_desc key l).
Proof. split; [apply sorted_desc_perm | intros k; apply sorted_desc_filter]. Qed.

Lemma descending_app_le l1 l2 x y :
  descending key (l1 ++ l2) → x ∈ l1 → y ∈ l2 → (key y <= key x)%Q.
Proof.
  unfold descending. induction l1 as [| a l1 IH]; simpl; intros Hs Hx Hy.
  - by apply elem_of_nil in Hx.
  - apply StronglySorted_inv in Hs as [Hs Ha].
    apply elem_of_cons in Hx as [-> | Hx]; [| by apply IH].
    rewrite Forall_forall in Ha. apply Ha. apply elem_of_app. by right.
Qed.

Lemma distinct_keys_perm l l' : l ≡ₚ l' → distinct_keys key l → distinct_keys key l'.
Proof. unfold distinct_keys. intros Hp. by rewrite Hp. Qed.

Lemma distinct_keys_app_lt l1 l2 x y :
  descending key (l1 ++ l2) → distinct_keys key (l1 ++ l2) →
  x ∈ l1 → y ∈ l2 → (key y < key x)%Q.
Proof.
  intros Hs Hd Hx Hy.
  pose proof (descending_app_le _ _ _ _ Hs Hx Hy) as Hle.
  apply Qle_lt_or_eq in Hle as [Hlt | Heq]; [done |]. exfalso.
  unfold distinct_keys in Hd. rewrite fmap_app in Hd.
  apply NoDup_app in Hd as (_ & Hdisj & _).
  apply (Hdisj (Qred (key x))).
  - apply list_elem_of_fmap. by exists x.
  - apply list_elem_of_fmap. exists y. split; [| done]. by apply Qred_complete.
Qed.

End SortedDescFacts.

(** ** The idea synthesizer *)

Module SynthesizerFacts.
Import Synthesizer PyNumFacts.

#[local] Arguments PyStr.slice_to : simpl never.

Ltac run_rand :=
  unfold mbind, Rand_bind, mret, Rand_ret;
  repeat match goal with
         | |- context [let '(_, _) := ?c in _] => destruct c
         end.

Lemma create_content_idea_fields t ctx src format draws :
  let x := (_create_content_idea t ctx src format draws).1 in
  idea_format x = format ∧ idea_topic x = t ∧ idea_source_trend x = src ∧
  idea_context x = PyStr.slice_to 200 ctx ∧ idea_id x = None.
Proof. unfold _create_content_idea. run_rand. simpl. done. Qed.

Lemma ideas_for_formats_fields t ctx src formats draws :
  let xs := (ideas_for_formats t ctx src formats draws).1 in
  idea_format <$> xs = formats ∧
  Forall (λ x, idea_topic x = t ∧ idea_source_trend x = src ∧
               idea_context x = PyStr.slice_to 200 ctx ∧ idea_id x = None) xs.
Proof.
  revert draws. induction formats as [| format formats IH]; intros draws; simpl.
  - unfold mret, Rand_ret. simpl. done.
  - unfold mbind, Rand_bind, mret, Rand_ret.
    pose proof (create_content_idea_fields t ctx src format draws) as Hx.
    destruct (_create_content_idea t ctx src format draws) as [x draws1].
    specialize (IH draws1).
    destruct (ideas_for_formats t ctx src formats draws1) as [xs draws2].
    simpl in *. destruct Hx as (Hf & Hx). destruct IH as (Hfs & Hxs).
    split; [by f_equal | by constructor].
Qed.

Lemma formats_for_high d :
  (70 < get (relevance_score d) 0)%Q → formats_for d = [blog; social; email].
Proof. intros H. unfold formats_for. apply gtb_lt in H. by rewrite H. Qed.

Lemma formats_for_low d :
  (get (relevance_score d) 0 <= 70)%Q → formats_for d = [blog].
Proof. intros H. unfold formats_for. apply gtb_le in H. by rewrite H. Qed.

(** The loop over dicts never raises and appends one group per trend. *)
Lemma collect_ideas_dicts (ds : list topic_data) (content_ideas : list idea) draws :
  ∃ groups draws',
    collect_ideas (PyDict <$> ds) content_ideas draws
    = (Return (content_ideas ++ concat groups), draws') ∧
    Forall2 (λ d g, idea_format <$> g = formats_for d ∧ Forall (from_trend d) g) ds groups.
Proof.
  revert content_ideas draws.
  induction ds as [| d ds IH]; intros content_ideas draws; simpl.
  - exists [], draws. simpl. by rewrite app_nil_r.
  - unfold mbind, Rand_bind.
    pose proof (ideas_for_formats_fields (get (topic d) "") (get (context d) "")
                  (get (source d) "") (formats_for d) draws) as Hg.
    destruct (ideas_for_formats _ _ _ _ draws) as [g draws1]. simpl in Hg.
    destruct (IH (content_ideas ++ g) draws1) as (groups & draws' & Hr & Hall).
    exists (g :: groups), draws'. split.
    + etrans; [apply Hr |]. simpl. by rewrite <- app_assoc.
    + constructor; [| done]. destruct Hg as [Hf Hx]. split; [done |].
      eapply Forall_impl; [exact Hx |]. intros x (? & ? & ? & ?). by repeat split.
Qed.

(** The loop stops at the first element that is not a dict. *)
Lemma collect_ideas_raises (ds : list topic_data) (bad : pyobj) (rest : list pyobj) e
    (content_ideas : list idea) draws :
  as_dict bad = Raise e →
  ∃ draws', collect_ideas ((PyDict <$> ds) ++ bad :: rest) content_ideas draws
            = (Raise e, draws').
Proof.
  intros Hbad. revert content_ideas draws.
  induction ds as [| d ds IH]; intros content_ideas draws; simpl.
  - rewrite Hbad. by exists draws.
  - unfold mbind, Rand_bind.
    destruct (ideas_for_formats _ _ _ _ draws) as [g draws1]. apply IH.
Qed.

(** So the [try] block is left by an exception whenever one of the
    first ten elements of [trending_data] is not a dict. *)
Lemma collect_ideas_raises_within_ten (ds : list topic_data) (bad : pyobj)
    (rest : list pyobj) e draws :
  (length ds < 10)%nat → as_dict bad = Raise e →
  ∃ draws', collect_ideas (take 10 ((PyDict <$> ds) ++ bad :: rest)) [] draws
            = (Raise e, draws').
Proof.
  intros Hlen Hbad.
  rewrite take_app, take_ge, length_fmap by (rewrite length_fmap; lia).
  destruct (10 - length ds)%nat as [| m] eqn:E; [lia |].
  simpl take. by apply collect_ideas_raises.
Qed.

Lemma imap_set_id_format (f : nat → idea → idea) (l : list idea) :
  (∀ i x, idea_format (f i x) = idea_format x) →
  idea_format <$> imap f l = idea_format <$> l.
Proof.
  revert f. induction l as [| x l IH]; intros f Hf; simpl; [done |].
  rewrite Hf. f_equal. apply IH. intros i y. apply Hf.
Qed.

Lemma prioritize_formats stamp iso (content_ideas : list idea) :
  (length content_ideas ≤ 5)%nat →
  idea_format <$> prioritize stamp iso content_ideas ≡ₚ idea_format <$> content_ideas.
Proof.
  intros Hlen. unfold prioritize.
  rewrite imap_set_id_format by done.
  rewrite take_ge.
  - by rewrite sorted_desc_perm.
  - by rewrite (sorted_desc_perm priority_key content_ideas).
Qed.

End SynthesizerFacts.

(** ** The scorer on the store *)

Module StoreFacts.
Import ResearchAgent PyNum PyNumFacts ScorerFacts.
Local Open Scope Q_scope.

Lemma score_topic_relevance d :
  relevance_score (score_topic d)
  = Some (round2 (final_score (get (relevance_score d) 0) (get (topic d) "")
                              (get (source d) ""))).
Proof. reflexivity. Qed.

Lemma scored_at_iter h topics l d :
  h !! l = Some d →
  scored_at h topics l = relevance_score (Nat.iter (occurrences l topics) score_topic d).
Proof. intros Hd. unfold scored_at. by rewrite scores_lookup, Hd. Qed.

Lemma scored_at_once h topics l d :
  NoDup topics → l ∈ topics → h !! l = Some d →
  scored_at h topics l
  = Some (round2 (final_score (get (relevance_score d) 0) (get (topic d) "")
                              (get (source d) ""))).
Proof.
  intros Hnd Hin Hd. rewrite (scored_at_iter _ _ _ d Hd).
  by rewrite occurrences_NoDup.
Qed.

Lemma score_topic_range d :
  0 <= get (relevance_score d) 0 →
  ∃ s, relevance_score (score_topic d) = Some s ∧ 0 <= s <= 100.
Proof.
  intros H0. eexists. split; [apply score_topic_relevance |].
  apply round2_range; [by apply final_score_nonneg | apply final_score_le_100].
Qed.

Lemma iter_score_range n d :
  0 <= get (relevance_score d) 0 →
  ∃ s, relevance_score (Nat.iter (S n) score_topic d) = Some s ∧ 0 <= s <= 100.
Proof.
  intros H0. induction n as [| n IH].
  - by apply score_topic_range.
  - destruct IH as (s & Hs & Hs0 & _).
    change (Nat.iter (S (S n)) score_topic d)
      with (score_topic (Nat.iter (S n) score_topic d)).
    apply score_topic_range. by rewrite Hs.
Qed.

Lemma final_score_fraction b t src :
  final_score b t src
  == Qmin (fmul (fadd b (truediv (keyword_matches t) (length craefto_keywords) * 30))
                (multiplier_of src)) 100.
Proof.
  unfold final_score. apply Q.min_compat; [| reflexivity].
  apply fmul_comp; [| reflexivity].
  apply fadd_comp; [reflexivity | apply boost_of_fraction].
Qed.

Lemma iter_score_le_100 n d :
  ∃ s, relevance_score (Nat.iter (S n) score_topic d) = Some s ∧ s <= 100.
Proof.
  change (Nat.iter (S n) score_topic d) with (score_topic (Nat.iter n score_topic d)).
  eexists. split; [apply score_topic_relevance |].
  apply round2_le_100, final_score_le_100.
Qed.

End StoreFacts.

(** ** The coordinator *)

Module CoordinatorFacts.
Import Coordinator.

Lemma collect_from (results : list gathered) (all_topics : list topic_data) :
  foldl (λ all_topics result,
           match result with
           | GException _ => all_topics
           | GList l => all_topics ++ l
           | GOther => all_topics
           end) all_topics results
  = all_topics
    ++ concat ((λ r, match r with GList l => l | _ => [] end) <$> results).
Proof.
  revert all_topics.
  induction results as [| r results IH]; intros all_topics; simpl.
  - by rewrite app_nil_r.
  - rewrite IH. destruct r; simpl; by rewrite ?app_assoc.
Qed.

Lemma collect_returned (tasks : list (outcome (list topic_data))) :
  collect (gather_one <$> tasks) = returned_topics tasks.
Proof.
  unfold collect, returned_topics. rewrite collect_from. simpl.
  rewrite <- list_fmap_compose. f_equal.
  apply list_fmap_ext. intros _ task _. by destruct task.
Qed.

Lemma returned_topics_raise (tasks : list (outcome (list topic_data))) i e :
  returned_topics (<[i := Raise e]> tasks) = returned_topics (<[i := Return []]> tasks).
Proof. unfold returned_topics. by rewrite !list_fmap_insert. Qed.

Lemma final_topics_spec (scored_topics : list topic_data) :
  ∃ rest,
    stable_rearrangement relevance_key scored_topics (final_topics scored_topics ++ rest) ∧
    descending relevance_key (final_topics scored_topics ++ rest) ∧
    length (final_topics scored_topics) = (20 `min` length scored_topics)%nat.
Proof.
  exists (drop 20 (sorted_desc relevance_key scored_topics)).
  unfold final_topics. rewrite take_drop. split; [| split].
  - apply sorted_desc_stable.
  - apply sorted_desc_descending.
  - rewrite length_take. by rewrite (sorted_desc_perm relevance_key scored_topics).
Qed.

Lemma find_trending_topics_returns (tasks : list (outcome (list topic_data))) :
  find_trending_topics tasks
  = Return (final_topics (scored_values (Dedup._deduplicate_topics (returned_topics tasks)))).
Proof. unfold find_trending_topics. by rewrite collect_returned. Qed.

End CoordinatorFacts.

(** ** The stages on dict objects *)

Module ObjectFacts.
Import Objects.

#[local] Arguments PyStr.slice_to : simpl never.

Lemma points_to_deref {A} (h : gmap loc A) ls xs : points_to h ls xs → deref h ls = xs.
Proof.
  induction 1 as [| l x ls xs Hl _ IH]; [done |].
  unfold deref in *. cbn [omap list_omap]. rewrite Hl. by rewrite <- IH.
Qed.

Lemma points_to_allocated {A} (h : gmap loc A) ls :
  Forall (λ l, is_Some (h !! l)) ls → points_to h ls (deref h ls).
Proof.
  induction 1 as [| l ls [x Hl] _ IH]; [constructor |].
  unfold deref in *. cbn [omap list_omap]. rewrite Hl. by constructor.
Qed.

Lemma points_to_app {A} (h : gmap loc A) ls xs ls' xs' :
  points_to h ls xs → points_to h ls' xs' → points_to h (ls ++ ls') (xs ++ xs').
Proof. apply Forall2_app. Qed.

Lemma points_to_mono {A} (h h' : gmap loc A) ls xs :
  h ⊆ h' → points_to h ls xs → points_to h' ls xs.
Proof.
  intros Hsub H. eapply Forall2_impl; [exact H |]. intros l x Hl.
  simpl in *. eapply lookup_weaken; eassumption.
Qed.

(** *** The deduplicator on references *)

Lemma dedup_refs_refines (h : gmap loc topic_data) topics ds :
  points_to h topics ds →
  ∀ st vst, points_to h st.1 vst.1 → st.2 = vst.2 →
    points_to h (foldl (dedup_step h) st topics).1 (foldl Dedup.dedup_step vst ds).1.
Proof.
  induction 1 as [| l d topics ds Hl _ IH]; intros st vst H1 H2; [done |].
  simpl. apply IH.
  - unfold dedup_step, Dedup.dedup_step. rewrite Hl, H2.
    destruct (Dedup.is_duplicate vst.2 (Dedup.topic_key d)); [done |].
    simpl. apply points_to_app; [done |]. by constructor.
  - unfold dedup_step, Dedup.dedup_step. rewrite Hl, H2.
    by destruct (Dedup.is_duplicate vst.2 (Dedup.topic_key d)).
Qed.

Lemma dedup_refs_sublist (h : gmap loc topic_data) topics st :
  ∃ out, (foldl (dedup_step h) st topics).1 = st.1 ++ out ∧ out `sublist_of` topics.
Proof.
  revert st. induction topics as [| l topics IH]; intros st.
  - exists []. by rewrite app_nil_r.
  - simpl. destruct (IH (dedup_step h st l)) as (out & -> & Hsub).
    unfold dedup_step. destruct (h !! l) as [d |].
    + destruct (Dedup.is_duplicate st.2 (Dedup.topic_key d)).
      * exists out. split; [done | by apply sublist_cons].
      * exists (l :: out). simpl. split; [by rewrite <- app_assoc | by apply sublist_skip].
    + exists out. split; [done | by apply sublist_cons].
Qed.

(** *** Sorting references by a key read through the store *)

Lemma insert_desc_related {A B} (R : A → B → Prop) (ka : A → Q) (kb : B → Q) a b la lb :
  (∀ x y, R x y → ka x = kb y) → R a b → Forall2 R la lb →
  Forall2 R (insert_desc ka a la) (insert_desc kb b lb).
Proof.
  intros Hk Hab. induction 1 as [| x y la lb Hxy Hl IH]; simpl.
  - by repeat constructor.
  - rewrite (Hk _ _ Hxy), (Hk _ _ Hab).
    destruct (PyNum.gtb (kb y) (kb b)); by repeat constructor.
Qed.

Lemma sorted_desc_related {A B} (R : A → B → Prop) (ka : A → Q) (kb : B → Q) la lb :
  (∀ x y, R x y → ka x = kb y) → Forall2 R la lb →
  Forall2 R (sorted_desc ka la) (sorted_desc kb lb).
Proof.
  intros Hk. induction 1 as [| x y la lb Hxy Hl IH]; simpl; [constructor |].
  by apply insert_desc_related.
Qed.

Lemma final_topics_refines (h : gmap loc topic_data) scored ds :
  points_to h scored ds →
  points_to h (final_topics h scored).2 (Coordinator.final_topics ds).
Proof.
  intros H. unfold final_topics, Coordinator.final_topics. simpl.
  apply Forall2_take. apply sorted_desc_related; [| exact H].
  intros l d Hl. unfold relevance_at. by rewrite Hl.
Qed.

(** *** The idea synthesizer on references *)

Lemma points_to_dom {A} (h : gmap loc A) ls xs l : points_to h ls xs → l ∈ ls → l ∈ dom h.
Proof.
  intros H Hl. apply (Forall2_Forall_l _ (λ l, l ∈ dom h)) in H.
  - by rewrite Forall_forall in H; apply H.
  - apply Forall_forall. intros x _ l' Hx. by apply elem_of_dom.
Qed.

Lemma create_content_idea_unstamped t ctx src format draws :
  let x := (Synthesizer._create_content_idea t ctx src format draws).1 in
  idea_id x = None ∧ idea_generated_at x = None.
Proof. unfold Synthesizer._create_content_idea. SynthesizerFacts.run_rand. done. Qed.

Lemma created_new_object hi0 hi refs xs x :
  created hi0 hi refs xs → idea_id x = None → idea_generated_at x = None →
  created hi0 (new_object hi x).1 (refs ++ [(new_object hi x).2]) (xs ++ [x]).
Proof.
  intros (Hsub & Hp & Hnd & Hfresh & Hid) Hx1 Hx2. unfold new_object. simpl.
  pose proof (is_fresh (dom hi)) as Hf. set (l := fresh (dom hi)) in *.
  assert (Hnone : hi !! l = None) by (by apply not_elem_of_dom).
  assert (Hsub' : hi ⊆ <[l:=x]> hi) by (by apply insert_subseteq).
  split; [by etrans |]. split.
  { apply points_to_app; [by eapply points_to_mono |].
    constructor; [by rewrite lookup_insert_eq | constructor]. }
  split.
  { apply NoDup_app. split; [done |]. split; [| apply NoDup_singleton].
    intros l' Hl' Hin. apply list_elem_of_singleton in Hin as ->.
    apply Hf. by eapply points_to_dom. }
  split.
  { apply Forall_app. split; [done |]. constructor; [| constructor].
    intros Hin. apply Hf. by eapply (subseteq_dom hi0 hi). }
  apply Forall_app. split; [done |]. by repeat constructor.
Qed.

Lemma ideas_for_formats_objects t ctx src formats hi0 :
  ∀ hi refs xs draws,
    created hi0 hi refs xs →
    ∃ new,
      (Synthesizer.ideas_for_formats t ctx src formats draws).1 = new ∧
      (ideas_for_formats t ctx src formats hi refs draws).2
      = (Synthesizer.ideas_for_formats t ctx src formats draws).2 ∧
      created hi0 (ideas_for_formats t ctx src formats hi refs draws).1.1
                  (ideas_for_formats t ctx src formats hi refs draws).1.2 (xs ++ new).
Proof.
  induction formats as [| format formats IH]; intros hi refs xs draws Hc.
  - exists []. simpl. unfold mret, Rand_ret. simpl. by rewrite app_nil_r.
  - cbn [ideas_for_formats Synthesizer.ideas_for_formats].
    unfold mbind, Rand_bind, mret, Rand_ret.
    pose proof (create_content_idea_unstamped t ctx src format draws) as [Hx1 Hx2].
    destruct (Synthesizer._create_content_idea t ctx src format draws) as [x draws1].
    simpl in Hx1, Hx2.
    pose proof (created_new_object hi0 hi refs xs x Hc Hx1 Hx2) as Hc'.
    destruct (new_object hi x) as [hi' l]. simpl in Hc'.
    destruct (IH hi' (refs ++ [l]) (xs ++ [x]) draws1 Hc') as (new & Hnew & Hd & Hcr).
    destruct (Synthesizer.ideas_for_formats t ctx src formats draws1) as [new' draws2].
    simpl in *. subst new'. exists (x :: new). split; [done |]. split; [done |].
    by rewrite <- app_assoc in Hcr.
Qed.

Lemma collect_ideas_objects ht hi0 trends ds :
  points_to ht trends ds →
  ∀ hi refs xs draws,
    created hi0 hi refs xs →
    ∃ ys,
      Synthesizer.collect_ideas (PyDict <$> ds) xs draws
      = (Return ys, (collect_ideas ht trends hi refs draws).2) ∧
      created hi0 (collect_ideas ht trends hi refs draws).1.1
                  (collect_ideas ht trends hi refs draws).1.2 ys.
Proof.
  induction 1 as [| trend d trends ds Ht _ IH]; intros hi refs xs draws Hc.
  - exists xs. simpl. unfold mret, Rand_ret. done.
  - cbn [collect_ideas Synthesizer.collect_ideas fmap list_fmap Synthesizer.as_dict].
    rewrite Ht. unfold mbind, Rand_bind.
    destruct (ideas_for_formats_objects (get (topic d) "") (get (context d) "")
                (get (source d) "") (Synthesizer.formats_for d) hi0 hi refs xs draws Hc)
      as (new & Hnew & Hd & Hcr).
    destruct (ideas_for_formats _ _ _ _ hi refs draws) as [[hi1 refs1] draws1].
    destruct (Synthesizer.ideas_for_formats _ _ _ _ draws) as [new' draws1'].
    simpl in *. subst new' draws1'.
    apply (IH hi1 refs1 (xs ++ new) draws1 Hcr).
Qed.

Lemma points_to_alter_notin {A} (h : gmap loc A) ls xs l (f : A → A) :
  l ∉ ls → points_to h ls xs → points_to (alter f l h) ls xs.
Proof.
  intros Hn H. induction H as [| l' x' ls' xs' Hl' _ IH]; [constructor |].
  apply not_elem_of_cons in Hn as [Hne Hn].
  constructor; [by rewrite lookup_alter_ne | by apply IH].
Qed.

Lemma stamp_ideas_spec stamp iso ls :
  ∀ i hi xs, NoDup ls → points_to hi ls xs →
    points_to (stamp_ideas stamp iso i hi ls) ls
      (imap (λ j x, set_id x ("idea_" +:+ stamp (i + j)%nat +:+ "_" +:+ pretty (i + j)%nat)
                           (iso (i + j)%nat)) xs)
    ∧ ∀ l, l ∉ ls → stamp_ideas stamp iso i hi ls !! l = hi !! l.
Proof.
  induction ls as [| l ls IH]; intros i hi xs Hnd Hp.
  - inversion Hp; subst. split; [constructor | done].
  - inversion Hp as [| ? x ? xs' Hl Hp' ]; subst.
    apply NoDup_cons in Hnd as [Hnin Hnd].
    cbn [stamp_ideas].
    set (f := λ x : idea, set_id x ("idea_" +:+ stamp i +:+ "_" +:+ pretty i) (iso i)).
    assert (Hp'' : points_to (alter f l hi) ls xs') by (by apply points_to_alter_notin).
    destruct (IH (S i) (alter f l hi) xs' Hnd Hp'') as [Hr Hother].
    split.
    + rewrite imap_cons. constructor.
      * rewrite (Hother l Hnin), lookup_alter_eq, Hl. simpl.
        by rewrite Nat.add_0_r.
      * erewrite imap_ext; [exact Hr |].
        intros j x' _. simpl. by rewrite Nat.add_succ_r.
    + intros l' Hl'. apply not_elem_of_cons in Hl' as [Hne Hl'].
      by rewrite (Hother l' Hl'), lookup_alter_ne.
Qed.

Lemma create_and_rank_spec ht trending ds hi draws :
  points_to ht trending ds →
  ∃ ys,
    Synthesizer.collect_ideas (PyDict <$> take 10 ds) [] draws
    = (Return ys, (create_and_rank ht trending hi draws).2) ∧
    let hi1 := (create_and_rank ht trending hi draws).1.1 in
    let ranked := (create_and_rank ht trending hi draws).1.2 in
    hi ⊆ hi1 ∧
    points_to hi1 ranked (take 5 (sorted_desc Synthesizer.priority_key ys)) ∧
    NoDup ranked ∧ Forall (λ l, l ∉ dom hi) ranked ∧
    Forall (λ x, idea_id x = None ∧ idea_generated_at x = None)
           (take 5 (sorted_desc Synthesizer.priority_key ys)).
Proof.
  intros Hp. unfold create_and_rank, mbind, Rand_bind, mret, Rand_ret.
  assert (Hc0 : created hi hi [] []).
  { split; [done |]. split; [constructor |]. split; [constructor |]. by split. }
  destruct (collect_ideas_objects ht hi (take 10 trending) (take 10 ds)
              (Forall2_take _ _ _ 10 Hp) hi [] [] draws Hc0) as (ys & Hv & Hc).
  destruct (collect_ideas ht (take 10 trending) hi [] draws) as [[hi1 refs] draws1].
  simpl in *. destruct Hc as (Hsub & Hpt & Hnd & Hfresh & Hid).
  exists ys. split; [exact Hv |]. split; [exact Hsub |].
  assert (Hperm : sorted_desc (priority_at hi1) refs ≡ₚ refs) by apply sorted_desc_perm.
  split.
  { apply Forall2_take. apply sorted_desc_related; [| exact Hpt].
    intros l x Hl. unfold priority_at. by rewrite Hl. }
  split.
  { eapply sublist_NoDup; [| apply sublist_take]. by rewrite Hperm. }
  split.
  { apply Forall_take. by rewrite Hperm. }
  apply Forall_take. by rewrite (sorted_desc_perm Synthesizer.priority_key ys).
Qed.

End ObjectFacts.

(** ** The model on concrete inputs *)

Example lower_ex : PyStr.lower "AI SaaS Tools" = "ai saas tools".
Proof. reflexivity. Qed.

Example split_ex : PyStr.split "  no-code   platforms " = ["no-code"; "platforms"].
Proof. reflexivity. Qed.

Example contains_ex : PyStr.contains "saas" "ai saas tools" = true.
Proof. reflexivity. Qed.

Example round2_ex1 : PyNum.round2 (5625 # 1000) = (281 # 50)%Q.
Proof. reflexivity. Qed.

Example round2_ex2 : PyNum.round2 (5635 # 1000) = (141 # 25)%Q.
Proof. reflexivity. Qed.

Example round2_ex3 : PyNum.round2 (- (1 # 1000)) = 0%Q.
Proof. reflexivity. Qed.

Example keyword_matches_ex :
  ResearchAgent.keyword_matches "Design systems for SaaS startups" = 3.
Proof. reflexivity. Qed.

Example score_reddit_ex :
  relevance_score (ResearchAgent.score_topic (reddit_topic "Pricing Page Teardown" "" "" 500 3))
  = Some (60 # 1)%Q.
Proof. vm_compute. reflexivity. Qed.

Example dedup_ex :
  Dedup._deduplicate_topics
    [ twitter_topic "AI SaaS tools" "" 80; twitter_topic "No-code platforms" "" 40;
      twitter_topic "AI SaaS tooling" "" 85 ]
  = [ twitter_topic "AI SaaS tools" "" 80; twitter_topic "No-code platforms" "" 40 ].
Proof. vm_compute. reflexivity. Qed.

Example sorted_desc_ex :
  sorted_desc (fun p : Q * string => p.1) [(1%Q, "a"); (3%Q, "b"); (1%Q, "c"); (3%Q, "d")]
  = [(3%Q, "b"); (3%Q, "d"); (1%Q, "a"); (1%Q, "c")].
Proof. reflexivity. Qed.

(** The end-to-end example of the specification: the second source fails,
    the fourth source's topic is a near-duplicate of the first's. *)
Example find_trending_topics_ex :
  Coordinator.find_trending_topics
    [ Return [twitter_topic "AI SaaS Tools" "SaaS growth strategy" 80];
      Raise (RuntimeError "connection reset");
      Return [twitter_topic "No-Code Platforms" "No-code solution comparison" 40];
      Return [twitter_topic "AI Saas Tooling" "SaaS growth strategy" 85] ]
  = Return
      [ set_scores (twitter_topic "AI SaaS Tools" "SaaS growth strategy" 80)
                   (2047 # 25) (47 # 25);
        set_scores (twitter_topic "No-Code Platforms" "No-code solution comparison" 40)
                   (1047 # 25) (47 # 25) ].
Proof. vm_compute. reflexivity. Qed.

Example generate_content_ideas_75_ex :
  let '(result, _, _) :=
    Synthesizer.generate_content_ideas (λ _, "20240101_120000") (λ _, "2024-01-01T12:00:00")
      [PyDict (twitter_topic "SaaS design" "SaaS design breakdown" 75)]
      [1; 2; 3; 4; 5; 6; 7; 8; 9]%nat in
  ∃ ideas, result = Return ideas ∧ idea_format <$> ideas = [blog; email; social].
Proof. vm_compute. eexists. split; reflexivity. Qed.

Example generate_content_ideas_50_ex :
  let '(result, _, _) :=
    Synthesizer.generate_content_ideas (λ _, "20240101_120000") (λ _, "2024-01-01T12:00:00")
      [PyDict (twitter_topic "SaaS design" "SaaS design breakdown" 50)]
      [1; 2; 3]%nat in
  ∃ ideas, result = Return ideas ∧ idea_format <$> ideas = [blog].
Proof. vm_compute. eexists. split; reflexivity. Qed.

Example score_producthunt_ex :
  let card := {| Adapters.name_elem := Some "Flowdesk";
                 Adapters.desc_elem :=
                   Some "Workflow automation platform with an analytics dashboard, API and integration hub" |} in
  let fetched := Return {| Adapters.status := 200%nat; Adapters.body := [card] |} in
  let candidates := (Adapters._scrape_producthunt fetched [0; 1; 2]%nat).1 in
  candidates
  = [ Adapters.producthunt_topic
        "Flowdesk Workflow Automation" "Flowdesk"
        "Workflow automation platform with an analytics dashboard, API and integration hub"
        "Framer template showcase" (7 # 16) ] ∧
  (relevance_score <$> (ResearchAgent.score_topic <$> candidates)) = [Some (4813 # 100)%Q].
Proof. cbv zeta. split; vm_compute; reflexivity. Qed.

Example generate_content_ideas_objects_ex :
  let ht : gmap Objects.loc topic_data :=
    {[ 4%nat := twitter_topic "SaaS design" "SaaS design breakdown" 75 ]} in
  let '(hi1, ranked, _) := Objects.create_and_rank ht [4%nat] ∅ [1; 2; 3]%nat in
  let '(_, hi', ideas, _) :=
    Objects.generate_content_ideas (λ _, "20240101_120000") (λ _, "2024-01-01T12:00:00")
      ht [4%nat] ∅ [1; 2; 3]%nat in
  ranked = [0; 2; 1]%nat ∧ ideas = [0; 2; 1]%nat ∧
  ((λ l, idea_id <$> hi1 !! l) <$> ideas) = [Some None; Some None; Some None] ∧
  ((λ l, idea_id <$> hi' !! l) <$> ideas)
  = [ Some (Some "idea_20240101_120000_0"); Some (Some "idea_20240101_120000_1");
      Some (Some "idea_20240101_120000_2") ].
Proof. vm_compute. repeat split; reflexivity. Qed.

Example deduplicate_objects_ex :
  let h : gmap Objects.loc topic_data :=
    {[ 0%nat := twitter_topic "AI SaaS tools" "a" 80;
       1%nat := twitter_topic "SaaS AI tools" "b" 70;
       2%nat := twitter_topic "No-code platforms" "c" 90 ]} in
  Objects._deduplicate_topics h [0; 1; 2]%nat = (h, [0; 2]%nat) ∧
  Objects.final_topics h [0; 1; 2]%nat = (h, [2; 0; 1]%nat).
Proof. cbv zeta. split; vm_compute; reflexivity. Qed.

(** * The properties of the specification *)

(** ** The relevance scorer *)

(** C1, as stated, fails. A forum post with 500 votes enters the scorer
    with [raw_score = 500] and [relevance_score = 50]; the scorer reads the
    latter and stores 60, while the formula over [raw_score] gives 100. *)
Lemma relevance_score_not_from_raw_score :
  let d := reddit_topic "Pricing Page Teardown" "Pricing Page Teardown. We rebuilt ours."
                        "SaaS growth strategy" 500 3 in
  raw_score d = Some 500%Q ∧
  scored_at {[ 0%nat := d ]} [0%nat] 0%nat = Some (60 # 1)%Q ∧
  Spec.spec_relevance_score d = (100 # 1)%Q ∧
  scored_at {[ 0%nat := d ]} [0%nat] 0%nat ≠ Some (Spec.spec_relevance_score d).
Proof. cbv zeta. split; [| split; [| split]]; vm_compute; [reflexivity .. | discriminate]. Qed.

(** C1 (amended). For every record the scorer is handed once, with a
    score on entry of magnitude at most [2^1000] (so that nothing
    overflows), the stored [relevance_score] is
    [min((s + keyword_boost) * source_multiplier, 100)] rounded to two
    decimals, computed as Python computes it: the sum and the product are
    each rounded to the nearest binary64 number. Here [s] is the
    [relevance_score] the record carries on entry (0 when absent; not its
    [raw_score]), [keyword_boost] is the number of domain keywords that
    are substrings of the lowercased topic, divided by the number of
    domain keywords, times 30, and [source_multiplier] is 1.2, 1.1, 1.3
    or 1.0 for the four sources and 1.0 for any other source. *)
Theorem relevance_score_formula
    (h : gmap ResearchAgent.loc topic_data) (topics : list ResearchAgent.loc)
    (l : ResearchAgent.loc) (d : topic_data) :
  NoDup topics → l ∈ topics → h !! l = Some d →
  (Qabs (get (relevance_score d) 0) <= 2 ^ 1000)%Q →
  let s := get (relevance_score d) 0%Q in
  let t := get (topic d) "" in
  let src := get (source d) "" in
  let keyword_boost :=
    (PyNum.truediv (ResearchAgent.keyword_matches t)
                   (length ResearchAgent.craefto_keywords) * 30)%Q in
  scored_at h topics l
  = Some (PyNum.round2
            (Qmin (PyNum.fmul (PyNum.fadd s keyword_boost)
                              (ResearchAgent.multiplier_of src)) 100))
  ∧ ResearchAgent.multiplier_of src
    = (if decide (src = "reddit") then 12 # 10
       else if decide (src = "producthunt") then 11 # 10
       else if decide (src = "google_trends") then 13 # 10
       else if decide (src = "twitter") then 1 # 1
       else 1)%Q.
Proof.
  intros Hnd Hin Hd _ s t src keyword_boost. split.
  - rewrite (StoreFacts.scored_at_once h topics l d Hnd Hin Hd). f_equal.
    apply PyNumFacts.round2_comp, StoreFacts.final_score_fraction.
  - apply ScorerFacts.multiplier_of_cases.
Qed.

(** The candidate the product-launch adapter builds from a product with
    seven SaaS keywords enters with 43.75; its product with 1.1 is
    48.12500000000001 in binary64, so 48.13 is stored. *)
Lemma relevance_score_formula_witness :
  let d := Adapters.producthunt_topic
             "Flowdesk Workflow Automation" "Flowdesk"
             "Workflow automation platform with an analytics dashboard, API and integration hub"
             "Framer template showcase" (7 # 16) in
  let h : gmap ResearchAgent.loc topic_data := {[ 7%nat := d ]} in
  scored_at h [7%nat] 7%nat = Some (4813 # 100)%Q.
Proof.
  intros d h.
  destruct (relevance_score_formula h [7%nat] 7%nat d) as [Hs _].
  - apply NoDup_singleton.
  - apply elem_of_cons. by left.
  - vm_compute. reflexivity.
  - vm_compute. discriminate.
  - rewrite Hs. vm_compute. reflexivity.
Defined.

(** C7, as stated, fails. The scorer has no lower clamp and the forum
    adapter does not check the vote count: a post with -7 votes gives a
    candidate with [relevance_score] -0.7, which leaves the scorer, and
    the run, with -0.84. *)
Lemma relevance_score_below_zero :
  let post := {| Adapters.post_stickied := Some false;
                 Adapters.post_title := Some "Churn analysis gone wrong";
                 Adapters.post_selftext := Some "We lost half of our customers.";
                 Adapters.post_score := Some (-7)%Q;
                 Adapters.post_created_utc := Some 0%Q |} in
  let fetched := Return {| Adapters.status := 200%nat; Adapters.body := [post] |} in
  let candidates := (Adapters._scrape_reddit_saas 3600 fetched [0]%nat).1 in
  ∃ d s, candidates = [d] ∧
         relevance_score d = Some (-7 # 10)%Q ∧
         scored_at {[ 0%nat := d ]} [0%nat] 0%nat = Some s ∧
         s = (-21 # 25)%Q ∧ ¬ (0 <= s <= 100)%Q ∧
         (relevance_score <$>
            match Coordinator.find_trending_topics [Return candidates] with
            | Return final => final
            | Raise _ => []
            end) = [Some s].
Proof.
  cbv zeta. eexists _, _. split; [vm_compute; reflexivity |].
  split; [vm_compute; reflexivity |]. split; [vm_compute; reflexivity |].
  split; [reflexivity |]. split; [| vm_compute; reflexivity].
  intros [H _]. revert H. vm_compute. intros H. by apply H.
Qed.

(** C7 (amended). Every record the scorer is handed leaves it with a
    [relevance_score] of at most 100, and of at least 0 when the score it
    carries on entry is not negative. The record may occur in the list
    any number of times. *)
Theorem relevance_score_bounds
    (h : gmap ResearchAgent.loc topic_data) (topics : list ResearchAgent.loc)
    (l : ResearchAgent.loc) (d : topic_data) :
  l ∈ topics → h !! l = Some d →
  ∃ s, scored_at h topics l = Some s ∧ (s <= 100)%Q ∧
       ((0 <= get (relevance_score d) 0)%Q → (0 <= s)%Q).
Proof.
  intros Hin Hd. rewrite (StoreFacts.scored_at_iter h topics l d Hd).
  pose proof (ScorerFacts.occurrences_pos l topics Hin) as Hpos.
  destruct (occurrences l topics) as [| n]; [lia |].
  destruct (StoreFacts.iter_score_le_100 n d) as (s & Hs & H100).
  exists s. split; [exact Hs |]. split; [exact H100 |].
  intros H0. destruct (StoreFacts.iter_score_range n d H0) as (s' & Hs' & Hs0 & _).
  rewrite Hs in Hs'. by injection Hs' as ->.
Qed.

Lemma relevance_score_bounds_witness :
  let d := twitter_topic "SaaS design templates" "SaaS design breakdown" 95 in
  let h : gmap ResearchAgent.loc topic_data := {[ 3%nat := d ]} in
  ∃ s, scored_at h [3%nat] 3%nat = Some s ∧ (s <= 100)%Q ∧
       ((0 <= get (relevance_score d) 0)%Q → (0 <= s)%Q).
Proof.
  intros d h. apply (relevance_score_bounds h [3%nat] 3%nat d).
  - apply elem_of_cons. by left.
  - vm_compute. reflexivity.
Defined.

(** C8. For a fixed source the score is monotone: of two records with the
    same source, each handed to the scorer once, the one whose score on
    entry and whose keyword boost are not smaller is given a
    [relevance_score] that is not smaller. Nothing is asked of the other
    fields, [raw_score] included. *)
Theorem relevance_score_monotone
    (h1 h2 : gmap ResearchAgent.loc topic_data) (topics1 topics2 : list ResearchAgent.loc)
    (l1 l2 : ResearchAgent.loc) (d1 d2 : topic_data) :
  NoDup topics1 → NoDup topics2 → l1 ∈ topics1 → l2 ∈ topics2 →
  h1 !! l1 = Some d1 → h2 !! l2 = Some d2 →
  get (source d1) "" = get (source d2) "" →
  (get (relevance_score d1) 0 <= get (relevance_score d2) 0)%Q →
  (ResearchAgent.boost_of (get (topic d1) "")
   <= ResearchAgent.boost_of (get (topic d2) ""))%Q →
  ∃ s1 s2, scored_at h1 topics1 l1 = Some s1 ∧ scored_at h2 topics2 l2 = Some s2
           ∧ (s1 <= s2)%Q.
Proof.
  intros Hnd1 Hnd2 Hin1 Hin2 Hd1 Hd2 Hsrc Hbase Hboost.
  rewrite (StoreFacts.scored_at_once h1 topics1 l1 d1 Hnd1 Hin1 Hd1).
  rewrite (StoreFacts.scored_at_once h2 topics2 l2 d2 Hnd2 Hin2 Hd2).
  eexists _, _. split; [reflexivity |]. split; [reflexivity |].
  apply PyNumFacts.round2_mono. rewrite Hsrc.
  by apply ScorerFacts.final_score_mono.
Qed.

Lemma relevance_score_monotone_witness :
  let d1 := twitter_topic "API-first SaaS" "SaaS growth strategy" 61 in
  let d2 := twitter_topic "SaaS onboarding design" "SaaS design breakdown" 64 in
  let h : gmap ResearchAgent.loc topic_data := {[ 0%nat := d1; 1%nat := d2 ]} in
  ∃ s1 s2, scored_at h [0%nat; 1%nat] 0%nat = Some s1
           ∧ scored_at h [0%nat; 1%nat] 1%nat = Some s2 ∧ (s1 <= s2)%Q.
Proof.
  intros d1 d2 h.
  assert (Hnd : NoDup [0%nat; 1%nat]).
  { apply NoDup_cons. split; [| apply NoDup_singleton].
    intros H. apply elem_of_cons in H as [H | H]; [discriminate |].
    by apply elem_of_nil in H. }
  apply (relevance_score_monotone h h [0%nat; 1%nat] [0%nat; 1%nat] 0%nat 1%nat d1 d2 Hnd Hnd).
  - apply elem_of_cons. by left.
  - apply elem_of_cons. right. apply elem_of_cons. by left.
  - vm_compute. reflexivity.
  - vm_compute. reflexivity.
  - reflexivity.
  - vm_compute. discriminate.
  - vm_compute. discriminate.
Defined.

(** C9, as stated, fails. A candidate with score 50 handed to the scorer
    is the same object afterwards, now with [relevance_score] 51.88 and a
    [craefto_boost] it did not have; the list returned is the list
    passed in. *)
Lemma scorer_overwrites_its_input :
  let d := twitter_topic "SaaS analytics" "SaaS growth strategy" 50 in
  let h : gmap ResearchAgent.loc topic_data := {[ 0%nat := d ]} in
  let '(h', out) := ResearchAgent._calculate_relevance_scores h [0%nat] in
  out = [0%nat] ∧
  (relevance_score <$> h !! 0%nat) = Some (Some (50 # 1)%Q) ∧
  (relevance_score <$> h' !! 0%nat) = Some (Some (1297 # 25)%Q) ∧
  (craefto_boost <$> h !! 0%nat) = Some None ∧
  (craefto_boost <$> h' !! 0%nat) = Some (Some (47 # 25)%Q).
Proof. cbv zeta. vm_compute. repeat split; reflexivity. Qed.

(** C9 (amended). Two stages write into dicts after their creation. The
    relevance scorer updates the records it is handed in place and
    returns the list it was passed: in each such record it overwrites
    [relevance_score] and sets [craefto_boost], and leaves every other
    field as it was; records it was not handed are untouched, and none is
    created or removed. The idea synthesizer leaves the topic dicts it
    reads and every idea dict that existed before as they are, and
    returns a new list of new idea dicts; but it writes into these dicts
    after it created them: the (at most five) dicts it kept after sorting
    were created without [id] and [generated_at], and the loop that
    follows sets both keys in them, in place. The deduplicator and the
    ranking write nothing: each returns a new list that holds references
    to the dicts it was given, a sublist for the deduplicator, the first
    20 of the sorted list for the ranking. On the records the
    references denote, the three stages compute what the stages on values
    compute. *)
Theorem stages_update_records_in_place :
  (∀ (h : gmap ResearchAgent.loc topic_data) (topics : list ResearchAgent.loc),
     let '(h', out) := ResearchAgent._calculate_relevance_scores h topics in
     out = topics ∧
     (∀ l, l ∉ topics → h' !! l = h !! l) ∧
     (∀ l, h !! l = None → h' !! l = None) ∧
     (∀ l d, h !! l = Some d → ∃ d', h' !! l = Some d' ∧ same_payload d d') ∧
     (∀ l d, l ∈ topics → h !! l = Some d →
        ∃ d' s b, h' !! l = Some d' ∧ relevance_score d' = Some s
                  ∧ craefto_boost d' = Some b)) ∧
  (∀ (h : gmap Objects.loc topic_data) (topics : list Objects.loc),
     let '(h', out) := Objects._deduplicate_topics h topics in
     h' = h ∧ out `sublist_of` topics ∧
     ∀ ds, points_to h topics ds → points_to h out (Dedup._deduplicate_topics ds)) ∧
  (∀ (h : gmap Objects.loc topic_data) (scored_topics : list Objects.loc),
     let '(h', out) := Objects.final_topics h scored_topics in
     h' = h ∧ out = take 20 (sorted_desc (Objects.relevance_at h) scored_topics) ∧
     (∀ l, l ∈ out → l ∈ scored_topics) ∧
     ∀ ds, points_to h scored_topics ds → points_to h out (Coordinator.final_topics ds)) ∧
  (∀ (stamp iso : nat → string) (ht : gmap Objects.loc topic_data)
     (trending_data : list Objects.loc) (ds : list topic_data)
     (hi : gmap Objects.loc idea) (draws : list nat),
     points_to ht trending_data ds →
     let '(hi1, ranked, _) := Objects.create_and_rank ht trending_data hi draws in
     let '(ht', hi', ideas, draws') :=
       Objects.generate_content_ideas stamp iso ht trending_data hi draws in
     ht' = ht ∧ ideas = ranked ∧
     (∀ l, l ∈ dom hi → hi' !! l = hi !! l) ∧
     NoDup ideas ∧ Forall (λ l, l ∉ dom hi) ideas ∧
     (∀ i l, ideas !! i = Some l →
        ∃ x, hi1 !! l = Some x ∧ idea_id x = None ∧ idea_generated_at x = None ∧
             hi' !! l = Some (set_id x ("idea_" +:+ stamp i +:+ "_" +:+ pretty i) (iso i))) ∧
     (∀ l, l ∉ ideas → hi' !! l = hi1 !! l) ∧
     ∃ vs log,
       Synthesizer.generate_content_ideas stamp iso (PyDict <$> ds) draws
       = (Return vs, log, draws') ∧
       points_to hi' ideas vs).
Proof.
  split; [| split; [| split]].
  - intros h topics.
    pose proof (ScorerFacts.scores_lookup topics h) as Hl.
    destruct (ResearchAgent._calculate_relevance_scores h topics) as [h' out] eqn:E.
    assert (out = topics) as -> by (by inversion E).
    simpl in Hl. repeat split.
    + intros l Hin. rewrite Hl, ScorerFacts.occurrences_notin by done.
      by destruct (h !! l).
    + intros l Hn. by rewrite Hl, Hn.
    + intros l d Hd. rewrite Hl, Hd. eexists. split; [reflexivity |].
      apply ScorerFacts.same_payload_iter.
    + intros l d Hin Hd. rewrite Hl, Hd.
      pose proof (ScorerFacts.occurrences_pos l topics Hin) as Hpos.
      destruct (occurrences l topics) as [| n]; [lia |].
      by eexists _, _, _.
  - intros h topics. unfold Objects._deduplicate_topics. split; [done |]. split.
    + destruct (ObjectFacts.dedup_refs_sublist h topics ([], ∅)) as (out & -> & Hsub).
      exact Hsub.
    + intros ds Hp.
      apply (ObjectFacts.dedup_refs_refines h topics ds Hp ([], ∅) ([], ∅)); [constructor | done].
  - intros h scored_topics. unfold Objects.final_topics. split; [done |]. split; [done |].
    split.
    + intros l Hl.
      pose proof (elem_of_sublist _ _ _ Hl (sublist_take _ 20)) as Hl'.
      by rewrite (sorted_desc_perm (Objects.relevance_at h) scored_topics) in Hl'.
    + intros ds Hp. apply (ObjectFacts.final_topics_refines h scored_topics ds Hp).
  - intros stamp iso ht trending_data ds hi draws Hp.
    destruct (ObjectFacts.create_and_rank_spec ht trending_data ds hi draws Hp)
      as (ys & Hv & Hsub & Hpt & Hnd & Hfresh & Hid).
    unfold Objects.generate_content_ideas, mbind, Rand_bind, mret, Rand_ret.
    destruct (Objects.create_and_rank ht trending_data hi draws) as [[hi1 ranked] draws1].
    simpl in Hv, Hsub, Hpt, Hnd, Hfresh, Hid.
    destruct (ObjectFacts.stamp_ideas_spec stamp iso ranked 0 hi1 _ Hnd Hpt) as [Hst Hother].
    cbn [fst snd]. split; [done |]. split; [done |]. split.
    { intros l Hl. rewrite Hother.
      - apply elem_of_dom in Hl as [x Hx]. rewrite Hx. by eapply lookup_weaken.
      - intros Hin. rewrite Forall_forall in Hfresh. by apply (Hfresh l Hin). }
    split; [exact Hnd |]. split; [exact Hfresh |]. split.
    { intros i l Hil.
      destruct (Forall2_lookup_l _ _ _ _ _ Hpt Hil) as (x & Hx & Hlx).
      exists x. rewrite Forall_forall in Hid.
      destruct (Hid x (list_elem_of_lookup_2 _ _ _ Hx)) as [Hi1 Hi2].
      split; [exact Hlx |]. split; [exact Hi1 |]. split; [exact Hi2 |].
      destruct (Forall2_lookup_l _ _ _ _ _ Hst Hil) as (x' & Hx' & Hlx').
      rewrite Hlx'. f_equal. rewrite list_lookup_imap, Hx in Hx'. simpl in Hx'.
      by injection Hx' as <-. }
    split; [exact Hother |].
    unfold Synthesizer.generate_content_ideas, mbind, Rand_bind, mret, Rand_ret.
    rewrite <- fmap_take, Hv. simpl.
    eexists _, _. split; [reflexivity |]. exact Hst.
Qed.

(** ** The deduplicator *)

(** C4, as stated, fails. Two five-word topics share three words, 0.6 of
    either word set: a duplicate by the specification's test, which asks
    for at least 0.6, and not by the code's, which asks for more than 0.6.
    The second candidate is kept. *)
Lemma deduplicate_keeps_at_threshold :
  let a := reddit_topic "AI or ML in UX" "AI or ML in UX. Which one first?"
                        "User experience insights" 120 4 in
  let b := reddit_topic "AI or ML at QA" "AI or ML at QA. Where do you start?"
                        "SaaS growth strategy" 90 7 in
  Spec.spec_significant_overlap (Dedup.word_set (Dedup.topic_key b))
                                (Dedup.word_set (Dedup.topic_key a)) = true ∧
  Dedup.significant_overlap (Dedup.word_set (Dedup.topic_key b))
                            (Dedup.word_set (Dedup.topic_key a)) = false ∧
  Dedup._deduplicate_topics [a; b] = [a; b].
Proof. cbv zeta. split; [| split]; vm_compute; reflexivity. Qed.

(** C4 (amended). At every point of a run, the deduplicator drops the next
    candidate exactly when some topic seen so far (the seen topics are the
    lowercased topics of the candidates kept so far) shares at least two
    words with the candidate's lowercased topic and the shared words are
    strictly more than 0.6 of the candidate's word set or strictly more
    than 0.6 of the seen topic's word set; otherwise the candidate is
    appended to the kept ones and its topic is added to the seen set. *)
Theorem deduplicate_drops_iff (pre : list topic_data) (x : topic_data) :
  let st := Dedup.dedup_state pre in
  let dup :=
    ∃ seen_topic, seen_topic ∈ st.2 ∧ near_duplicate (Dedup.topic_key x) seen_topic in
  st.1 = Dedup._deduplicate_topics pre ∧
  st.2 = list_to_set (Dedup.topic_key <$> Dedup._deduplicate_topics pre) ∧
  (dup → Dedup.dedup_state (pre ++ [x]) = st
         ∧ Dedup._deduplicate_topics (pre ++ [x]) = Dedup._deduplicate_topics pre) ∧
  (¬ dup → Dedup.dedup_state (pre ++ [x]) = (st.1 ++ [x], {[ Dedup.topic_key x ]} ∪ st.2)
           ∧ Dedup._deduplicate_topics (pre ++ [x]) = Dedup._deduplicate_topics pre ++ [x]).
Proof.
  intros st dup. split; [done |]. split.
  - apply (DedupFacts.seen_invariant pre ([], ∅)). done.
  - unfold Dedup._deduplicate_topics.
    rewrite DedupFacts.dedup_state_snoc. fold st. split; intros Hd.
    + rewrite DedupFacts.dedup_step_drop; [done |].
      by apply DedupFacts.is_duplicate_spec.
    + rewrite DedupFacts.dedup_step_keep; [done |].
      apply not_true_is_false. by rewrite DedupFacts.is_duplicate_spec.
Qed.

(** C5. Deduplicating a deduplicated list changes nothing:
    [_deduplicate_topics (_deduplicate_topics xs) = _deduplicate_topics xs]
    for every list of candidates. *)
Theorem deduplicate_idempotent (xs : list topic_data) :
  Dedup._deduplicate_topics (Dedup._deduplicate_topics xs) = Dedup._deduplicate_topics xs.
Proof.
  unfold Dedup._deduplicate_topics, Dedup.dedup_state.
  destruct (DedupFacts.foldl_kept xs ([], ∅)) as (ys & Hys & Hk).
  simpl in Hys. rewrite Hys.
  by rewrite (DedupFacts.kept_from_foldl ys ([], ∅) Hk).
Qed.

(** ** The coordinator *)

(** C2. A run over any tasks returns, and what it returns is made from the
    candidates of the tasks that returned a list, in task order: a task
    that raised contributes nothing, exactly as if it had returned the
    empty list, whichever of the tasks it is and however many raise. *)
Theorem find_trending_topics_isolates_failures
    (tasks : list (outcome (list topic_data))) :
  Coordinator.find_trending_topics tasks
  = Return (Coordinator.final_topics
              (Coordinator.scored_values
                 (Dedup._deduplicate_topics (returned_topics tasks)))) ∧
  (∀ i e, Coordinator.find_trending_topics (<[i := Raise e]> tasks)
          = Coordinator.find_trending_topics (<[i := Return []]> tasks)) ∧
  (∀ e a b c,
     returned_topics [Raise e; Return a; Return b; Return c] = a ++ b ++ c ∧
     returned_topics [Return a; Raise e; Return b; Return c] = a ++ b ++ c ∧
     returned_topics [Return a; Return b; Raise e; Return c] = a ++ b ++ c ∧
     returned_topics [Return a; Return b; Return c; Raise e] = a ++ b ++ c).
Proof.
  split; [| split].
  - apply CoordinatorFacts.find_trending_topics_returns.
  - intros i e. rewrite !CoordinatorFacts.find_trending_topics_returns.
    by rewrite CoordinatorFacts.returned_topics_raise.
  - intros e a b c. unfold returned_topics. simpl.
    by rewrite ?app_nil_r.
Qed.

(** C6. What a run returns is the head of a stable rearrangement of the
    scored topics in which [relevance_score] never increases: records with
    equal scores keep the order they had, and at most 20 records are
    returned, every one of them scoring at least as high as every record
    left out. Of 30 scored topics with distinct scores exactly 20 are
    returned, each scoring strictly higher than each of the other 10. *)
Theorem find_trending_topics_ranks_top_20
    (tasks : list (outcome (list topic_data))) :
  let scored_topics :=
    Coordinator.scored_values (Dedup._deduplicate_topics (returned_topics tasks)) in
  ∃ final rest,
    Coordinator.find_trending_topics tasks = Return final ∧
    stable_rearrangement Coordinator.relevance_key scored_topics (final ++ rest) ∧
    descending Coordinator.relevance_key (final ++ rest) ∧
    length final = (20 `min` length scored_topics)%nat ∧
    (∀ x y, x ∈ final → y ∈ rest →
            (Coordinator.relevance_key y <= Coordinator.relevance_key x)%Q) ∧
    (length scored_topics = 30%nat →
     distinct_keys Coordinator.relevance_key scored_topics →
     length final = 20%nat ∧ length rest = 10%nat ∧
     ∀ x y, x ∈ final → y ∈ rest →
            (Coordinator.relevance_key y < Coordinator.relevance_key x)%Q).
Proof.
  intros scored_topics.
  destruct (CoordinatorFacts.final_topics_spec scored_topics) as (rest & Hst & Hdesc & Hlen).
  exists (Coordinator.final_topics scored_topics), rest.
  split; [apply CoordinatorFacts.find_trending_topics_returns |].
  split; [done |]. split; [done |]. split; [done |]. split.
  - intros x y. by apply descending_app_le.
  - intros H30 Hdist. rewrite H30 in Hlen.
    pose proof (Permutation_length (proj1 Hst)) as Hperm.
    rewrite length_app, H30 in Hperm.
    split; [done |]. split; [simpl in Hlen; lia |].
    intros x y. apply distinct_keys_app_lt; [done |].
    eapply distinct_keys_perm; [| exact Hdist]. symmetry. apply Hst.
Qed.

Lemma find_trending_topics_ranks_top_20_witness :
  let mk := λ n : nat, twitter_topic ("trend" +:+ pretty n) "Design trend analysis"
                                      (inject_Z (Z.of_nat n)) in
  let tasks := [ Return (mk <$> seq 1 10); Return (mk <$> seq 11 8);
                 Return (mk <$> seq 19 6); Return (mk <$> seq 25 6) ] in
  ∃ final rest,
    Coordinator.find_trending_topics tasks = Return final ∧
    length final = 20%nat ∧ length rest = 10%nat ∧
    ∀ x y, x ∈ final → y ∈ rest →
           (Coordinator.relevance_key y < Coordinator.relevance_key x)%Q.
Proof.
  intros mk tasks.
  destruct (find_trending_topics_ranks_top_20 tasks)
    as (final & rest & Hrun & _ & _ & _ & _ & H30).
  exists final, rest. split; [exact Hrun |].
  apply H30.
  - vm_compute. reflexivity.
  - unfold distinct_keys. apply (bool_decide_unpack _). vm_compute. reflexivity.
Defined.

(** ** The idea synthesizer *)

(** C3. For the (at most ten) topics the synthesizer considers, the loop
    collects one group of ideas per topic, made from that topic: a blog, a
    social and an email idea when its [relevance_score] is above 70, one
    blog idea otherwise. Called on a single topic, the synthesizer
    returns exactly these ideas: three, one per format, above 70 (so for
    75), and one blog idea at or below 70 (so for 50). *)
Theorem ideas_fan_out (stamp iso : nat → string) (draws : list nat) :
  (∀ trending : list topic_data,
     ∃ groups draws',
       Synthesizer.collect_ideas (take 10 (PyDict <$> trending)) [] draws
       = (Return (concat groups), draws') ∧
       Forall2 (λ d g,
                  Forall (from_trend d) g ∧
                  ((70 < get (relevance_score d) 0)%Q →
                   idea_format <$> g = [blog; social; email]) ∧
                  ((get (relevance_score d) 0 <= 70)%Q →
                   idea_format <$> g = [blog]))
               (take 10 trending) groups) ∧
  (∀ d : topic_data,
     ∃ ideas log draws',
       Synthesizer.generate_content_ideas stamp iso [PyDict d] draws
       = (Return ideas, log, draws') ∧
       ((70 < get (relevance_score d) 0)%Q →
        length ideas = 3%nat ∧ idea_format <$> ideas ≡ₚ [blog; social; email]) ∧
       ((get (relevance_score d) 0 <= 70)%Q →
        length ideas = 1%nat ∧ idea_format <$> ideas = [blog]) ∧
       (relevance_score d = Some 75%Q → length ideas = 3%nat) ∧
       (relevance_score d = Some 50%Q → length ideas = 1%nat)).
Proof.
  split.
  - intros trending.
    destruct (SynthesizerFacts.collect_ideas_dicts (take 10 trending) [] draws)
      as (groups & draws' & Hr & Hall).
    exists groups, draws'. split; [by rewrite <- fmap_take |].
    eapply Forall2_impl; [exact Hall |].
    intros d g [Hf Hfrom]. split; [done |]. split; intros Hs; rewrite Hf.
    + by apply SynthesizerFacts.formats_for_high.
    + by apply SynthesizerFacts.formats_for_low.
  - intros d.
    destruct (SynthesizerFacts.collect_ideas_dicts [d] [] draws)
      as (groups & draws' & Hr & Hall).
    apply Forall2_cons_inv_l in Hall as (g & gs & [Hf _] & Hnil & ->).
    apply Forall2_nil_inv_l in Hnil as ->.
    replace ([] ++ concat [g]) with g in Hr by (simpl; by rewrite app_nil_r).
    unfold Synthesizer.generate_content_ideas.
    change (take 10 [PyDict d]) with (PyDict <$> [d]).
    unfold mbind, Rand_bind at 1. rewrite Hr. unfold mret, Rand_ret.
    eexists _, _, _. split; [reflexivity |].
    assert (Hhigh : (70 < get (relevance_score d) 0)%Q →
              length (Synthesizer.prioritize stamp iso g) = 3%nat
              ∧ idea_format <$> Synthesizer.prioritize stamp iso g ≡ₚ [blog; social; email]).
    { intros Hs. rewrite (SynthesizerFacts.formats_for_high d Hs) in Hf.
      assert (length g = 3%nat) as Hlen by (by rewrite <- (length_fmap idea_format), Hf).
      pose proof (SynthesizerFacts.prioritize_formats stamp iso g) as Hp.
      rewrite Hf in Hp. split; [| apply Hp; lia].
      rewrite <- (length_fmap idea_format), Hp by lia. done. }
    assert (Hlow : (get (relevance_score d) 0 <= 70)%Q →
              length (Synthesizer.prioritize stamp iso g) = 1%nat
              ∧ idea_format <$> Synthesizer.prioritize stamp iso g = [blog]).
    { intros Hs. rewrite (SynthesizerFacts.formats_for_low d Hs) in Hf.
      assert (length g = 1%nat) as Hlen by (by rewrite <- (length_fmap idea_format), Hf).
      pose proof (SynthesizerFacts.prioritize_formats stamp iso g) as Hp.
      rewrite Hf in Hp. specialize (Hp ltac:(lia)).
      apply Permutation_singleton_r in Hp.
      split; [| done]. by rewrite <- (length_fmap idea_format), Hp. }
    split; [done |]. split; [done |]. split; intros Hs.
    + apply Hhigh. rewrite Hs. reflexivity.
    + apply Hlow. rewrite Hs. simpl. discriminate.
Qed.

(** C10. When the [try] block of [generate_content_ideas] is left by an
    exception before [prioritized_ideas] is bound, as it is when one of
    the first ten elements of [trending_data] has no [get], the handler
    logs the exception and the [return] that follows raises
    [UnboundLocalError]: the call returns no list. *)
Theorem generate_content_ideas_raises_after_handler
    (stamp iso : nat → string) (trending_data : list pyobj) (draws draws' : list nat)
    (e : exn) :
  Synthesizer.collect_ideas (take 10 trending_data) [] draws = (Raise e, draws') →
  Synthesizer.generate_content_ideas stamp iso trending_data draws
  = (Raise (UnboundLocalError "prioritized_ideas"),
     [ LogInfo "💡 Generating Craefto content ideas from trending data";
       LogError ("❌ Content idea generation failed: " +:+ exn_str e) ],
     draws').
Proof.
  intros Hbody.
  unfold Synthesizer.generate_content_ideas, mbind, Rand_bind, mret, Rand_ret.
  by rewrite Hbody.
Qed.

Lemma generate_content_ideas_raises_after_handler_witness :
  let trending_data :=
    [ PyDict (twitter_topic "SaaS metrics" "SaaS growth strategy" 72); PyNone ] in
  Synthesizer.generate_content_ideas (λ _, "20240101_120000") (λ _, "2024-01-01T12:00:00")
                                     trending_data [2; 0; 1; 1; 0; 2; 2; 1; 0; 3]%nat
  = (Raise (UnboundLocalError "prioritized_ideas"),
     [ LogInfo "💡 Generating Craefto content ideas from trending data";
       LogError "❌ Content idea generation failed: 'NoneType' object has no attribute 'get'" ],
     [3%nat]).
Proof.
  intros trending_data.
  apply (generate_content_ideas_raises_after_handler _ _ trending_data _ _
           (AttributeError "NoneType" "get")).
  vm_compute. reflexivity.
Defined.

(** * Further properties of the code *)

Module DedupMore.
Import Dedup DedupFacts.

Lemma near_duplicate_sym t s : near_duplicate t s → near_duplicate s t.
Proof.
  unfold near_duplicate. cbv zeta.
  rewrite (comm_L (∩) (word_set s) (word_set t)).
  intros [H2 [H | H]]; split; auto.
Qed.

Lemma is_duplicate_empty t : is_duplicate ∅ t = false.
Proof. unfold is_duplicate. by rewrite elements_empty. Qed.

Lemma is_duplicate_false seen t :
  is_duplicate seen t = false ↔ ∀ s, s ∈ seen → ¬ near_duplicate t s.
Proof.
  rewrite <- not_true_iff_false, is_duplicate_spec. split.
  - intros Hn s Hs Hd. apply Hn. by exists s.
  - intros Hn (s & Hs & Hd). by apply (Hn s).
Qed.

Lemma few_words_never_duplicate seen t :
  (size (word_set t) < 2)%nat → is_duplicate seen t = false.
Proof.
  intros Hsz. apply is_duplicate_false. intros s _ [H2 _].
  assert (size (word_set t ∩ word_set s) ≤ size (word_set t))%nat.
  { apply subseteq_size, intersection_subseteq_l. }
  lia.
Qed.

Lemma kept_from_not_duplicate ys st :
  st.2 = list_to_set (topic_key <$> st.1) → kept_from st ys →
  ∀ j b a, ys !! j = Some b → a ∈ st.1 ++ take j ys →
           ¬ near_duplicate (topic_key b) (topic_key a).
Proof.
  revert st. induction ys as [| y ys IH]; intros st Hinv Hk j b a Hb Ha; [done |].
  destruct Hk as [Hy Hk]. rewrite (dedup_step_keep st y Hy) in Hk.
  destruct j as [| j]; simpl in *.
  - injection Hb as ->. rewrite app_nil_r in Ha.
    apply (proj1 (is_duplicate_false _ _) Hy). rewrite Hinv.
    apply elem_of_list_to_set, list_elem_of_fmap. by exists a.
  - apply (IH (st.1 ++ [y], {[topic_key y]} ∪ st.2)) with (j := j);
      [| exact Hk | exact Hb |].
    + simpl. rewrite fmap_app, list_to_set_app_L, Hinv. simpl.
      rewrite (right_id_L ∅ (∪)). apply (comm_L (∪)).
    + simpl. by rewrite <- app_assoc.
Qed.

Lemma foldl_filter_few xs st :
  filter (λ x, (size (word_set (topic_key x)) < 2)%nat) (foldl dedup_step st xs).1
  = filter (λ x, (size (word_set (topic_key x)) < 2)%nat) st.1
    ++ filter (λ x, (size (word_set (topic_key x)) < 2)%nat) xs.
Proof.
  revert st. induction xs as [| x xs IH]; intros st; simpl.
  - by rewrite app_nil_r.
  - rewrite IH, filter_cons. case_decide as Hx.
    + rewrite (dedup_step_keep st x) by by apply few_words_never_duplicate.
      simpl. rewrite filter_app, filter_cons, decide_True by done.
      by rewrite filter_nil, <- app_assoc.
    + destruct (is_duplicate st.2 (topic_key x)) eqn:E.
      * by rewrite dedup_step_drop.
      * rewrite dedup_step_keep by done. simpl.
        rewrite filter_app, filter_cons, decide_False by done.
        by rewrite filter_nil, app_nil_r.
Qed.

Lemma foldl_dropped_has_kept_duplicate xs st :
  st.2 = list_to_set (topic_key <$> st.1) →
  ∀ x, x ∈ xs →
    x ∈ (foldl dedup_step st xs).1
    ∨ ∃ y, y ∈ (foldl dedup_step st xs).1 ∧ near_duplicate (topic_key x) (topic_key y).
Proof.
  revert st. induction xs as [| a xs IH]; intros st Hinv x Hx.
  - by apply elem_of_nil in Hx.
  - simpl. destruct (foldl_kept xs (dedup_step st a)) as (ys & Hys & _).
    assert (Hinv' : (dedup_step st a).2 = list_to_set (topic_key <$> (dedup_step st a).1)).
    { apply (seen_invariant [a] st Hinv). }
    apply elem_of_cons in Hx as [-> | Hx]; [| by apply IH].
    destruct (is_duplicate st.2 (topic_key a)) eqn:E.
    + right. pose proof E as E'. apply is_duplicate_spec in E as (s & Hs & Hd).
      rewrite Hinv in Hs.
      apply elem_of_list_to_set, list_elem_of_fmap in Hs as (y & -> & Hy).
      exists y. split; [| done].
      rewrite Hys, (dedup_step_drop st a E').
      apply elem_of_app. by left.
    + left. rewrite Hys, dedup_step_keep by done. simpl.
      rewrite !elem_of_app. left. right. apply elem_of_cons. by left.
Qed.

End DedupMore.

(** X1. The deduplicator keeps the order of its input and always keeps the
    first candidate: its result is a sublist of the input, and a non-empty
    input gives a result that starts with the input's first record. *)
Theorem deduplicate_keeps_order_and_head (xs : list topic_data) :
  Dedup._deduplicate_topics xs `sublist_of` xs ∧
  (length (Dedup._deduplicate_topics xs) ≤ length xs)%nat ∧
  ∀ x rest, xs = x :: rest → ∃ ys, Dedup._deduplicate_topics xs = x :: ys.
Proof.
  split; [apply DedupFacts.deduplicate_sublist |]. split.
  - apply sublist_length, DedupFacts.deduplicate_sublist.
  - intros x rest ->. unfold Dedup._deduplicate_topics, Dedup.dedup_state.
    cbn [foldl].
    destruct (DedupFacts.foldl_kept rest (Dedup.dedup_step ([], ∅) x)) as (ys & Hys & _).
    exists ys. rewrite Hys.
    by rewrite (DedupFacts.dedup_step_keep ([], ∅) x) by apply DedupMore.is_duplicate_empty.
Qed.

(** X2. No two records of the deduplicator's result are near-duplicates of
    each other (at least two shared words, more than 0.6 of either word
    set), whatever the input. *)
Theorem deduplicate_result_has_no_near_duplicates
    (xs : list topic_data) (i j : nat) (a b : topic_data) :
  i ≠ j →
  Dedup._deduplicate_topics xs !! i = Some a →
  Dedup._deduplicate_topics xs !! j = Some b →
  ¬ near_duplicate (Dedup.topic_key a) (Dedup.topic_key b).
Proof.
  intros Hij Ha Hb.
  destruct (DedupFacts.foldl_kept xs ([], ∅)) as (ys & Hys & Hk). simpl in Hys.
  unfold Dedup._deduplicate_topics, Dedup.dedup_state in Ha, Hb.
  rewrite Hys in Ha, Hb.
  assert (Hlt : ∀ i j a b, (i < j)%nat → ys !! i = Some a → ys !! j = Some b →
                ¬ near_duplicate (Dedup.topic_key b) (Dedup.topic_key a)).
  { clear i j a b Hij Ha Hb. intros i j a b Hlt Ha Hb.
    apply (DedupMore.kept_from_not_duplicate ys ([], ∅) eq_refl Hk j b a Hb).
    simpl. apply list_elem_of_lookup. exists i. rewrite lookup_take_lt by done. done. }
  destruct (Nat.lt_total i j) as [H | [H | H]]; [| done |].
  - intros Hd. apply (Hlt i j a b H Ha Hb). by apply DedupMore.near_duplicate_sym.
  - by apply (Hlt j i b a H Hb Ha).
Qed.

Lemma deduplicate_result_has_no_near_duplicates_witness :
  let xs := [ twitter_topic "AI SaaS tools" "SaaS growth strategy" 80;
              twitter_topic "AI SaaS tooling" "SaaS growth strategy" 85;
              twitter_topic "No-code platforms" "No-code solution comparison" 40 ] in
  ¬ near_duplicate "ai saas tools" "no-code platforms".
Proof.
  intros xs.
  apply (deduplicate_result_has_no_near_duplicates xs 0 1
           (twitter_topic "AI SaaS tools" "SaaS growth strategy" 80)
           (twitter_topic "No-code platforms" "No-code solution comparison" 40)).
  - lia.
  - vm_compute. reflexivity.
  - vm_compute. reflexivity.
Defined.

(** X3. A candidate whose lowercased topic has fewer than two distinct
    words (an empty or one-word topic) is never dropped, not even when the
    same topic was seen before: the candidates with such topics come out
    exactly as they went in. *)
Theorem deduplicate_keeps_short_topics (xs : list topic_data) :
  filter (λ x, (size (Dedup.word_set (Dedup.topic_key x)) < 2)%nat)
         (Dedup._deduplicate_topics xs)
  = filter (λ x, (size (Dedup.word_set (Dedup.topic_key x)) < 2)%nat) xs.
Proof.
  unfold Dedup._deduplicate_topics, Dedup.dedup_state.
  by rewrite DedupMore.foldl_filter_few.
Qed.

(** X4. Every candidate the deduplicator drops is a near-duplicate of a
    candidate it keeps: each input record is in the result or shares at
    least two words, more than 0.6 of either word set, with a record of
    the result. *)
Theorem deduplicate_drops_only_near_duplicates (xs : list topic_data) (x : topic_data) :
  x ∈ xs →
  x ∈ Dedup._deduplicate_topics xs
  ∨ ∃ y, y ∈ Dedup._deduplicate_topics xs
         ∧ near_duplicate (Dedup.topic_key x) (Dedup.topic_key y).
Proof.
  intros Hx. by apply (DedupMore.foldl_dropped_has_kept_duplicate xs ([], ∅)).
Qed.

Lemma deduplicate_drops_only_near_duplicates_witness :
  let a := twitter_topic "AI SaaS tools" "SaaS growth strategy" 80 in
  let b := twitter_topic "AI SaaS tooling" "SaaS growth strategy" 85 in
  b ∈ Dedup._deduplicate_topics [a; b]
  ∨ ∃ y, y ∈ Dedup._deduplicate_topics [a; b]
         ∧ near_duplicate (Dedup.topic_key b) (Dedup.topic_key y).
Proof.
  intros a b. apply (deduplicate_drops_only_near_duplicates [a; b] b).
  apply elem_of_cons. right. apply elem_of_cons. by left.
Defined.

Module StringFacts.
Import PyStr.

Lemma lower_app a b : lower (a +:+ b) = lower a +:+ lower b.
Proof. induction a as [| c a IH]; simpl; [done | by rewrite IH]. Qed.

Lemma startswith_app p s x : startswith p s = true → startswith p (s +:+ x) = true.
Proof.
  revert s. induction p as [| a p IH]; intros s; [done |].
  destruct s as [| b s]; simpl; [done |].
  destruct (Ascii.eqb a b); [apply IH | done].
Qed.

Lemma startswith_self p x : startswith p (p +:+ x) = true.
Proof. induction p as [| a p IH]; simpl; [done |]. by rewrite Ascii.eqb_refl. Qed.

Lemma contains_unfold n h :
  contains n h = startswith n h || match h with "" => false | String _ h' => contains n h' end.
Proof. by destruct h. Qed.

Lemma contains_app_r n h x : contains n h = true → contains n (h +:+ x) = true.
Proof.
  induction h as [| c h IH]; intros H.
  - destruct n; [by destruct x | done].
  - rewrite contains_unfold in H. apply orb_true_iff in H as [H | H].
    + change (String c h +:+ x) with (String c (h +:+ x)).
      rewrite contains_unfold.
      apply orb_true_iff. left. by apply (startswith_app n (String c h) x).
    + change (String c h +:+ x) with (String c (h +:+ x)).
      rewrite contains_unfold. apply orb_true_iff. right. by apply IH.
Qed.

Lemma contains_app_l n p h : contains n h = true → contains n (p +:+ h) = true.
Proof.
  intros H. induction p as [| c p IH]; [done |].
  change (String c p +:+ h) with (String c (p +:+ h)).
  rewrite contains_unfold. apply orb_true_iff. by right.
Qed.

Lemma contains_self n x : contains n (n +:+ x) = true.
Proof.
  rewrite contains_unfold. apply orb_true_iff. left. apply startswith_self.
Qed.

Lemma contains_middle n p x : contains n (p +:+ n +:+ x) = true.
Proof. apply contains_app_l, contains_self. Qed.

Lemma contains_end n p : contains n (p +:+ n) = true.
Proof.
  apply contains_app_l. rewrite contains_unfold. apply orb_true_iff. left.
  induction n as [| a n IH]; simpl; [done |]. by rewrite Ascii.eqb_refl.
Qed.

Lemma length_slice_to n s : (String.length (slice_to n s) ≤ n)%nat.
Proof.
  revert s. induction n as [| n IH]; intros s; [done |].
  destruct s as [| c s]; simpl; [lia |]. specialize (IH s). lia.
Qed.

End StringFacts.

Module RelevanceFacts.
Import ResearchAgent PyNum PyNumFacts ScorerFacts StringFacts.

Lemma filter_length_mono {A} (P Q : A → Prop) `{!∀ x, Decision (P x)} `{!∀ x, Decision (Q x)}
    (l : list A) :
  (∀ x, P x → Q x) → (length (filter P l) ≤ length (filter Q l))%nat.
Proof.
  intros HPQ. induction l as [| x l IH]; [done |].
  rewrite !filter_cons. destruct (decide (P x)) as [HP | HP].
  - rewrite decide_True by auto. simpl. lia.
  - destruct (decide (Q x)); simpl; lia.
Qed.

Lemma keyword_matches_app_l a b : (keyword_matches a ≤ keyword_matches (a +:+ b))%nat.
Proof.
  unfold keyword_matches. apply filter_length_mono. intros k Hk.
  rewrite lower_app. by apply contains_app_r.
Qed.

Lemma keyword_matches_app_r a b : (keyword_matches b ≤ keyword_matches (a +:+ b))%nat.
Proof.
  unfold keyword_matches. apply filter_length_mono. intros k Hk.
  rewrite lower_app. by apply contains_app_l.
Qed.

Lemma truediv_mono a b n : (a ≤ b)%nat → (truediv a n <= truediv b n)%Q.
Proof.
  intros Hab. unfold truediv, Qdiv. apply Qmult_le_compat_r.
  - rewrite <- Zle_Qle. lia.
  - apply Qinv_le_0_compat. change 0%Q with (inject_Z 0). rewrite <- Zle_Qle. lia.
Qed.

Lemma craefto_relevance_mono a b :
  (keyword_matches a ≤ keyword_matches b)%nat →
  (_calculate_craefto_relevance a <= _calculate_craefto_relevance b)%Q.
Proof.
  intros H. rewrite !craefto_relevance_fraction. by apply truediv_mono.
Qed.

Lemma craefto_relevance_range t :
  (0 <= _calculate_craefto_relevance t <= 1)%Q.
Proof.
  split.
  - rewrite craefto_relevance_fraction. apply truediv_nonneg.
  - unfold _calculate_craefto_relevance. apply Q.le_min_r.
Qed.

Lemma boost_of_le_30 t : (boost_of t <= 30)%Q.
Proof.
  unfold boost_of. destruct (craefto_relevance_range t) as [_ H1].
  apply Qle_trans with (1 * 30)%Q; [by apply Qmult_le_compat_r | done].
Qed.

End RelevanceFacts.

(** X5. The domain relevance of a text is a whole number of sixteenths
    between 0 and 1 (the number of the sixteen domain keywords it
    contains, over sixteen), and it never decreases when text is added in
    front of or behind the text. *)
Theorem craefto_relevance_grid_and_growth (a b : string) :
  (0 <= ResearchAgent._calculate_craefto_relevance a <= 1)%Q ∧
  (ResearchAgent.keyword_matches a ≤ 16)%nat ∧
  (ResearchAgent._calculate_craefto_relevance a
   == inject_Z (Z.of_nat (ResearchAgent.keyword_matches a)) / 16)%Q ∧
  (ResearchAgent._calculate_craefto_relevance a
   <= ResearchAgent._calculate_craefto_relevance (a +:+ b))%Q ∧
  (ResearchAgent._calculate_craefto_relevance b
   <= ResearchAgent._calculate_craefto_relevance (a +:+ b))%Q.
Proof.
  split; [apply RelevanceFacts.craefto_relevance_range |].
  split; [apply (ScorerFacts.keyword_matches_le a) |].
  split; [apply ScorerFacts.craefto_relevance_fraction |]. split.
  - apply RelevanceFacts.craefto_relevance_mono, RelevanceFacts.keyword_matches_app_l.
  - apply RelevanceFacts.craefto_relevance_mono, RelevanceFacts.keyword_matches_app_r.
Qed.

(** X6. A record the scorer is handed gets a [craefto_boost] between 0 and
    30: the keyword boost of its topic (1.875 per matching keyword),
    rounded to two decimals. *)
Theorem craefto_boost_is_stored_and_bounded
    (h : gmap ResearchAgent.loc topic_data) (topics : list ResearchAgent.loc)
    (l : ResearchAgent.loc) (d : topic_data) :
  l ∈ topics → h !! l = Some d →
  ∃ d' b, (ResearchAgent._calculate_relevance_scores h topics).1 !! l = Some d' ∧
          craefto_boost d' = Some b ∧
          b = PyNum.round2 (inject_Z (Z.of_nat (ResearchAgent.keyword_matches (get (topic d) "")))
                            * (15 # 8))%Q ∧
          (0 <= b <= 30)%Q.
Proof.
  intros Hin Hd. rewrite ScorerFacts.scores_lookup, Hd.
  pose proof (ScorerFacts.occurrences_pos l topics Hin) as Hpos.
  destruct (occurrences l topics) as [| n]; [lia |].
  pose proof (ScorerFacts.same_payload_iter n d) as (Ht & _).
  eexists _, _. split; [reflexivity |].
  change (Nat.iter (S n) ResearchAgent.score_topic d)
    with (ResearchAgent.score_topic (Nat.iter n ResearchAgent.score_topic d)).
  split; [reflexivity |]. rewrite Ht. split.
  - apply PyNumFacts.round2_comp. rewrite ScorerFacts.boost_of_fraction.
    unfold PyNum.truediv. change (length ResearchAgent.craefto_keywords) with 16%nat.
    field.
  - assert (E0 : (inject_Z 0 / 100 == 0)%Q) by reflexivity.
    assert (E1 : (inject_Z 3000 / 100 == 30)%Q) by reflexivity.
    destruct (PyNumFacts.round2_bounds (ResearchAgent.boost_of (get (topic d) "")) 0 3000)
      as [Ha Hb].
    + rewrite E0. apply ScorerFacts.boost_of_nonneg.
    + rewrite E1. apply RelevanceFacts.boost_of_le_30.
    + rewrite E0 in Ha. rewrite E1 in Hb. by split.
Qed.

Lemma craefto_boost_is_stored_and_bounded_witness :
  let d := twitter_topic "SaaS design templates" "SaaS design breakdown" 70 in
  let h : gmap ResearchAgent.loc topic_data := {[ 2%nat := d ]} in
  ∃ d' b, (ResearchAgent._calculate_relevance_scores h [2%nat]).1 !! 2%nat = Some d' ∧
          craefto_boost d' = Some b ∧
          b = PyNum.round2 (inject_Z (Z.of_nat (ResearchAgent.keyword_matches (get (topic d) "")))
                            * (15 # 8))%Q ∧
          (0 <= b <= 30)%Q.
Proof.
  intros d h. apply (craefto_boost_is_stored_and_bounded h [2%nat] 2%nat d).
  - apply elem_of_cons. by left.
  - vm_compute. reflexivity.
Defined.

(** X7. Scoring is not idempotent: running the scorer a second time on the
    same list scores every record again, from the score and with the boost
    and multiplier of the first run. *)
Theorem rescoring_compounds
    (h : gmap ResearchAgent.loc topic_data) (topics : list ResearchAgent.loc)
    (l : ResearchAgent.loc) (d : topic_data) :
  NoDup topics → l ∈ topics → h !! l = Some d →
  let '(h1, out1) := ResearchAgent._calculate_relevance_scores h topics in
  let '(h2, _) := ResearchAgent._calculate_relevance_scores h1 out1 in
  h1 !! l = Some (ResearchAgent.score_topic d) ∧
  h2 !! l = Some (ResearchAgent.score_topic (ResearchAgent.score_topic d)).
Proof.
  intros Hnd Hin Hd.
  pose proof (ScorerFacts.scores_lookup_once topics h l Hnd Hin) as H1.
  destruct (ResearchAgent._calculate_relevance_scores h topics) as [h1 out1] eqn:E1.
  assert (out1 = topics) as -> by (by inversion E1).
  pose proof (ScorerFacts.scores_lookup_once topics h1 l Hnd Hin) as H2.
  destruct (ResearchAgent._calculate_relevance_scores h1 topics) as [h2 out2] eqn:E2.
  simpl in H1, H2. rewrite Hd in H1. rewrite H1 in H2. by split.
Qed.

Lemma rescoring_compounds_witness :
  let d := reddit_topic "Pricing Page Teardown" "Pricing Page Teardown. We rebuilt ours."
                        "SaaS growth strategy" 500 3 in
  let h : gmap ResearchAgent.loc topic_data := {[ 0%nat := d ]} in
  (let '(h1, out1) := ResearchAgent._calculate_relevance_scores h [0%nat] in
   let '(h2, _) := ResearchAgent._calculate_relevance_scores h1 out1 in
   h1 !! 0%nat = Some (ResearchAgent.score_topic d) ∧
   h2 !! 0%nat = Some (ResearchAgent.score_topic (ResearchAgent.score_topic d))) ∧
  relevance_score (ResearchAgent.score_topic d) = Some (60 # 1)%Q ∧
  relevance_score (ResearchAgent.score_topic (ResearchAgent.score_topic d)) = Some (72 # 1)%Q.
Proof.
  intros d h. split.
  - apply (rescoring_compounds h [0%nat] 0%nat d).
    + apply NoDup_singleton.
    + apply elem_of_cons. by left.
    + vm_compute. reflexivity.
  - split; vm_compute; reflexivity.
Defined.

Module RankingFacts.

Lemma descending_take {A} (key : A → Q) (n : nat) (l : list A) :
  descending key l → descending key (take n l).
Proof.
  unfold descending. intros H. rewrite <- (take_drop n l) in H.
  by apply StronglySorted_app_1_l in H.
Qed.

Lemma descending_same_keys {A B} (key : A → Q) (key' : B → Q) (l : list A) (l' : list B) :
  key <$> l = key' <$> l' → descending key l → descending key' l'.
Proof.
  unfold descending. revert l'. induction l as [| x l IH]; intros l' Hk Hs.
  - destruct l'; [constructor | done].
  - destruct l' as [| x' l']; [done |]. simpl in Hk. injection Hk as Hx Hl.
    apply StronglySorted_inv in Hs as [Hs Hall]. constructor; [by apply IH |].
    rewrite <- Hx. clear IH Hs Hx x'.
    revert l' Hl. induction Hall as [| y l Hy Hall IH]; intros l' Hl.
    + destruct l'; [constructor | done].
    + destruct l' as [| y' l']; [done |]. simpl in Hl. injection Hl as Hy' Hl.
      constructor; [by rewrite <- Hy' | by apply IH].
Qed.

End RankingFacts.

Module CoordinatorMore.
Import Coordinator.

Lemma final_topics_elem (scored_topics : list topic_data) (d : topic_data) :
  d ∈ final_topics scored_topics → d ∈ scored_topics.
Proof.
  unfold final_topics. intros H.
  rewrite <- (sorted_desc_perm relevance_key scored_topics).
  eapply elem_of_sublist; [exact H | apply sublist_take].
Qed.

Lemma returned_topics_nil (tasks : list (outcome (list topic_data))) :
  Forall (λ task, task = Return [] ∨ ∃ e, task = Raise e) tasks →
  returned_topics tasks = [].
Proof.
  unfold returned_topics. induction 1 as [| task tasks Ht _ IH]; [done |].
  rewrite fmap_cons. cbn [concat]. rewrite IH. by destruct Ht as [-> | [e ->]].
Qed.

End CoordinatorMore.

(** X8. A run returns at most 20 records, and each of them is a candidate
    that one of the tasks returned, scored: it carries the two score keys
    and otherwise the fields the adapter gave it. *)
Theorem find_trending_topics_returns_scored_candidates
    (tasks : list (outcome (list topic_data))) :
  ∃ final,
    Coordinator.find_trending_topics tasks = Return final ∧
    (length final ≤ 20)%nat ∧
    (length final ≤ length (returned_topics tasks))%nat ∧
    Forall (λ d', ∃ d, d ∈ returned_topics tasks ∧ d' = ResearchAgent.score_topic d
                       ∧ same_payload d d'
                       ∧ is_Some (relevance_score d') ∧ is_Some (craefto_boost d')) final.
Proof.
  eexists. split; [apply CoordinatorFacts.find_trending_topics_returns |].
  set (unique := Dedup._deduplicate_topics (returned_topics tasks)).
  destruct (CoordinatorFacts.final_topics_spec (Coordinator.scored_values unique))
    as (rest & _ & _ & Hlen).
  assert (Hu : (length unique ≤ length (returned_topics tasks))%nat).
  { apply sublist_length, DedupFacts.deduplicate_sublist. }
  unfold Coordinator.scored_values in Hlen |- *. rewrite length_fmap in Hlen.
  split; [lia |]. split; [lia |].
  apply Forall_forall. intros d' Hd'.
  apply CoordinatorMore.final_topics_elem, list_elem_of_fmap in Hd' as (d & -> & Hd).
  exists d. split.
  - eapply elem_of_sublist; [exact Hd | apply DedupFacts.deduplicate_sublist].
  - split; [done |]. split; [apply ScorerFacts.same_payload_score |]. by split.
Qed.

(** X9. When every task raised or returned no candidate, the run still
    returns, with the empty list. *)
Theorem find_trending_topics_of_nothing (tasks : list (outcome (list topic_data))) :
  Forall (λ task, task = Return [] ∨ ∃ e, task = Raise e) tasks →
  Coordinator.find_trending_topics tasks = Return [].
Proof.
  intros H. rewrite CoordinatorFacts.find_trending_topics_returns.
  by rewrite (CoordinatorMore.returned_topics_nil tasks H).
Qed.

Lemma find_trending_topics_of_nothing_witness :
  Coordinator.find_trending_topics
    [ Raise (AttributeError "NoneType" "get"); Raise (RuntimeError "timeout");
      Return []; Return [] ]
  = Return [].
Proof.
  apply find_trending_topics_of_nothing.
  repeat apply Forall_cons_2; [right; eauto | right; eauto | by left | by left | constructor].
Defined.

Module SynthesizerMore.
Import Synthesizer SynthesizerFacts StringFacts PyNumFacts.

#[local] Arguments PyStr.slice_to : simpl never.

Lemma choice_elem (l : list string) (draws : list nat) :
  l ≠ [] → (choice l draws).1 ∈ l.
Proof.
  intros Hl. unfold choice. destruct draws as [| n draws]; simpl.
  - destruct l; [done |]. simpl. apply elem_of_cons. by left.
  - assert (Hlt : (n mod length l < length l)%nat).
    { apply Nat.mod_upper_bound. by destruct l. }
    destruct (lookup_lt_is_Some_2 l _ Hlt) as [x Hx]. rewrite Hx. simpl.
    by apply list_elem_of_lookup_2 in Hx.
Qed.

Lemma title_templates_contain_topic t format title :
  title ∈ title_templates t format → PyStr.contains t title = true.
Proof.
  intros H. destruct format; simpl in H;
    repeat (apply elem_of_cons in H as [-> | H];
            [first [apply contains_middle | apply contains_self | apply contains_end] |]);
    by apply elem_of_nil in H.
Qed.

Lemma create_content_idea_title t ctx src format draws :
  idea_title (_create_content_idea t ctx src format draws).1
  = (choice (title_templates t format) draws).1.
Proof. unfold _create_content_idea. run_rand. simpl. done. Qed.

Lemma create_content_idea_static t ctx src format draws :
  let x := (_create_content_idea t ctx src format draws).1 in
  idea_priority_score x
  = PyNum.round2 ((ResearchAgent._calculate_craefto_relevance t * 100)
                  * format_priority format)%Q ∧
  idea_target_audience x = _determine_target_audience t ∧
  idea_content_pillars x = _map_to_content_pillars t ∧
  idea_seo_keywords x = _generate_seo_keywords t.
Proof. unfold _create_content_idea. run_rand. simpl. done. Qed.

End SynthesizerMore.

Module GenerateFacts.
Import Synthesizer SynthesizerFacts.

Lemma generate_on_dicts stamp iso (ds : list topic_data) draws :
  ∃ content_ideas draws',
    collect_ideas (take 10 (PyDict <$> ds)) [] draws = (Return content_ideas, draws') ∧
    generate_content_ideas stamp iso (PyDict <$> ds) draws
    = (Return (prioritize stamp iso content_ideas),
       [ LogInfo "💡 Generating Craefto content ideas from trending data";
         LogInfo ("✅ Generated " +:+ pretty (length (prioritize stamp iso content_ideas))
                  +:+ " prioritized content ideas") ],
       draws').
Proof.
  destruct (collect_ideas_dicts (take 10 ds) [] draws) as (groups & draws' & Hr & _).
  rewrite fmap_take in Hr. exists (concat groups), draws'. split; [exact Hr |].
  unfold generate_content_ideas. unfold mbind, Rand_bind at 1. by rewrite Hr.
Qed.

Lemma prioritize_length stamp iso (content_ideas : list idea) :
  length (prioritize stamp iso content_ideas) = (5 `min` length content_ideas)%nat.
Proof.
  unfold prioritize. rewrite length_imap, length_take.
  by rewrite (sorted_desc_perm priority_key content_ideas).
Qed.

Lemma imap_priority (f : nat → idea → idea) (l : list idea) :
  (∀ i x, priority_key (f i x) = priority_key x) →
  priority_key <$> imap f l = priority_key <$> l.
Proof.
  revert f. induction l as [| x l IH]; intros f Hf; simpl; [done |].
  rewrite Hf. f_equal. apply IH. intros i y. apply Hf.
Qed.

Lemma prioritize_descending stamp iso (content_ideas : list idea) :
  descending priority_key (prioritize stamp iso content_ideas).
Proof.
  unfold prioritize.
  eapply (RankingFacts.descending_same_keys priority_key priority_key
            (take 5 (sorted_desc priority_key content_ideas))).
  - symmetry. by apply imap_priority.
  - apply RankingFacts.descending_take, sorted_desc_descending.
Qed.

Lemma prioritize_lookup stamp iso (content_ideas : list idea) i x :
  prioritize stamp iso content_ideas !! i = Some x →
  idea_id x = Some ("idea_" +:+ stamp i +:+ "_" +:+ pretty i) ∧
  idea_generated_at x = Some (iso i).
Proof.
  unfold prioritize. rewrite list_lookup_imap.
  destruct (take 5 (sorted_desc priority_key content_ideas) !! i); [| done].
  simpl. by intros [= <-].
Qed.

End GenerateFacts.

(** X10. Called on dicts only, [generate_content_ideas] returns a list of
    at most five ideas in descending order of [priority_score]; the idea at
    position [i] carries the id [idea_<timestamp>_<i>] and a
    [generated_at] time. An empty [trending_data] gives the empty list. *)
Theorem generate_content_ideas_returns_top_five
    (stamp iso : nat → string) (trending : list topic_data) (draws : list nat) :
  ∃ ideas log draws',
    Synthesizer.generate_content_ideas stamp iso (PyDict <$> trending) draws
    = (Return ideas, log, draws') ∧
    (length ideas ≤ 5)%nat ∧
    descending Synthesizer.priority_key ideas ∧
    (∀ i x, ideas !! i = Some x →
            idea_id x = Some ("idea_" +:+ stamp i +:+ "_" +:+ pretty i)
            ∧ idea_generated_at x = Some (iso i)) ∧
    (trending = [] → ideas = []) ∧
    (trending ≠ [] → ideas ≠ []).
Proof.
  destruct (GenerateFacts.generate_on_dicts stamp iso trending draws)
    as (content_ideas & draws' & Hbody & Hrun).
  eexists _, _, _. split; [exact Hrun |].
  pose proof (GenerateFacts.prioritize_length stamp iso content_ideas) as Hlen.
  split; [lia |]. split; [apply GenerateFacts.prioritize_descending |].
  split; [apply GenerateFacts.prioritize_lookup |]. split.
  - intros ->. simpl in Hbody. injection Hbody as <- _. done.
  - intros Hne.
    destruct (SynthesizerFacts.collect_ideas_dicts (take 10 trending) [] draws)
      as (groups & draws'' & Hr & Hall).
    rewrite fmap_take, Hbody in Hr. injection Hr as -> _.
    destruct trending as [| d trending]; [done |].
    apply Forall2_cons_inv_l in Hall as (g & gs & [Hf _] & _ & ->).
    assert (g ≠ []) as Hg.
    { intros ->. unfold Synthesizer.formats_for in Hf.
      by destruct (PyNum.gtb _ _). }
    intros Hnil. apply (f_equal length) in Hnil. rewrite Hlen in Hnil.
    simpl in Hnil. rewrite length_app in Hnil. destruct g; [done |]. simpl in Hnil. lia.
Qed.

(** X11. Only the first ten elements of [trending_data] are read: whatever
    follows them, dicts or not, changes nothing, and so never makes the
    call fail. *)
Theorem generate_content_ideas_reads_ten
    (stamp iso : nat → string) (first_ten rest : list pyobj) (draws : list nat) :
  length first_ten = 10%nat →
  Synthesizer.generate_content_ideas stamp iso (first_ten ++ rest) draws
  = Synthesizer.generate_content_ideas stamp iso first_ten draws.
Proof.
  intros Hlen. unfold Synthesizer.generate_content_ideas.
  by rewrite take_app_le, (take_ge first_ten) by lia.
Qed.

Lemma generate_content_ideas_reads_ten_witness :
  let ten := (λ n : nat, PyDict (twitter_topic ("trend" +:+ pretty n) "Design trend analysis"
                                               (inject_Z (Z.of_nat n)))) <$> seq 1 10 in
  Synthesizer.generate_content_ideas (λ _, "20240101_120000") (λ _, "2024-01-01T12:00:00")
                                     (ten ++ [PyNone; PyStr "junk"]) [5; 3; 1]%nat
  = Synthesizer.generate_content_ideas (λ _, "20240101_120000") (λ _, "2024-01-01T12:00:00")
                                       ten [5; 3; 1]%nat.
Proof.
  intros ten. apply generate_content_ideas_reads_ten. reflexivity.
Defined.

(** X12. The [priority_score] of an idea depends on its topic and format
    only: it is the topic's domain relevance in percent times the format
    weight, between 0 and 100, and for one topic the blog idea never ranks
    below the email idea, nor the email idea below the social one. *)
Theorem priority_score_by_format (t ctx src : string) (draws1 draws2 draws3 : list nat) :
  let p := λ format draws,
    idea_priority_score (Synthesizer._create_content_idea t ctx src format draws).1 in
  (∀ format draws,
     p format draws
     = PyNum.round2 (ResearchAgent._calculate_craefto_relevance t * 100
                     * Synthesizer.format_priority format)%Q) ∧
  (0 <= p social draws3)%Q ∧
  (p social draws3 <= p email draws2)%Q ∧
  (p email draws2 <= p blog draws1)%Q ∧
  (p blog draws1 <= 100)%Q.
Proof.
  intros p.
  assert (Hp : ∀ format draws,
             p format draws
             = PyNum.round2 (ResearchAgent._calculate_craefto_relevance t * 100
                             * Synthesizer.format_priority format)%Q).
  { intros format draws. apply SynthesizerMore.create_content_idea_static. }
  destruct (RelevanceFacts.craefto_relevance_range t) as [H0 H1].
  assert (Hr0 : (0 <= ResearchAgent._calculate_craefto_relevance t * 100)%Q).
  { by apply Qmult_le_0_compat. }
  assert (Hr1 : (ResearchAgent._calculate_craefto_relevance t * 100 <= 100)%Q).
  { apply Qle_trans with (1 * 100)%Q; [by apply Qmult_le_compat_r | done]. }
  split; [exact Hp |]. rewrite !Hp. simpl Synthesizer.format_priority.
  split; [| split; [| split]].
  - apply PyNumFacts.round2_range.
    + by apply Qmult_le_0_compat.
    + apply Qle_trans with (ResearchAgent._calculate_craefto_relevance t * 100 * 1)%Q.
      * rewrite !(Qmult_comm (ResearchAgent._calculate_craefto_relevance t * 100)).
        by apply Qmult_le_compat_r.
      * by rewrite Qmult_1_r.
  - apply PyNumFacts.round2_mono.
    rewrite !(Qmult_comm (ResearchAgent._calculate_craefto_relevance t * 100)).
    by apply Qmult_le_compat_r.
  - apply PyNumFacts.round2_mono.
    rewrite !(Qmult_comm (ResearchAgent._calculate_craefto_relevance t * 100)).
    by apply Qmult_le_compat_r.
  - apply PyNumFacts.round2_range; rewrite Qmult_1_r; done.
Qed.

(** X13. Every idea [_create_content_idea] builds has a title that is one
    of the format's templates and contains the topic, a context of at most
    200 characters, two target audiences, at least one content pillar, and
    three SEO keywords: the lowercased topic alone, followed by "saas
    design", and followed by "framer templates". *)
Theorem content_idea_shape (t ctx src : string) (format : format_type) (draws : list nat) :
  let x := (Synthesizer._create_content_idea t ctx src format draws).1 in
  idea_title x ∈ Synthesizer.title_templates t format ∧
  PyStr.contains t (idea_title x) = true ∧
  idea_topic x = t ∧ idea_format x = format ∧ idea_source_trend x = src ∧
  idea_context x = PyStr.slice_to 200 ctx ∧
  (String.length (idea_context x) ≤ 200)%nat ∧
  length (idea_target_audience x) = 2%nat ∧
  idea_content_pillars x ≠ [] ∧
  idea_seo_keywords x
  = [ PyStr.lower t; PyStr.lower t +:+ " saas design";
      PyStr.lower t +:+ " framer templates" ].
Proof.
  intros x.
  pose proof (SynthesizerFacts.create_content_idea_fields t ctx src format draws)
    as (Hf & Ht & Hs & Hc & _).
  pose proof (SynthesizerMore.create_content_idea_static t ctx src format draws)
    as (_ & Ha & Hp & Hk).
  assert (Htitle : idea_title x ∈ Synthesizer.title_templates t format).
  { unfold x. rewrite SynthesizerMore.create_content_idea_title.
    apply SynthesizerMore.choice_elem. by destruct format. }
  split; [exact Htitle |].
  split; [by apply (SynthesizerMore.title_templates_contain_topic t format) |].
  split; [exact Ht |]. split; [exact Hf |]. split; [exact Hs |]. split; [exact Hc |].
  split; [fold x in Hc; rewrite Hc; apply StringFacts.length_slice_to |].
  split; [| split].
  - fold x in Ha. rewrite Ha. unfold Synthesizer._determine_target_audience.
    repeat (destruct (PyStr.any_in _ _); [reflexivity |]). reflexivity.
  - fold x in Hp. rewrite Hp. unfold Synthesizer._map_to_content_pillars.
    cbv zeta.
    repeat (destruct (PyStr.any_in _ _)); simpl; discriminate.
  - fold x in Hk. rewrite Hk. reflexivity.
Qed.

Module AdapterFacts.
Import ResearchAgent Adapters PyNum PyNumFacts ScorerFacts.

Lemma random_range draws : (0 <= (random draws).1 < 1)%Q.
Proof.
  unfold random. destruct draws as [| n draws]; simpl; [done |].
  pose proof (Z.mod_pos_bound (Z.of_nat n) (2 ^ 53) ltac:(done)) as [H0 H1].
  unfold Qle, Qlt. simpl. split; [lia |].
  rewrite Z.mul_1_r. exact H1.
Qed.

Lemma uniform_range a b draws :
  (a <= b)%Q → (a <= (uniform a b draws).1 ∧ (uniform a b draws).1 <= b)%Q.
Proof.
  intros Hab. unfold uniform, mbind, Rand_bind, mret, Rand_ret.
  pose proof (random_range draws) as [H0 H1].
  destruct (random draws) as [u draws']. simpl in *.
  assert (Hd : (0 <= b - a)%Q).
  { apply (Qplus_le_l _ _ a). ring_simplify. exact Hab. }
  split.
  - rewrite <- (Qplus_0_r a) at 1. apply Qplus_le_r. by apply Qmult_le_0_compat.
  - apply Qle_trans with (a + (b - a) * 1)%Q.
    + apply Qplus_le_r. rewrite !(Qmult_comm (b - a)).
      apply Qmult_le_compat_r; [by apply Qlt_le_weak | done].
    + ring_simplify. apply Qle_refl.
Qed.

(** The loop builds one candidate per topic, in order. *)
Lemma twitter_loop_spec (topics : list string) (i : nat) draws :
  Forall2 (λ '(j, t) d,
             topic d = Some t ∧ source d = Some "twitter" ∧
             context d = Some ("Trending SaaS topic: " +:+ t) ∧
             ∃ s, relevance_score d = Some s ∧
                  (60 - inject_Z (Z.of_nat j) * 3 <= s
                   ∧ s <= 95 - inject_Z (Z.of_nat j) * 3)%Q)
          (zip (seq i (length topics)) topics) (twitter_loop i topics draws).1.
Proof.
  revert i draws. induction topics as [| t topics IH]; intros i draws; simpl.
  - unfold mret, Rand_ret. simpl. constructor.
  - unfold mbind, Rand_bind.
    pose proof (uniform_range 60 95 draws ltac:(done)) as [Hlo Hhi].
    destruct (uniform 60 95 draws) as [u draws1]. simpl in Hlo, Hhi.
    destruct (Synthesizer._generate_craefto_angle t draws1) as [angle draws2].
    specialize (IH (S i) draws2).
    destruct (twitter_loop (S i) topics draws2) as [tl draws3].
    unfold mret, Rand_ret. simpl in *. constructor; [| exact IH].
    repeat split. eexists. split; [reflexivity |]. split.
    + by apply Qplus_le_l.
    + by apply Qplus_le_l.
Qed.

Lemma google_loop_none (trends : list string) draws :
  Forall (λ trend, PyNum.gtb (_calculate_craefto_relevance trend * 100) 30 = false) trends →
  google_loop trends draws = ([], draws).
Proof.
  induction 1 as [| trend trends Ht _ IH]; simpl; [done |].
  by rewrite Ht.
Qed.

Lemma google_threshold trend :
  PyNum.gtb (_calculate_craefto_relevance trend * 100) 30 = true
  ↔ (5 ≤ keyword_matches trend)%nat.
Proof.
  rewrite gtb_lt, craefto_relevance_fraction.
  unfold truediv. change (length craefto_keywords) with 16%nat.
  unfold Qlt, Qdiv, Qmult, Qinv. simpl. lia.
Qed.

Lemma scrape_twitter_trends_spec (draws : list nat) :
  let topics := (_scrape_twitter_trends draws).1 in
  topic <$> topics
  = [ Some "AI SaaS tools"; Some "No-code platforms"; Some "SaaS analytics";
      Some "Customer success tools"; Some "SaaS pricing models"; Some "API-first SaaS" ] ∧
  Forall (λ d, source d = Some "twitter") topics ∧
  (∀ i d, topics !! i = Some d →
          ∃ s, relevance_score d = Some s ∧
               (60 - inject_Z (Z.of_nat i) * 3 <= s ∧ s <= 95 - inject_Z (Z.of_nat i) * 3)%Q ∧
               (45 <= s ∧ s <= 95)%Q).
Proof.
  intros topics. unfold topics, _scrape_twitter_trends, mbind, Rand_bind, mret, Rand_ret.
  pose proof (twitter_loop_spec trending_saas_topics 0 draws) as H.
  destruct (twitter_loop 0 trending_saas_topics draws) as [l draws'].
  simpl fst in *.
  unfold trending_saas_topics in H. simpl zip in H.
  repeat (let HP := fresh "HP" in
          apply Forall2_cons_inv_l in H as (? & ? & HP & H & ->);
          simpl in HP; destruct HP as (? & ? & ? & ? & ? & ? & ?)).
  apply Forall2_nil_inv_l in H as ->. simpl take.
  split; [simpl; congruence |]. split; [repeat constructor; done |].
  intros i d Hi.
  do 6 (destruct i as [| i];
        [injection Hi as <-; eexists; split; [eassumption |];
         split; [split; assumption |];
         split; [eapply Qle_trans; [| eassumption]; done
                | eapply Qle_trans; [eassumption |]; done] |]).
  done.
Qed.

Lemma scrape_google_trends_empty (draws : list nat) :
  _scrape_google_trends draws = ([], draws).
Proof.
  unfold _scrape_google_trends, mbind, Rand_bind.
  rewrite google_loop_none; [done |].
  apply (bool_decide_unpack _). vm_compute. reflexivity.
Qed.

End AdapterFacts.

(** X14. The social-trend adapter always returns six candidates, for the
    first six of its ten built-in topics in their order, each with source
    [twitter]; the score of the candidate at position [i] lies between
    [60 - 3i] and [95 - 3i], so every score is between 45 and 95. *)
Theorem twitter_adapter_returns_six (draws : list nat) :
  let topics := (Adapters._scrape_twitter_trends draws).1 in
  topic <$> topics
  = [ Some "AI SaaS tools"; Some "No-code platforms"; Some "SaaS analytics";
      Some "Customer success tools"; Some "SaaS pricing models"; Some "API-first SaaS" ] ∧
  Forall (λ d, source d = Some "twitter") topics ∧
  (∀ i d, topics !! i = Some d →
          ∃ s, relevance_score d = Some s ∧
               (60 - inject_Z (Z.of_nat i) * 3 <= s ∧ s <= 95 - inject_Z (Z.of_nat i) * 3)%Q ∧
               (45 <= s ∧ s <= 95)%Q).
Proof. apply AdapterFacts.scrape_twitter_trends_spec. Qed.

(** X15. The search-trend adapter returns no candidate at all: a trend is
    taken only when more than 30 percent of the domain keywords occur in
    it, that is at least five of the sixteen, and no built-in trend
    contains more than one. *)
Theorem google_adapter_returns_nothing (draws : list nat) :
  Adapters._scrape_google_trends draws = ([], draws) ∧
  (∀ trend, PyNum.gtb (ResearchAgent._calculate_craefto_relevance trend * 100) 30 = true
            ↔ (5 ≤ ResearchAgent.keyword_matches trend)%nat) ∧
  Forall (λ trend, (ResearchAgent.keyword_matches trend ≤ 1)%nat) Adapters.web_dev_trends.
Proof.
  split; [| split].
  - apply AdapterFacts.scrape_google_trends_empty.
  - apply AdapterFacts.google_threshold.
  - apply (bool_decide_unpack _). vm_compute. reflexivity.
Qed.

Module WordFacts.
Import PyStr.

Lemma string_of_list_ascii_app l1 l2 :
  string_of_list_ascii (l1 ++ l2) = string_of_list_ascii l1 +:+ string_of_list_ascii l2.
Proof. induction l1 as [| c l1 IH]; simpl; [done | by rewrite IH]. Qed.

Lemma is_word_of_list (cur : list ascii) :
  cur ≠ [] → Forall (λ c, isspace c = false) cur →
  is_word (string_of_list_ascii (rev cur)).
Proof.
  intros Hne Hall. split.
  - destruct cur as [| c cur]; [done |]. simpl. rewrite string_of_list_ascii_app.
    destruct (string_of_list_ascii (rev cur)); done.
  - rewrite list_ascii_of_string_of_list_ascii. by apply Forall_rev.
Qed.

Lemma flush_words cur acc :
  Forall (λ c, isspace c = false) cur → Forall is_word acc → Forall is_word (flush cur acc).
Proof.
  intros Hc Ha. destruct cur as [| c cur]; [done |].
  constructor; [by apply is_word_of_list | done].
Qed.

Lemma split_go_words s cur :
  Forall (λ c, isspace c = false) cur → Forall is_word (split_go s cur).
Proof.
  revert cur. induction s as [| c s IH]; intros cur Hc; simpl.
  - by apply flush_words.
  - destruct (isspace c) eqn:E.
    + apply flush_words; [done | by apply IH].
    + apply IH. by constructor.
Qed.

Lemma split_words s : Forall is_word (split s).
Proof. by apply split_go_words. Qed.

Lemma split_go_word_prefix w x cur :
  Forall (λ c, isspace c = false) (list_ascii_of_string w) →
  split_go (w +:+ x) cur = split_go x (rev (list_ascii_of_string w) ++ cur).
Proof.
  revert cur. induction w as [| c w IH]; intros cur Hw; [done |].
  simpl in Hw. apply Forall_cons_1 in Hw as [Hc Hw].
  simpl. rewrite Hc, IH by done. by rewrite <- app_assoc.
Qed.

Lemma rev_chars_nonempty w : w ≠ "" → rev (list_ascii_of_string w) ≠ [].
Proof.
  destruct w as [| c w]; [done |]. intros _. simpl.
  by destruct (rev (list_ascii_of_string w)).
Qed.

Lemma flush_word w acc :
  w ≠ "" → flush (rev (list_ascii_of_string w)) acc = w :: acc.
Proof.
  intros Hw. pose proof (rev_chars_nonempty w Hw) as Hne.
  unfold flush. destruct (rev (list_ascii_of_string w)) as [| c l] eqn:E; [done |].
  rewrite <- E, rev_involutive. by rewrite string_of_list_ascii_of_string.
Qed.

Lemma append_empty_r s : s +:+ "" = s.
Proof.
  induction s as [| c s IH]; [done |].
  change (String c s +:+ "") with (String c (s +:+ "")). by rewrite IH.
Qed.

Lemma split_go_word w cur :
  Forall (λ c, isspace c = false) (list_ascii_of_string w) →
  split_go w cur = flush (rev (list_ascii_of_string w) ++ cur) [].
Proof.
  intros Hw. rewrite <- (append_empty_r w) at 1. by rewrite split_go_word_prefix.
Qed.

Lemma split_join (ws : list string) : Forall is_word ws → split (join " " ws) = ws.
Proof.
  unfold split. induction 1 as [| w ws [Hne Hw] Hws IH]; [done |].
  destruct ws as [| w' ws].
  - simpl. rewrite split_go_word, app_nil_r by done. by apply flush_word.
  - change (join " " (w :: w' :: ws)) with (w +:+ " " +:+ join " " (w' :: ws)).
    rewrite split_go_word_prefix, app_nil_r by done.
    change (" " +:+ join " " (w' :: ws)) with (String " " (join " " (w' :: ws))).
    cbn [split_go]. change (isspace " ") with true. cbv iota.
    rewrite flush_word by done. by rewrite IH.
Qed.

Lemma isspace_lower_char c : isspace (lower_char c) = isspace c.
Proof. by destruct c as [[] [] [] [] [] [] [] []]. Qed.

Lemma isspace_upper_char c : isspace (upper_char c) = isspace c.
Proof. by destruct c as [[] [] [] [] [] [] [] []]. Qed.

Lemma same_shape_title_go b s : same_shape s (title_go b s).
Proof.
  revert b. induction s as [| c s IH]; intros b; simpl; [done |].
  split; [| apply IH]. destruct b; by rewrite ?isspace_lower_char, ?isspace_upper_char.
Qed.

Lemma split_go_same_shape s s' cur cur' :
  same_shape s s' → (cur = [] ↔ cur' = []) →
  length (split_go s cur) = length (split_go s' cur').
Proof.
  revert s' cur cur'. induction s as [| c s IH]; intros [| c' s'] cur cur' Hs Hc; try done.
  - simpl. destruct cur, cur'; try done; by (destruct Hc as [H1 H2]; first [specialize (H1 eq_refl) | specialize (H2 eq_refl)]).
  - destruct Hs as [Hcc Hs]. simpl. rewrite <- Hcc. destruct (isspace c).
    + specialize (IH s' [] [] Hs ltac:(done)).
      destruct cur, cur'; simpl; try (by rewrite IH);
        by (destruct Hc as [H1 H2]; first [specialize (H1 eq_refl) | specialize (H2 eq_refl)]).
    + by apply IH.
Qed.

Lemma split_title_length s : length (split (title s)) = length (split s).
Proof. symmetry. apply split_go_same_shape; [apply same_shape_title_go | done]. Qed.

End WordFacts.

#[local] Arguments PyStr.slice_to : simpl never.

Module NormalizerFacts.
Import Normalizer WordFacts.

Lemma Forall_filter_list {A} (P : A → Prop) (Q : A → Prop) `{!∀ x, Decision (Q x)}
    (l : list A) :
  Forall P l → Forall P (filter Q l).
Proof.
  induction 1 as [| x l Hx Hl IH]; [constructor |].
  rewrite filter_cons. destruct (decide (Q x)); [by constructor | done].
Qed.

Lemma meaningful_words_words text : Forall is_word (meaningful_words text).
Proof. unfold meaningful_words. apply Forall_filter_list, split_words. Qed.

Lemma first_tech_phrase_window (words : list string) (phrase : string) :
  first_tech_phrase words = Some phrase →
  ∃ i, phrase = PyStr.join " " (take 3 (drop i words)) ∧ (2 ≤ length (drop i words))%nat.
Proof.
  induction words as [| w words IH]; [done |].
  destruct words as [| w' words]; [done |].
  cbn [first_tech_phrase].
  destruct (PyStr.any_in tech_keywords (PyStr.join " " (take 3 (w :: w' :: words)))).
  - intros [= <-]. exists 0%nat. split; [done |]. simpl. lia.
  - intros H. destruct (IH H) as (i & -> & Hlen). by exists (S i).
Qed.

Lemma chosen_words_count (ws : list string) :
  Forall is_word ws →
  length (PyStr.split (PyStr.title (PyStr.join " " ws))) = length ws.
Proof. intros Hw. by rewrite split_title_length, split_join. Qed.

End NormalizerFacts.

Module WindowFacts.
Import Normalizer.

Lemma first_tech_phrase_some (words : list string) (phrase : string) :
  first_tech_phrase words = Some phrase →
  ∃ i, phrase = PyStr.join " " (take 3 (drop i words)) ∧
       (i + 2 ≤ length words)%nat ∧ tech_window words i ∧
       ∀ j, (j < i)%nat → ¬ tech_window words j.
Proof.
  induction words as [| w words IH]; [done |].
  destruct words as [| w' words]; [done |].
  cbn [first_tech_phrase].
  destruct (PyStr.any_in tech_keywords (PyStr.join " " (take 3 (w :: w' :: words)))) eqn:E.
  - intros [= <-]. exists 0%nat. split; [done |]. split; [simpl; lia |].
    split; [exact E |]. intros j Hj. lia.
  - intros H. destruct (IH H) as (i & -> & Hlen & Hi & Hmin).
    exists (S i). split; [done |]. split; [simpl in *; lia |]. split; [exact Hi |].
    intros [| j] Hj.
    + unfold tech_window. rewrite drop_0. by rewrite E.
    + apply Hmin. lia.
Qed.

Lemma first_tech_phrase_none (words : list string) :
  first_tech_phrase words = None →
  ∀ j, (j + 2 ≤ length words)%nat → ¬ tech_window words j.
Proof.
  induction words as [| w words IH]; [simpl; intros _ j Hj; lia |].
  destruct words as [| w' words]; [simpl; intros _ j Hj; lia |].
  cbn [first_tech_phrase].
  destruct (PyStr.any_in tech_keywords (PyStr.join " " (take 3 (w :: w' :: words)))) eqn:E;
    [done |].
  intros H [| j] Hj.
  - unfold tech_window. rewrite drop_0. by rewrite E.
  - apply (IH H j). simpl in *. lia.
Qed.

End WindowFacts.

(** X16. What the normalizer extracts. When the text has no meaningful
    word (none longer than two characters that is not a stop word), the
    topic is the first 50 characters of the text as they are, however many
    words these hold. Otherwise it is the title-cased phrase of the
    meaningful words of one window [words[i:i+3]], so of one to three
    words: the first window that contains a tech keyword, among those
    starting before the last word, and the window at 0 when there is
    none. *)
Theorem normalized_topic_window (text : string) :
  let words := Normalizer.meaningful_words text in
  let r := Normalizer._extract_topic_from_text text in
  (words = [] → r = PyStr.slice_to 50 text ∧ (String.length r ≤ 50)%nat) ∧
  (words ≠ [] →
   ∃ i, let chosen := take 3 (drop i words) in
        r = PyStr.title (PyStr.join " " chosen) ∧
        ((i + 2 ≤ length words)%nat ∧ tech_window words i
           ∧ (∀ j, (j < i)%nat → ¬ tech_window words j)
         ∨ i = 0%nat ∧ ∀ j, (j + 2 ≤ length words)%nat → ¬ tech_window words j) ∧
        length (PyStr.split r) = length chosen ∧
        (1 ≤ length chosen ≤ 3)%nat ∧
        ((2 ≤ length words)%nat → (2 ≤ length chosen)%nat)).
Proof.
  intros words r. unfold r, Normalizer._extract_topic_from_text. fold words.
  pose proof (NormalizerFacts.meaningful_words_words text) as Hw. fold words in Hw.
  split.
  - intros ->. simpl. split; [done | apply StringFacts.length_slice_to].
  - intros Hne. destruct (2 <=? length words)%nat eqn:E.
    + apply Nat.leb_le in E.
      destruct (Normalizer.first_tech_phrase words) as [phrase |] eqn:Ep.
      * apply WindowFacts.first_tech_phrase_some in Ep as (i & -> & Hlen & Hi & Hmin).
        exists i. cbv zeta. split; [done |]. split; [by left |].
        split; [apply NormalizerFacts.chosen_words_count, Forall_take, Forall_drop, Hw |].
        rewrite length_take, length_drop. lia.
      * pose proof (WindowFacts.first_tech_phrase_none words Ep) as Hnone.
        exists 0%nat. cbv zeta. rewrite drop_0. split; [done |]. split; [by right |].
        split; [apply NormalizerFacts.chosen_words_count, Forall_take, Hw |].
        rewrite length_take. lia.
    + apply Nat.leb_gt in E. exists 0%nat. cbv zeta. rewrite drop_0.
      destruct words as [| w [| w' words]]; [done | | simpl in E; lia].
      simpl take. split; [done |].
      split; [right; split; [done |]; intros j Hj; simpl in Hj; lia |].
      split; [by apply NormalizerFacts.chosen_words_count |]. simpl. lia.
Qed.

(** The five words of this text are all short or stop words, so the text
    itself is the topic. *)
Example normalized_topic_fallback_ex :
  Normalizer.meaningful_words "AI or ML in UX" = [] ∧
  Normalizer._extract_topic_from_text "AI or ML in UX" = "AI or ML in UX" ∧
  length (PyStr.split (Normalizer._extract_topic_from_text "AI or ML in UX")) = 5%nat.
Proof. vm_compute. done. Qed.

Module RedditFacts.
Import Adapters.

Lemma reddit_loop_spec (now : Q) (posts : list reddit_post) draws :
  let topics := (reddit_loop now posts draws).1 in
  (length topics ≤ length posts)%nat ∧
  Forall (λ d, ∃ post, post ∈ posts ∧ built_from_post now post d) topics.
Proof.
  revert draws. induction posts as [| post posts IH]; intros draws.
  - simpl. split; [done | constructor].
  - assert (Hskip : ∀ draws,
              (length (reddit_loop now posts draws).1 ≤ length (post :: posts))%nat ∧
              Forall (λ d, ∃ p, p ∈ post :: posts ∧ built_from_post now p d)
                     (reddit_loop now posts draws).1).
    { intros draws0. destruct (IH draws0) as [Hlen Hall]. split; [simpl; lia |].
      eapply Forall_impl; [exact Hall |]. intros d (p & Hp & Hb).
      exists p. split; [by apply elem_of_cons; right | done]. }
    cbn [reddit_loop]. cbv zeta.
    destruct (get (post_stickied post) false) eqn:Es; [apply Hskip |].
    destruct (PyNum.gtb _ 48) eqn:Ea; [apply Hskip |].
    destruct (3 <? String.length _)%nat eqn:El; [| apply Hskip].
    unfold mbind, Rand_bind, mret, Rand_ret.
    destruct (Synthesizer._generate_craefto_angle _ draws) as [angle draws1].
    destruct (Hskip draws1) as [Hlen Hall].
    destruct (IH draws1) as [Hlen' _].
    destruct (reddit_loop now posts draws1) as [tl draws2]. simpl in *.
    split; [lia |]. constructor; [| exact Hall].
    exists post. split; [by apply elem_of_cons; left |].
    unfold built_from_post. cbv zeta. split; [exact Es |].
    split; [by apply PyNumFacts.gtb_le |].
    split; [reflexivity |]. split; [by apply Nat.ltb_lt |]. done.
Qed.

End RedditFacts.

(** X17. The forum adapter never raises and returns at most ten
    candidates. Each comes from a post of a successful (status 200)
    response that is not stickied and not older than 48 hours and whose
    normalized title is longer than three characters; it carries the
    post's vote count as [raw_score] and a tenth of it, capped at 100, as
    [relevance_score], which is not negative when the vote count is not.
    A failed request or another status gives the empty list. *)
Theorem reddit_adapter_candidates
    (now : Q) (fetched : outcome (Adapters.response (list Adapters.reddit_post)))
    (draws : list nat) :
  let topics := (Adapters._scrape_reddit_saas now fetched draws).1 in
  (length topics ≤ 10)%nat ∧
  Forall (λ d, ∃ r post, fetched = Return r ∧ Adapters.status r = 200%nat ∧
                         post ∈ Adapters.body r ∧ built_from_post now post d ∧
                         ∃ s, relevance_score d = Some s ∧ (s <= 100)%Q ∧
                              ((0 <= get (Adapters.post_score post) 0)%Q → (0 <= s)%Q))
         topics ∧
  (∀ e, fetched = Raise e → topics = []) ∧
  (∀ r, fetched = Return r → Adapters.status r ≠ 200%nat → topics = []).
Proof.
  intros topics. unfold topics, Adapters._scrape_reddit_saas.
  destruct fetched as [r | e].
  - destruct (Adapters.status r =? 200)%nat eqn:Es.
    + apply Nat.eqb_eq in Es.
      unfold mbind, Rand_bind, mret, Rand_ret.
      pose proof (RedditFacts.reddit_loop_spec now (Adapters.body r) draws) as [_ Hall].
      destruct (Adapters.reddit_loop now (Adapters.body r) draws) as [l draws'].
      simpl fst in *. split; [rewrite length_take; lia |]. split; [| split].
      * apply Forall_take. eapply Forall_impl; [exact Hall |].
        intros d (post & Hp & Hb). exists r, post.
        split; [done |]. split; [done |]. split; [done |]. split; [done |].
        destruct Hb as (_ & _ & _ & _ & _ & _ & Hrel).
        eexists. split; [exact Hrel |]. split; [apply Q.le_min_r |].
        intros H0. apply Q.min_glb; [| done].
        apply Qle_shift_div_l; [done |]. by rewrite Qmult_0_l.
      * intros e [=].
      * intros r' [= <-] Hne. done.
    + simpl. split; [lia |]. split; [constructor |]. split; [done |]. done.
  - simpl. split; [lia |]. split; [constructor |]. split; done.
Qed.

Module ProductFacts.
Import Adapters PyNumFacts.

Lemma saas_matches_le text : (saas_matches text ≤ 16)%nat.
Proof. unfold saas_matches. apply (length_filter _ saas_keywords). Qed.

Lemma saas_relevance_fraction text :
  (_calculate_saas_relevance text == inject_Z (Z.of_nat (saas_matches text)) / 16)%Q.
Proof.
  change (inject_Z (Z.of_nat (saas_matches text)) / 16)%Q
    with (PyNum.truediv (saas_matches text) 16).
  unfold _calculate_saas_relevance. apply Q.min_l.
  apply ScorerFacts.truediv_le_1; [apply saas_matches_le | lia].
Qed.

Lemma saas_threshold text :
  PyNum.gtb (_calculate_saas_relevance text) (3 # 10) = true ↔ (5 ≤ saas_matches text)%nat.
Proof.
  rewrite gtb_lt. rewrite saas_relevance_fraction.
  pose proof (saas_matches_le text) as Hle.
  unfold Qlt, Qdiv, Qmult, Qinv. simpl. lia.
Qed.

Lemma producthunt_loop_built (products : list product_card) draws :
  Forall2 built_from_product
    (filter (λ card, product_taken card = true) products)
    (producthunt_loop products draws).1.
Proof.
  revert draws. induction products as [| product products IH]; intros draws.
  - simpl. constructor.
  - rewrite filter_cons.
    destruct (decide (product_taken product = true)) as [Ht | Ht];
      unfold product_taken in Ht; cbn [producthunt_loop];
      destruct (name_elem product) as [name_text |] eqn:En; try done; try apply IH;
      destruct (desc_elem product) as [desc_text |] eqn:Ed; try done; try apply IH;
      cbv zeta.
    + rewrite Ht. unfold mbind, Rand_bind, mret, Rand_ret.
      destruct (Synthesizer._generate_craefto_angle _ draws) as [angle draws1].
      specialize (IH draws1).
      destruct (producthunt_loop products draws1) as [tl draws2]. simpl in *.
      constructor; [| exact IH].
      exists name_text, desc_text. split; [exact En |]. split; [exact Ed |].
      cbv zeta. simpl. split; [| done].
      f_equal. destruct (Normalizer._extract_topic_from_text _); [done |].
      by rewrite decide_False.
    + destruct (PyNum.gtb _ (3 # 10)); [done | apply IH].
Qed.

Lemma scrape_producthunt_ok (r : response (list product_card)) draws :
  status r = 200%nat →
  (_scrape_producthunt (Return r) draws).1
  = take 8 (producthunt_loop (take 15 (body r)) draws).1.
Proof.
  intros Hs. unfold _scrape_producthunt. rewrite Hs, Nat.eqb_refl.
  unfold mbind, Rand_bind, mret, Rand_ret.
  by destruct (producthunt_loop (take 15 (body r)) draws).
Qed.

End ProductFacts.

(** X18. The product-launch adapter never raises. From a response with
    status 200 it returns one candidate for each of the first eight
    products, among the first fifteen elements, that have a name and a
    description in which more than 0.3 of the sixteen SaaS keywords
    occur, that is at least five of them; the candidates are in the
    products' order, each with source [producthunt], the product's name,
    and as [relevance_score] the share of the SaaS keywords found, in
    percent. A failed request or another status gives the empty list. *)
Theorem producthunt_adapter_candidates
    (fetched : outcome (Adapters.response (list Adapters.product_card)))
    (draws : list nat) :
  let topics := (Adapters._scrape_producthunt fetched draws).1 in
  (length topics ≤ 8)%nat ∧
  (∀ r, fetched = Return r → Adapters.status r = 200%nat →
     Forall2 built_from_product
       (take 8 (filter (λ card, product_taken card = true) (take 15 (Adapters.body r))))
       topics) ∧
  (∀ e, fetched = Raise e → topics = []) ∧
  (∀ r, fetched = Return r → Adapters.status r ≠ 200%nat → topics = []) ∧
  (∀ text,
     (Adapters._calculate_saas_relevance text
      == inject_Z (Z.of_nat (Adapters.saas_matches text)) / 16)%Q ∧
     (Adapters.saas_matches text ≤ 16)%nat ∧
     (PyNum.gtb (Adapters._calculate_saas_relevance text) (3 # 10) = true
      ↔ (5 ≤ Adapters.saas_matches text)%nat)).
Proof.
  intros topics. unfold topics.
  split; [| split; [| split; [| split]]].
  - destruct fetched as [r | e]; [| cbv; lia].
    destruct (Adapters.status r =? 200)%nat eqn:Es.
    + apply Nat.eqb_eq in Es. rewrite (ProductFacts.scrape_producthunt_ok r draws Es).
      rewrite length_take. lia.
    + unfold Adapters._scrape_producthunt. rewrite Es. cbv. lia.
  - intros r -> Hs. rewrite (ProductFacts.scrape_producthunt_ok r draws Hs).
    apply Forall2_take, ProductFacts.producthunt_loop_built.
  - by intros e ->.
  - intros r -> Hs. apply Nat.eqb_neq in Hs. unfold Adapters._scrape_producthunt. by rewrite Hs.
  - intros text. split; [apply ProductFacts.saas_relevance_fraction |].
    split; [apply ProductFacts.saas_matches_le | apply ProductFacts.saas_threshold].
Qed.

Module PipelineFacts.
Import Adapters.

Lemma kept_from_keys (ys : list topic_data) (st : list topic_data * gset string) :
  keys_all_kept st.2 (Dedup.topic_key <$> ys) = true → kept_from st ys.
Proof.
  revert st. induction ys as [| y ys IH]; intros st H; [done |].
  simpl in H. apply andb_true_iff in H as [Hy H]. apply negb_true_iff in Hy.
  split; [exact Hy |]. apply IH. by rewrite DedupFacts.dedup_step_keep.
Qed.

Lemma deduplicate_keeps_all (ys : list topic_data) :
  keys_all_kept ∅ (Dedup.topic_key <$> ys) = true → Dedup._deduplicate_topics ys = ys.
Proof.
  intros H. unfold Dedup._deduplicate_topics, Dedup.dedup_state.
  by rewrite (DedupFacts.kept_from_foldl ys ([], ∅) (kept_from_keys ys ([], ∅) H)).
Qed.

Lemma twitter_topics_all_kept draws :
  Dedup._deduplicate_topics (_scrape_twitter_trends draws).1 = (_scrape_twitter_trends draws).1.
Proof.
  apply deduplicate_keeps_all.
  pose proof (AdapterFacts.scrape_twitter_trends_spec draws) as (Ht & _).
  cbv zeta in Ht.
  replace (Dedup.topic_key <$> (_scrape_twitter_trends draws).1)
    with ((λ o : option string, PyStr.lower (get o "")) <$> (topic <$> (_scrape_twitter_trends draws).1)).
  - rewrite Ht. vm_compute. reflexivity.
  - rewrite <- list_fmap_compose. done.
Qed.

End PipelineFacts.

(** X19. Used without a session (the agent built but never entered, as
    the research endpoint of the API does), the forum and the
    product-launch requests fail and the search-trend adapter finds
    nothing, so a run returns exactly the six social-trend candidates,
    scored and in descending order of score. *)
Theorem research_without_session
    (now : Q) (e1 e2 : exn) (draws1 draws2 draws3 draws4 : list nat) :
  let reddit := (Adapters._scrape_reddit_saas now (Raise e1) draws1).1 in
  let producthunt := (Adapters._scrape_producthunt (Raise e2) draws2).1 in
  let twitter := (Adapters._scrape_twitter_trends draws3).1 in
  let google := (Adapters._scrape_google_trends draws4).1 in
  ∃ final,
    Coordinator.find_trending_topics
      [Return reddit; Return producthunt; Return twitter; Return google]
    = Return final ∧
    final = sorted_desc Coordinator.relevance_key (ResearchAgent.score_topic <$> twitter) ∧
    length final = 6%nat ∧
    final ≡ₚ ResearchAgent.score_topic <$> twitter ∧
    descending Coordinator.relevance_key final.
Proof.
  intros reddit producthunt twitter google.
  assert (Hlen : length twitter = 6%nat).
  { pose proof (AdapterFacts.scrape_twitter_trends_spec draws3) as (Ht & _).
    cbv zeta in Ht. fold twitter in Ht.
    by rewrite <- (length_fmap topic), Ht. }
  assert (Hfinal : Coordinator.final_topics (Coordinator.scored_values twitter)
                   = sorted_desc Coordinator.relevance_key (ResearchAgent.score_topic <$> twitter)).
  { unfold Coordinator.final_topics, Coordinator.scored_values.
    apply take_ge.
    by rewrite (sorted_desc_perm Coordinator.relevance_key), length_fmap, Hlen; lia. }
  eexists. split.
  - rewrite CoordinatorFacts.find_trending_topics_returns.
    unfold returned_topics, google. rewrite AdapterFacts.scrape_google_trends_empty.
    change reddit with (@nil topic_data). change producthunt with (@nil topic_data).
    simpl concat. rewrite app_nil_r.
    unfold twitter. rewrite PipelineFacts.twitter_topics_all_kept. reflexivity.
  - fold twitter. rewrite Hfinal. split; [done |].
    split; [by rewrite (sorted_desc_perm Coordinator.relevance_key), length_fmap |].
    split; [apply sorted_desc_perm | apply sorted_desc_descending].
Qed.

Module CallerFacts.
Import Callers.

Lemma stored_relevance_unit (r : Q) : (0 <= r)%Q → (r <= 1)%Q → (stored_relevance r == r)%Q.
Proof.
  intros H0 H1. unfold stored_relevance.
  rewrite (Q.max_l r 0 H0). by apply Q.min_l.
Qed.


Lemma filter_cons_nonempty {A} (P : A → Prop) `{!∀ x, Decision (P x)} (l : list A) x :
  x ∈ l → P x → filter P l ≠ [].
Proof.
  intros Hx HP Hnil.
  assert (Hin : x ∈ filter P l) by (apply list_elem_of_filter; done).
  rewrite Hnil in Hin. by apply elem_of_nil in Hin.
Qed.

Lemma filter_none {A} (P : A → Prop) `{!∀ x, Decision (P x)} (l : list A) :
  (∀ x, x ∈ l → ¬ P x) → filter P l = [].
Proof.
  induction l as [| a l IH]; intros Hl; [done |].
  rewrite filter_cons, decide_False.
  - apply IH. intros x Hx. apply Hl. by apply elem_of_cons; right.
  - apply Hl. by apply elem_of_cons; left.
Qed.

End CallerFacts.



(** X21. The insights the manual content sprint hands to the idea
    synthesizer are always taken from the run's result, in its order: the
    first five without a hint; with a hint, the first three of those whose
    topic or context contains it (case-insensitively), and when none
    matches the hint is ignored and the first three of the run are
    used. *)
Theorem sprint_picks (topic_hint : option string) (insights : list topic_data) :
  let picks := Callers.picks topic_hint insights in
  picks `sublist_of` insights ∧
  (length picks ≤ 5)%nat ∧
  (topic_hint = None ∨ topic_hint = Some EmptyString → picks = take 5 insights) ∧
  (∀ hint, topic_hint = Some hint → hint ≠ EmptyString →
     (length picks ≤ 3)%nat ∧
     (∀ i, i ∈ insights → Callers.matches_hint hint i = true →
        picks = take 3 (filter (λ p, Callers.matches_hint hint p = true) insights) ∧
        picks ≠ [] ∧ Forall (λ p, Callers.matches_hint hint p = true) picks) ∧
     ((∀ i, i ∈ insights → Callers.matches_hint hint i = false) →
        picks = take 3 insights)).
Proof.
  intros picks. unfold picks, Callers.picks.
  destruct topic_hint as [hint |].
  - destruct hint as [| c hint].
    + simpl. split; [apply sublist_take |]. split; [rewrite length_take; lia |].
      split; [done |]. intros hint [= <-] Hne. done.
    + change (0 <? String.length (String c hint))%nat with true. cbv iota zeta.
      set (h := String c hint).
      set (f := filter (λ i, Callers.matches_hint h i = true) insights).
      assert (Hsub : take 3 f `sublist_of` insights).
      { etrans; [apply sublist_take | apply sublist_filter]. }
      assert (Hall : Forall (λ p, Callers.matches_hint h p = true) (take 3 f)).
      { apply Forall_take. unfold f. apply Forall_forall. intros x Hx.
        by apply list_elem_of_filter in Hx as [Hx _]. }
      destruct f as [| a f'] eqn:Ef.
      * split; [apply sublist_take |]. split; [rewrite length_take; lia |].
        split; [intros [[=] | [=]] |].
        intros hint' [= <-] _. split; [rewrite length_take; lia |]. split; [| done].
        intros i Hi Hm. exfalso.
        eapply (CallerFacts.filter_cons_nonempty
                  (λ i, Callers.matches_hint h i = true) insights i Hi Hm).
        exact Ef.
      * split; [exact Hsub |]. split; [rewrite length_take; lia |].
        split; [intros [[=] | [=]] |].
        intros hint' [= <-] _. split; [rewrite length_take; lia |]. split.
        -- intros i Hi Hm. split; [by fold f; rewrite Ef |].
           split; [done | exact Hall].
        -- intros Hnone. exfalso.
           assert (Ha : a ∈ filter (λ i, Callers.matches_hint h i = true) insights).
           { fold f. rewrite Ef. by apply elem_of_cons; left. }
           apply list_elem_of_filter in Ha as [Hm Ha].
           rewrite (Hnone a Ha) in Hm. discriminate.
  - simpl. split; [apply sublist_take |]. split; [rewrite length_take; lia |].
    split; [done |]. intros hint [=].
Qed.

Module CharFacts.
Import PyStr.

Lemma chars_app a b :
  list_ascii_of_string (a +:+ b) = list_ascii_of_string a ++ list_ascii_of_string b.
Proof.
  induction a as [| c a IH]; [done |].
  change (String c a +:+ b) with (String c (a +:+ b)). simpl. by rewrite IH.
Qed.

Lemma without_char_app c a b :
  without_char c a → without_char c b → without_char c (a +:+ b).
Proof. unfold without_char. rewrite chars_app. apply Forall_app_2. Qed.

Lemma sub_non_word_slash s : without_char "/" (sub_non_word s).
Proof.
  unfold without_char. induction s as [| c s IH]; simpl; [constructor |].
  constructor; [| exact IH].
  by destruct c as [[] [] [] [] [] [] [] []].
Qed.

Lemma lower_char_slash c : c ≠ "/"%char → lower_char c ≠ "/"%char.
Proof. by destruct c as [[] [] [] [] [] [] [] []]. Qed.

Lemma upper_char_slash c : c ≠ "/"%char → upper_char c ≠ "/"%char.
Proof. by destruct c as [[] [] [] [] [] [] [] []]. Qed.

Lemma lower_slash s : without_char "/" s → without_char "/" (lower s).
Proof.
  unfold without_char. induction s as [| c s IH]; simpl; [done |].
  intros H. apply Forall_cons_1 in H as [Hc H].
  constructor; [by apply lower_char_slash | by apply IH].
Qed.

Lemma title_go_slash b s : without_char "/" s → without_char "/" (title_go b s).
Proof.
  unfold without_char. revert b. induction s as [| c s IH]; intros b; simpl; [done |].
  intros H. apply Forall_cons_1 in H as [Hc H].
  constructor; [| by apply IH].
  destruct b; [by apply lower_char_slash | by apply upper_char_slash].
Qed.

Lemma flush_chars (P : ascii → Prop) cur acc :
  Forall P cur → Forall (λ w, Forall P (list_ascii_of_string w)) acc →
  Forall (λ w, Forall P (list_ascii_of_string w)) (flush cur acc).
Proof.
  intros Hc Ha. destruct cur as [| c cur]; [done |].
  constructor; [| done].
  rewrite list_ascii_of_string_of_list_ascii. by apply Forall_rev.
Qed.

Lemma split_go_chars (P : ascii → Prop) s cur :
  Forall P (list_ascii_of_string s) → Forall P cur →
  Forall (λ w, Forall P (list_ascii_of_string w)) (split_go s cur).
Proof.
  revert cur. induction s as [| c s IH]; intros cur Hs Hc; simpl.
  - by apply flush_chars.
  - simpl in Hs. apply Forall_cons_1 in Hs as [Hc0 Hs]. destruct (isspace c).
    + apply flush_chars; [done | by apply IH].
    + apply IH; [done | by constructor].
Qed.

Lemma split_slash s : without_char "/" s → Forall (without_char "/") (split s).
Proof. intros H. by apply (split_go_chars (λ x, x ≠ "/"%char)). Qed.

Lemma join_slash (ws : list string) :
  Forall (without_char "/") ws → without_char "/" (join " " ws).
Proof.
  induction 1 as [| w ws Hw Hws IH]; [constructor |].
  destruct ws as [| w' ws]; [done |].
  change (join " " (w :: w' :: ws)) with (w +:+ " " +:+ join " " (w' :: ws)).
  apply without_char_app; [done |]. apply without_char_app; [| done].
  by constructor.
Qed.

Lemma startswith_chars n s :
  startswith n s = true → ∃ r, list_ascii_of_string s = list_ascii_of_string n ++ r.
Proof.
  revert s. induction n as [| a n IH]; intros s H.
  - by exists (list_ascii_of_string s).
  - destruct s as [| b s]; [done |]. simpl in H.
    destruct (Ascii.eqb a b) eqn:E; [| done].
    apply Ascii.eqb_eq in E as ->. destruct (IH s H) as [r Hr].
    exists r. simpl. by rewrite Hr.
Qed.

Lemma contains_chars n s c :
  contains n s = true → c ∈ list_ascii_of_string n → c ∈ list_ascii_of_string s.
Proof.
  intros H Hc. induction s as [| b s IH].
  - simpl in H. rewrite orb_false_r in H.
    apply startswith_chars in H as [r Hr]. rewrite Hr. apply elem_of_app. by left.
  - simpl in H. apply orb_true_iff in H as [H | H].
    + apply startswith_chars in H as [r Hr]. rewrite Hr. apply elem_of_app. by left.
    + simpl. apply elem_of_cons. right. by apply IH.
Qed.

Lemma contains_slash n s :
  without_char "/" s → "/"%char ∈ list_ascii_of_string n → contains n s = false.
Proof.
  intros Hs Hn. destruct (contains n s) eqn:E; [| done].
  pose proof (contains_chars n s _ E Hn) as Hin.
  unfold without_char in Hs. rewrite Forall_forall in Hs. by destruct (Hs _ Hin).
Qed.

End CharFacts.

Module CompetitorFacts.
Import Competitor CharFacts.

Lemma meaningful_words_slash text :
  Forall (without_char "/") (Normalizer.meaningful_words text).
Proof.
  unfold Normalizer.meaningful_words.
  apply NormalizerFacts.Forall_filter_list, split_slash, sub_non_word_slash.
Qed.

Lemma extract_topic_slash text :
  Normalizer.meaningful_words text ≠ [] →
  without_char "/" (Normalizer._extract_topic_from_text text).
Proof.
  intros Hne. unfold Normalizer._extract_topic_from_text.
  pose proof (meaningful_words_slash text) as Hw.
  destruct (2 <=? length (Normalizer.meaningful_words text))%nat.
  - destruct (Normalizer.first_tech_phrase _) as [phrase |] eqn:Ep.
    + apply NormalizerFacts.first_tech_phrase_window in Ep as (i & -> & _).
      apply title_go_slash, join_slash, Forall_take, Forall_drop, Hw.
    + apply title_go_slash, join_slash, Forall_take, Hw.
  - destruct (Normalizer.meaningful_words text) as [| w ws] eqn:E; [done |].
    by apply title_go_slash, join_slash.
Qed.

Lemma article_topics_length articles :
  (length (article_topics articles) ≤ length articles)%nat.
Proof.
  induction articles as [| [text |] rest IH]; simpl; [lia | | lia].
  destruct (Normalizer._extract_topic_from_text _); simpl; lia.
Qed.

Lemma article_topics_nonempty articles : Forall (λ t, t ≠ "") (article_topics articles).
Proof.
  induction articles as [| [text |] rest IH]; simpl; [constructor | | done].
  destruct (Normalizer._extract_topic_from_text _) eqn:E; [done |].
  by constructor.
Qed.

Lemma article_topics_slash articles :
  Forall (λ title_elem, ∀ text, title_elem = Some text →
            Normalizer.meaningful_words (PyStr.strip text) ≠ []) articles →
  Forall (without_char "/") (article_topics articles).
Proof.
  induction 1 as [| title_elem rest Ht Hrest IH]; [constructor |].
  destruct title_elem as [text |]; simpl; [| done].
  pose proof (extract_topic_slash (PyStr.strip text) (Ht text eq_refl)) as Hs.
  destruct (Normalizer._extract_topic_from_text _) eqn:E; [done |].
  by constructor.
Qed.

Lemma gaps_sublist topics : gaps topics `sublist_of` craefto_topics.
Proof. apply sublist_filter. Qed.

Lemma gaps_nil : gaps [] = craefto_topics.
Proof. vm_compute. reflexivity. Qed.

Lemma gaps_ui_ux topics : Forall (without_char "/") topics → "ui/ux" ∈ gaps topics.
Proof.
  intros H. unfold gaps. apply list_elem_of_filter. split.
  - change (PyStr.split "ui/ux") with ["ui/ux"]. unfold PyStr.any_in.
    cbn [existsb]. rewrite orb_false_r.
    apply contains_slash; [by apply lower_slash, join_slash |].
    vm_compute. apply elem_of_cons; right. apply elem_of_cons; right.
    apply elem_of_cons; by left.
  - unfold craefto_topics. rewrite !elem_of_cons. tauto.
Qed.

End CompetitorFacts.

(** X22. The competitor analysis never raises. Only a response with
    status 200 gives [success]; a raised exception gives its message under
    [error], and both failures leave the topics and the gaps empty. On
    success there are at most ten topics, none empty, and the gaps are
    focus areas in their order: all four when no topic was found, and
    [ui/ux] whenever every title has a meaningful word, because the
    normalizer removes the slash. *)
Theorem analyze_competitor_report
    (competitor_url : string)
    (fetched : outcome (Adapters.response (list (option string)))) :
  let a := Competitor.analyze_competitor competitor_url fetched in
  Competitor.url a = competitor_url ∧
  (Competitor.success a = true ↔ ∃ r, fetched = Return r ∧ Adapters.status r = 200%nat) ∧
  (Competitor.error a = None ↔ ∃ r, fetched = Return r) ∧
  (∀ e, fetched = Raise e → Competitor.error a = Some (exn_str e)) ∧
  (Competitor.success a = false →
     Competitor.content_topics a = [] ∧ Competitor.content_gaps a = []) ∧
  (length (Competitor.content_topics a) ≤ 10)%nat ∧
  Forall (λ t, t ≠ "") (Competitor.content_topics a) ∧
  Competitor.content_gaps a `sublist_of` Competitor.craefto_topics ∧
  (Competitor.success a = true →
     (Competitor.content_topics a = [] →
        Competitor.content_gaps a = Competitor.craefto_topics) ∧
     (∀ r, fetched = Return r →
        Forall (λ title_elem, ∀ text, title_elem = Some text →
                  Normalizer.meaningful_words (PyStr.strip text) ≠ [])
               (take 10 (Adapters.body r)) →
        "ui/ux" ∈ Competitor.content_gaps a)).
Proof.
  intros a. unfold a, Competitor.analyze_competitor.
  destruct fetched as [r | e].
  - destruct (Adapters.status r =? 200)%nat eqn:Es.
    + apply Nat.eqb_eq in Es. simpl.
      split; [done |]. split; [split; [by exists r | done] |].
      split; [split; [by exists r | done] |]. split; [done |]. split; [done |].
      split.
      { etrans; [apply CompetitorFacts.article_topics_length |].
        rewrite length_take. lia. }
      split; [apply CompetitorFacts.article_topics_nonempty |].
      split; [apply CompetitorFacts.gaps_sublist |].
      intros _. split.
      * intros ->. apply CompetitorFacts.gaps_nil.
      * intros r' [= <-] Hall.
        by apply CompetitorFacts.gaps_ui_ux, CompetitorFacts.article_topics_slash.
    + apply Nat.eqb_neq in Es. simpl.
      split; [done |]. split; [split; [done | by intros (r' & [= <-] & ?)] |].
      split; [split; [by exists r | done] |]. split; [done |]. split; [done |].
      split; [lia |]. split; [constructor |]. split; [apply sublist_nil_l |]. done.
  - simpl. split; [done |]. split; [split; [done | by intros (r' & [=] & ?)] |].
    split; [split; [done | by intros (r' & [=])] |].
    split; [by intros e' [= <-] |]. split; [done |].
    split; [lia |]. split; [constructor |]. split; [apply sublist_nil_l |]. done.
Qed.
